(** * mock_interview_ai: the resilience and repair layer

    A shallow embedding of the credential/model rotation
    ([ai_utils.py]), the static question bank ([question_bank.py]), the
    interview structure enforcer ([question_generator.py]), the answer
    evaluator ([evaluator.py]) and the resume fallback chain
    ([resume_parser.py]), followed by the properties established about them.

    Conventions of the embedding:
    - Python [str] is [string]; every [ascii] is one code point, from 0 to
      255.  On such text (Latin-1) the string methods below agree with
      Python: blanks include U+0085 and U+00A0, word characters and lower
      case include the accented letters.  A text with a code point above
      255 has no counterpart here.  The three literals of the source that
      hold such code points (the marks in the generation prompt and in the
      Quota notice) are spelled by their UTF-8 bytes; they are handed over
      as they are and no string method is applied to them.
    - Python [int] is [Z]; list lengths are [nat] and are injected with
      [Z.of_nat] where the source mixes them with integers.
    - Question dictionaries are mutable objects: they live in a store
      ([Heap]) and lists hold references ([loc]) to them, so that in-place
      writes ([q["id"] = idx], [new_q["context"] += ...]) and
      [copy.deepcopy] keep their meaning.  A reference is an index into the
      store; the properties say where they need references to be allocated.
    - A [while] loop is a function with fuel; running out of fuel is a result
      of its own ([None]), and the properties show it does not happen.
    - An exception is a value [PyError]; a call that may raise returns a
      [result].
    - The generation service, the document readers, [json] and [pydantic]
      are not code of the repository: they are parameters ([GenAI],
      [FileSystem], [PyLibs]), and the properties hold for every instance;
      the concrete instances further down serve the examples. *)

From Stdlib Require Import ZArith Lia Bool Ascii String.
From Stdlib Require Import Numbers.DecimalString.
From stdpp Require Import base list strings sorting.

Open Scope string_scope.
Open Scope list_scope.
Open Scope nat_scope.

(* ===================================================================== *)
(** ** Python strings *)
(* ===================================================================== *)

Module PyStr.

Definition is_upper (c : ascii) : bool :=
let n := nat_of_ascii c in (65 <=? n) && (n <=? 90).

Definition is_lower (c : ascii) : bool :=
let n := nat_of_ascii c in (97 <=? n) && (n <=? 122).

Definition is_digit (c : ascii) : bool :=
let n := nat_of_ascii c in (48 <=? n) && (n <=? 57).

Definition is_alpha (c : ascii) : bool := is_upper c || is_lower c.

(** The upper case letters of U+00C0..U+00DE (all of them but the
  multiplication sign U+00D7). *)
Definition is_upper_accented (c : ascii) : bool :=
let n := nat_of_ascii c in
(192 <=? n) && (n <=? 222) && negb (n =? 215).

(** [str.isalnum] above U+007F: the ordinal indicators U+00AA and U+00BA,
  the micro sign U+00B5, the superscript digits U+00B2, U+00B3, U+00B9, the
  fractions U+00BC..U+00BE, and the letters of U+00C0..U+00FF (all of them
  but the multiplication and division signs U+00D7 and U+00F7). *)
Definition is_alnum_above (c : ascii) : bool :=
let n := nat_of_ascii c in
(n =? 170) || (n =? 178) || (n =? 179) || (n =? 181) || (n =? 185)
|| (n =? 186) || ((188 <=? n) && (n <=? 190))
|| ((192 <=? n) && negb (n =? 215) && negb (n =? 247)).

(** [\w] of the [re] module on a [str] pattern: a character for which
  [str.isalnum] holds, or the underscore. *)
Definition is_word (c : ascii) : bool :=
is_alpha c || is_digit c || (nat_of_ascii c =? 95) || is_alnum_above c.

(** [str.isspace] on one character: tab, newline, vertical tab, form feed,
  carriage return, the four separators 28..31, the space, the next-line
  control U+0085 and the no-break space U+00A0. *)
Definition is_space (c : ascii) : bool :=
let n := nat_of_ascii c in
((9 <=? n) && (n <=? 13)) || ((28 <=? n) && (n <=? 31)) || (n =? 32)
|| (n =? 133) || (n =? 160).

(** [str.lower] on one character. *)
Definition lower_ascii (c : ascii) : ascii :=
if is_upper c || is_upper_accented c
then ascii_of_nat (nat_of_ascii c + 32) else c.

Definition upper_ascii (c : ascii) : ascii :=
if is_lower c then ascii_of_nat (nat_of_ascii c - 32) else c.

(** [s.lower()] *)
Fixpoint lower (s : string) : string :=
match s with
| EmptyString => EmptyString
| String c s' => String (lower_ascii c) (lower s')
end.

(** [s.startswith(p)] *)
Fixpoint startswith (s p : string) {struct p} : bool :=
match p, s with
| EmptyString, _ => true
| String _ _, EmptyString => false
| String a p', String b s' => Ascii.eqb a b && startswith s' p'
end.

(** [k in s] *)
Fixpoint contains (k s : string) : bool :=
startswith s k ||
match s with
| EmptyString => false
| String _ s' => contains k s'
end.

(** [any(k in s for k in ks)] *)
Definition contains_any (ks : list string) (s : string) : bool :=
existsb (fun k => contains k s) ks.

Definition is_empty (s : string) : bool :=
match s with EmptyString => true | String _ _ => false end.

Fixpoint lstrip (s : string) : string :=
match s with
| EmptyString => EmptyString
| String c s' => if is_space c then lstrip s' else s
end.

Fixpoint rstrip (s : string) : string :=
match s with
| EmptyString => EmptyString
| String c s' =>
    let r := rstrip s' in
    if is_space c && is_empty r then EmptyString else String c r
end.

(** [s.strip()] *)
Definition strip (s : string) : string := rstrip (lstrip s).

(** [s[:n]] for [n >= 0] *)
Fixpoint str_take (n : nat) (s : string) : string :=
match n, s with
| S n', String c s' => String c (str_take n' s')
| _, _ => EmptyString
end.

(** [s[n:]] for [n >= 0] *)
Fixpoint str_drop (n : nat) (s : string) : string :=
match n, s with
| S n', String _ s' => str_drop n' s'
| _, _ => s
end.

(** [s[:-n]] for [n > 0] *)
Definition str_drop_last (n : nat) (s : string) : string :=
str_take (String.length s - n) s.

(** [s.endswith(p)] *)
Definition endswith (s p : string) : bool :=
(String.length p <=? String.length s) &&
String.eqb (str_drop (String.length s - String.length p) s) p.

(** [s.split(sep)] for a one-character separator *)
Fixpoint split (sep : ascii) (s : string) : list string :=
match s with
| EmptyString => [EmptyString]
| String c s' =>
    if Ascii.eqb c sep then EmptyString :: split sep s'
    else match split sep s' with
         | h :: t => String c h :: t
         | [] => [String c EmptyString]
         end
end.

(** [s.replace(old, new)] for a non-empty [old]: occurrences are replaced
  from the left and do not overlap; [skip] counts the characters of the
  occurrence being consumed. *)
Fixpoint replace_from (old new : string) (skip : nat) (s : string) : string :=
match s with
| EmptyString => EmptyString
| String c s' =>
    match skip with
    | S k => replace_from old new k s'
    | O =>
        if startswith s old
        then new +:+ replace_from old new (String.length old - 1) s'
        else String c (replace_from old new 0 s')
    end
end.

Definition replace (s old new : string) : string := replace_from old new 0 s.

(** [s.title()]: a cased character is upper case after an uncased one and
  lower case after a cased one.  The source applies it to the vocabulary,
  which is ASCII; upper case is modelled on ASCII letters only, since the
  upper case of U+00DF, U+00B5 and U+00FF is not a code point below 256. *)
Fixpoint title_from (prev_cased : bool) (s : string) : string :=
match s with
| EmptyString => EmptyString
| String c s' =>
    String (if prev_cased then lower_ascii c else upper_ascii c)
           (title_from (is_alpha c) s')
end.

Definition title (s : string) : string := title_from false s.

(** [sep.join(xs)] *)
Fixpoint join (sep : string) (xs : list string) : string :=
match xs with
| [] => EmptyString
| [x] => x
| x :: rest => x +:+ sep +:+ join sep rest
end.

(** [str(n)] for an integer *)
Definition of_Z (n : Z) : string := NilZero.string_of_int (Z.to_int n).

(** The double quote character, for texts that quote. *)
Definition dq : string := String (ascii_of_nat 34) EmptyString.

(** The line feed. *)
Definition nl_char : ascii := ascii_of_nat 10.

End PyStr.

Import PyStr.

(** [xs[:k]] on a list, for any integer [k]: a negative bound counts from
    the end. *)
Definition py_take {A : Type} (xs : list A) (k : Z) : list A :=
  if (0 <=? k)%Z then take (Z.to_nat k) xs
  else take (length xs - Z.to_nat (- k)) xs.

(* ===================================================================== *)
(** ** Exceptions and results *)
(* ===================================================================== *)

(** An exception as the code sees it: an optional machine-readable status
    code (the HTTP-like code carried by the errors of the generation service)
    and the human-readable message. *)
Record PyError := mkError { err_code : option Z; err_message : string }.

(** [str(e)]: an error of the generation service prints its code in front of
    its message; any other exception prints its message. *)
Definition py_str (e : PyError) : string :=
  match err_code e with
  | Some c => of_Z c +:+ " " +:+ err_message e
  | None => err_message e
  end.

(** [ValueError(msg)], [Exception(msg)]: no status code. *)
Definition plain_error (msg : string) : PyError :=
  {| err_code := None; err_message := msg |}.

Inductive result (A : Type) : Type :=
| Ok (a : A)
| Raise (e : PyError).
Arguments Ok {A} a.
Arguments Raise {A} e.

(* ===================================================================== *)
(** ** Questions and the object store *)
(* ===================================================================== *)

(** The [Question] dictionary.  [initial_code] is the one key that may be
    absent. *)
Record Question := mkQuestion {
  q_id : Z;
  q_text : string;
  q_type : string;
  q_difficulty : string;
  q_context : string;
  q_initial_code : option string
}.

Global Instance Question_inhabited : Inhabited Question :=
  populate (mkQuestion 0 EmptyString EmptyString EmptyString EmptyString None).

(** [q["id"] = idx] *)
Definition set_id (idx : Z) (q : Question) : Question :=
  mkQuestion idx (q_text q) (q_type q) (q_difficulty q) (q_context q)
             (q_initial_code q).

(** [q["context"] += suffix] *)
Definition append_context (suffix : string) (q : Question) : Question :=
  mkQuestion (q_id q) (q_text q) (q_type q) (q_difficulty q)
             (q_context q +:+ suffix) (q_initial_code q).

(** A reference to a dictionary, and the store of all dictionaries. *)
Abbreviation loc := nat (only parsing).
Abbreviation Heap := (list Question) (only parsing).

(** Computations over the store.  [None] is reserved for a loop of the model
    that ran out of fuel; no Python behaviour maps to it. *)
Definition M (A : Type) : Type := Heap -> option (A * Heap).

Definition ret {A : Type} (a : A) : M A := fun h => Some (a, h).

Definition bind {A B : Type} (m : M A) (k : A -> M B) : M B :=
  fun h => match m h with
           | Some (a, h') => k a h'
           | None => None
           end.

Definition out_of_fuel {A : Type} : M A := fun _ => None.

Notation "'do' x <- c1 ; c2" := (bind c1 (fun x => c2))
  (at level 10, x name, c1 at level 100, c2 at level 200).
Notation "'exec' c1 ; c2" := (bind c1 (fun _ => c2))
  (at level 10, c1 at level 100, c2 at level 200).

(** A dictionary literal: a new object. *)
Definition new_dict (q : Question) : M loc :=
  fun h => Some (length h, h ++ [q]).

(** Reading through a reference. *)
Definition deref (h : Heap) (l : loc) : Question := h !!! l.

Definition read (l : loc) : M Question := fun h => Some (deref h l, h).

(** An in-place write through a reference. *)
Definition update (l : loc) (f : Question -> Question) : M unit :=
  fun h => Some (tt, alter f l h).

(** [copy.deepcopy(q)]: a new object with the same fields (all of them
    immutable values). *)
Definition deepcopy (l : loc) : M loc :=
  do q <- read l; new_dict q.

(** [for idx, q in enumerate(qs, start=idx): q["id"] = idx] *)
Fixpoint assign_ids (qs : list loc) (idx : Z) : M unit :=
  match qs with
  | [] => ret tt
  | q :: rest => exec update q (set_id idx); assign_ids rest (idx + 1)%Z
  end.

(** The dictionaries a list of references denotes. *)
Definition values (h : Heap) (qs : list loc) : list Question :=
  map (deref h) qs.

(* ===================================================================== *)
(** ** question_bank.py *)
(* ===================================================================== *)

(** The dictionaries of the [QUESTION_BANK] literal, category by category,
    in the order of the literal. *)
Definition bank_python : list Question :=
  [ mkQuestion 1001%Z
      "For a start, I see you've worked with Python. If you were explaining the practical difference between a list and a tuple to a junior developer, how would you describe when it's absolutely critical to use one over the other?"
      "technical" "easy"
      "Core Python proficiency with a conversational lens."
      (Some "");
    mkQuestion 1002%Z
      "I'm curious about your experience with advanced Python features. How have you used decorators in your previous projects to clean up or extend your code's functionality?"
      "technical" "medium"
      "Advanced Python concepts in a practical context."
      (Some "");
    mkQuestion 1003%Z
      "Let's look at a quick coding scenario. Could you write a short function for me that takes a string and returns it reversed? For example, 'hello' becoming 'olleh'."
      "coding" "easy"
      "Basic algorithmic thinking."
      (Some "def reverse_string(s):
    # Your code here
    pass") ].

Definition bank_javascript : list Question :=
  [ mkQuestion 2001%Z
      "What is the difference between '==' and '===' in JavaScript?"
      "technical" "easy"
      "JS fundamentals."
      (Some "");
    mkQuestion 2002%Z
      "Explain the concept of 'closures' in JavaScript with an example."
      "technical" "medium"
      "Scope and memory management in JS."
      (Some "");
    mkQuestion 2003%Z
      "Write a function that filters an array of numbers to return only the even ones."
      "coding" "easy"
      "Array manipulation in JS."
      (Some "function filterEvens(arr) {
    // Your code here
}") ].

Definition bank_react : list Question :=
  [ mkQuestion 3001%Z
      "What are React Hooks? Explain useState and useEffect."
      "technical" "easy"
      "Modern React development."
      (Some "");
    mkQuestion 3002%Z
      "What is the Virtual DOM, and how does React use it to improve performance?"
      "technical" "medium"
      "React architecture."
      (Some "") ].

Definition bank_general_technical : list Question :=
  [ mkQuestion 5001%Z
      "Could you walk me through your debugging process? For example, when you hit a complex bug that isn't immediately obvious, what steps do you take to isolate the root cause?"
      "technical" "medium"
      "Debugging and problem-solving methodology."
      (Some "");
    mkQuestion 5002%Z
      "How do you approach testing your code? Do you lean more towards unit testing, integration testing, or a mix, and why?"
      "technical" "easy"
      "Quality assurance mindset."
      (Some "");
    mkQuestion 5003%Z
      "When picking a new tool or library for a project, what criteria do you look for to decide if it's the right choice?"
      "technical" "medium"
      "Tech stack decision making."
      (Some "") ].

Definition bank_general_behavioral : list Question :=
  [ mkQuestion 4001%Z
      "I'd love to hear about a project that really challenged you. What was the biggest hurdle you hit, and how did you navigate through it to get the results you wanted?"
      "behavioral" "medium"
      "Problem-solving and resilience."
      (Some "");
    mkQuestion 4002%Z
      "Thinking about your future, where do you see your career heading in the next couple of years, particularly in terms of the technical skills you want to master?"
      "behavioral" "easy"
      "Ambition and career alignment."
      (Some "");
    mkQuestion 4003%Z
      "We all hit points of friction in a team. Could you share a time when you disagreed with a teammate? How did you approach that conversation to find a path forward?"
      "behavioral" "easy"
      "Conflict resolution and teamwork."
      (Some "");
    mkQuestion 4004%Z
      "Can you describe a specific time you had to learn a new technology quickly to get a job done? How did you go about it?"
      "behavioral" "medium"
      "Adaptability and learning agility."
      (Some "") ].

Definition QUESTION_BANK_literal : list (string * list Question) :=
  [ ("python", bank_python);
    ("javascript", bank_javascript);
    ("react", bank_react);
    ("general_technical", bank_general_technical);
    ("general_behavioral", bank_general_behavioral) ].

(** Evaluating the literal at import time creates every dictionary once. *)
Fixpoint new_dicts (qs : list Question) : M (list loc) :=
  match qs with
  | [] => ret []
  | q :: rest =>
      do l <- new_dict q;
      do ls <- new_dicts rest;
      ret (l :: ls)
  end.

Fixpoint load_bank (lit : list (string * list Question))
  : M (list (string * list loc)) :=
  match lit with
  | [] => ret []
  | (k, qs) :: rest =>
      do ls <- new_dicts qs;
      do b <- load_bank rest;
      ret ((k, ls) :: b)
  end.

(** The module-level [QUESTION_BANK]: an insertion-ordered dictionary from
    category to the list of references to its questions. *)
Definition QUESTION_BANK : list (string * list loc) :=
  Eval vm_compute in
    match load_bank QUESTION_BANK_literal [] with
    | Some (b, _) => b
    | None => []
    end.

(** The store right after the module is imported. *)
Definition module_heap : Heap :=
  Eval vm_compute in
    match load_bank QUESTION_BANK_literal [] with
    | Some (_, h) => h
    | None => []
    end.

(** [d.get(key, [])] *)
Fixpoint dict_get {A : Type} (d : list (string * list A)) (key : string)
  : list A :=
  match d with
  | [] => []
  | (k, v) :: rest => if String.eqb k key then v else dict_get rest key
  end.

(** [x in xs] for a list of strings *)
Definition str_elem (x : string) (xs : list string) : bool :=
  existsb (String.eqb x) xs.

Definition intro_text (role : string) : string :=
  "To get us started, could you walk me through your background and what specifically interested you about this "
  +:+ role +:+ " position?".

Definition closing_text : string :=
  "Before we wrap up, why do you think you'd be a great fit for this role, and what unique value would you bring to our team?".

(** The introduction literal, shared word for word by the fallback and by
    the structure enforcer. *)
Definition default_intro (role : string) : Question :=
  mkQuestion 1%Z (intro_text role) "behavioral" "easy"
             "Opening question to establish rapport" (Some EmptyString).

(** The closing literal; the two call sites differ in the provisional id. *)
Definition default_closing (id : Z) : Question :=
  mkQuestion id closing_text "behavioral" "medium"
             "Closing question to assess self-awareness and fit"
             (Some EmptyString).

(** The [for skill, questions in QUESTION_BANK.items()] loop. *)
Definition matched_candidates (bank : list (string * list loc))
  (resume_lower : string) : list loc :=
  fold_left
    (fun candidate_questions '(skill, questions) =>
       if negb (str_elem skill ["general_behavioral"; "general_technical"])
          && contains skill resume_lower
       then candidate_questions ++ questions
       else candidate_questions)
    bank [].

(** The [while len(final_questions) < (num_questions - 1)] loop. *)
Fixpoint cyclic_fill (fuel : nat) (middle_pool : list loc) (num_questions : Z)
  (current_idx : nat) (final_questions : list loc) : M (list loc) :=
  if (Z.of_nat (length final_questions) <? num_questions - 1)%Z then
    match fuel with
    | O => out_of_fuel
    | S fuel' =>
        if bool_decide (middle_pool = []) then ret final_questions
        else
          let base_q := middle_pool !!! (current_idx mod length middle_pool) in
          do new_q <- deepcopy base_q;
          exec (if length middle_pool <=? current_idx
                then update new_q
                       (append_context " (Follow-up / Alternate angle)")
                else ret tt);
          cyclic_fill fuel' middle_pool num_questions (S current_idx)
                      (final_questions ++ [new_q])
    end
  else ret final_questions.

(** The lists held by the bank are only read: [extend], [+] and [append]
    act on lists the call itself created, so lists are plain values here and
    only the dictionaries go through the store.  ([needed_middle] is computed
    by the source and never used.) *)
Definition get_fallback_questions (resume_text role : string)
  (num_questions : Z) : M (list loc) :=
  let resume_lower := lower resume_text in
  do intro_question <- new_dict (default_intro role);
  let candidate_questions := matched_candidates QUESTION_BANK resume_lower in
  let candidate_questions :=
    if bool_decide (candidate_questions = [])
    then candidate_questions ++ dict_get QUESTION_BANK "python"
    else candidate_questions in
  let candidate_questions :=
    candidate_questions ++ dict_get QUESTION_BANK "general_technical" in
  let behavioral_questions := dict_get QUESTION_BANK "general_behavioral" in
  let final_questions := [intro_question] in
  let middle_pool := candidate_questions ++ behavioral_questions in
  do final_questions <-
    cyclic_fill (Z.to_nat num_questions) middle_pool num_questions 0
                final_questions;
  do final_questions <-
    (if (1 <? num_questions)%Z
     then do closing_question <- new_dict (default_closing 9999);
          ret (final_questions ++ [closing_question])
     else ret final_questions);
  exec assign_ids final_questions 1;
  ret (py_take final_questions num_questions).

(* ===================================================================== *)
(** ** question_generator.py: the structure enforcer *)
(* ===================================================================== *)

Definition intro_keywords : list string :=
  [ "tell me about yourself"; "walk me through your background";
    "introduce yourself"; "background"; "what interested you" ].

Definition closing_keywords : list string :=
  [ "why hire you"; "why should we hire"; "what unique value";
    "great fit for this role"; "wrap up"; "any questions for" ].

Definition is_intro_question (q : Question) : bool :=
  let text_lower := lower (q_text q) in
  contains_any intro_keywords text_lower.

Definition is_closing_question (q : Question) : bool :=
  let text_lower := lower (q_text q) in
  contains_any closing_keywords text_lower.

(** A read-only look at the store. *)
Definition gets {A : Type} (f : Heap -> A) : M A := fun h => Some (f h, h).

(** The [for q in questions] loop that extracts the intro, the closing and
    the middle questions. *)
Fixpoint extract_roles (h : Heap) (questions : list loc)
  (intro_q closing_q : option loc) (middle_questions : list loc)
  : option loc * option loc * list loc :=
  match questions with
  | [] => (intro_q, closing_q, middle_questions)
  | q :: rest =>
      if is_intro_question (deref h q) && bool_decide (intro_q = None)
      then extract_roles h rest (Some q) closing_q middle_questions
      else if is_closing_question (deref h q) && bool_decide (closing_q = None)
      then extract_roles h rest intro_q (Some q) middle_questions
      else extract_roles h rest intro_q closing_q (middle_questions ++ [q])
  end.

(** The emergency literal of the gap filler; it has no [initial_code]. *)
Definition emergency_question : Question :=
  mkQuestion 0%Z "Could you walk me through a technical challenge you've faced?"
             "technical" "medium" "Emergency fallback" None.

(** The [while len(middle_questions) < target_middle_count] loop.  The list
    it indexes is the list it appends to. *)
Fixpoint gap_fill (fuel : nat) (target_middle_count : Z)
  (middle_questions : list loc) (current_fill_idx : nat) : M (list loc) :=
  if (Z.of_nat (length middle_questions) <? target_middle_count)%Z then
    match fuel with
    | O => out_of_fuel
    | S fuel' =>
        if bool_decide (middle_questions = []) then
          do e <- new_dict emergency_question;
          gap_fill fuel' target_middle_count (middle_questions ++ [e])
                   current_fill_idx
        else
          let base_q :=
            middle_questions !!! (current_fill_idx mod length middle_questions) in
          do new_q <- deepcopy base_q;
          exec update new_q (append_context " (Extended discussion)");
          gap_fill fuel' target_middle_count (middle_questions ++ [new_q])
                   (S current_fill_idx)
    end
  else ret middle_questions.

(** The part of the enforcer after [# Structure needs fixing - rebuild it]. *)
Definition rebuild_structure (questions : list loc) (role : string)
  (num_questions : Z) : M (list loc) :=
  do parts <- gets (fun h => extract_roles h questions None None []);
  let found_intro := fst (fst parts) in
  let found_closing := snd (fst parts) in
  let middle_questions := snd parts in
  do intro_q <-
    match found_intro with
    | Some q => ret q
    | None => new_dict (default_intro role)
    end;
  do closing_q <-
    match found_closing with
    | Some q => ret (Some q)
    | None =>
        if (2 <? num_questions)%Z
        then do c <- new_dict (default_closing 999); ret (Some c)
        else ret None
    end;
  let final_questions := [intro_q] in
  let target_middle_count :=
    (num_questions - (if closing_q is Some _ then 2 else 1))%Z in
  do middle_questions <-
    gap_fill (Z.to_nat target_middle_count) target_middle_count
             middle_questions 0;
  let final_questions :=
    match closing_q with
    | Some c =>
        final_questions ++ py_take middle_questions target_middle_count
                        ++ [c]
    | None =>
        final_questions ++ py_take middle_questions target_middle_count
    end in
  exec assign_ids final_questions 1;
  ret (py_take final_questions num_questions).

Definition _enforce_interview_structure (questions : list loc) (role : string)
  (num_questions : Z) : M (list loc) :=
  if bool_decide (questions = []) then ret questions
  else
    do first_q <- read (questions !!! 0);
    let first_is_intro := is_intro_question first_q in
    do last_is_closing <-
      (if 2 <? length questions
       then do last_q <- read (questions !!! (length questions - 1));
            ret (is_closing_question last_q)
       else ret false);
    if first_is_intro && ((length questions <=? 2) || last_is_closing) then
      exec assign_ids questions 1;
      ret questions
    else rebuild_structure questions role num_questions.

(* ===================================================================== *)
(** ** ai_utils.py: credentials and rotation *)
(* ===================================================================== *)

Definition CANDIDATE_MODELS : list string :=
  [ "gemini-2.5-flash"; "gemini-2.5-pro"; "gemini-2.0-flash";
    "gemini-2.0-flash-lite"; "gemini-flash-latest"; "gemini-pro-latest" ].

(** [os.getenv]: the process environment. *)
Abbreviation Env := (string -> option string) (only parsing).

(** [not keys_str] for an optional string *)
Definition falsy_str (o : option string) : bool :=
  match o with
  | None => true
  | Some s => is_empty s
  end.

Definition get_api_keys (env : Env) : list string :=
  let keys_str := env "RECRUITER_API_KEYS" in
  let keys_str := if falsy_str keys_str then env "GEMINI_API_KEYS" else keys_str in
  match keys_str with
  | None => []
  | Some s =>
      if is_empty s then []
      else filter (fun k => negb (is_empty k))
                  (map strip (split "," s))
  end.

(** The three ways the rotation reacts to a failed attempt. *)
Inductive ErrorClass := Quota | ModelUnavailable | Transient.

(** The [if "429" in err_str: ... if "404" in err_str: ...] chain. *)
Definition classify_error (err_str : string) : ErrorClass :=
  if contains "429" err_str then Quota
  else if contains "404" err_str then ModelUnavailable
  else Transient.

(** The generation service, seen from the rotation: every operation may
    depend on and change the state of the outside world [W].
    - [genai_configure api_key] may raise;
    - [genai_upload_file path] returns the name of the uploaded file or
      raises;
    - [genai_generate model_name is_json file prompt] builds the model, calls
      [generate_content] and reads [response.text]: [Ok text] (the empty text
      when there is no usable response) or the exception raised on the way;
    - [genai_delete_file name] is best effort, its failures are swallowed;
    - [time_sleep] is the one-second throttle. *)
Record GenAI (W : Type) := mkGenAI {
  genai_configure : string -> W -> option PyError * W;
  genai_upload_file : string -> W -> result string * W;
  genai_generate : string -> bool -> option string -> string -> W
                   -> result string * W;
  genai_delete_file : string -> W -> W;
  time_sleep : W -> W
}.
Arguments genai_configure {W} _ _ _.
Arguments genai_upload_file {W} _ _ _.
Arguments genai_generate {W} _ _ _ _ _ _.
Arguments genai_delete_file {W} _ _ _.
Arguments time_sleep {W} _ _.

(** What the rotation did to the service, in order: one entry per call.
    The log is bookkeeping of the model, kept for the statements; the source
    prints a line per attempt and keeps no record. *)
Inductive Event :=
| EvUpload (key_index : nat) (r : result string)
| EvSleep
| EvGenerate (key_index model_index : nat) (model_name : string)
             (r : result string)
| EvDelete (key_index : nat) (name : string).

(** The state threaded through both loops. *)
Record RotState (W : Type) := mkRot {
  last_error : option PyError;
  log : list Event;
  world : W
}.
Arguments mkRot {W} _ _ _.
Arguments last_error {W} _.
Arguments log {W} _.
Arguments world {W} _.

Section Rotation.
Context {W : Type} (svc : GenAI W).
Variables (prompt : string) (is_json : bool).

(** Best-effort release of the uploaded file. *)
Definition release (key_index : nat) (multimodal_file : option string)
  (st : RotState W) : RotState W :=
  match multimodal_file with
  | Some name =>
      mkRot (last_error st) (log st ++ [EvDelete key_index name])
            (genai_delete_file svc name (world st))
  | None => st
  end.

(** The inner loop, over the models, for one key.  [Some text] is the
    [return response.text]; [None] is the end of the loop, by exhaustion
    or by [break]. *)
Fixpoint try_models (key_index : nat) (multimodal_file : option string)
  (models : list string) (model_index : nat) (st : RotState W)
  : option string * RotState W :=
  match models with
  | [] => (None, st)
  | model_name :: rest =>
      let st :=
        if (0 <? key_index) || (0 <? model_index)
        then mkRot (last_error st) (log st ++ [EvSleep])
                   (time_sleep svc (world st))
        else st in
      let (r, w) :=
        genai_generate svc model_name is_json multimodal_file prompt
                       (world st) in
      let st :=
        mkRot (last_error st)
              (log st ++ [EvGenerate key_index model_index model_name r]) w in
      match r with
      | Ok text =>
          if negb (is_empty text)
          then (Some text, release key_index multimodal_file st)
          else try_models key_index multimodal_file rest (S model_index) st
      | Raise e =>
          let err_str := py_str e in
          let st := mkRot (Some e) (log st) (world st) in
          match classify_error err_str with
          | Quota => (None, st)
          | ModelUnavailable =>
              try_models key_index multimodal_file rest (S model_index) st
          | Transient =>
              try_models key_index multimodal_file rest (S model_index) st
          end
      end
  end.

Variable multimodal_filepath : option string.
Variable models_to_try : list string.

(** The outer loop, over the keys. *)
Fixpoint try_keys (keys : list string) (key_index : nat) (st : RotState W)
  : result string * RotState W :=
  match keys with
  | [] =>
      (Raise (default (plain_error "All API keys and models failed.")
                      (last_error st)), st)
  | api_key :: rest =>
      let (cfg, w) := genai_configure svc api_key (world st) in
      let st := mkRot (last_error st) (log st) w in
      match cfg with
      | Some key_setup_err => try_keys rest (S key_index) st
      | None =>
          let models_loop (multimodal_file : option string)
                          (st : RotState W) :=
            match try_models key_index multimodal_file models_to_try 0 st with
            | (Some text, st) => (Ok text, st)
            | (None, st) =>
                try_keys rest (S key_index)
                         (release key_index multimodal_file st)
            end in
          if falsy_str multimodal_filepath then models_loop None st
          else
            let (up, w) :=
              genai_upload_file svc (default EmptyString multimodal_filepath)
                                (world st) in
            let st :=
              mkRot (last_error st) (log st ++ [EvUpload key_index up]) w in
            match up with
            | Ok name => models_loop (Some name) st
            | Raise upload_err =>
                if contains "429" (py_str upload_err)
                then try_keys rest (S key_index) st
                else try_keys rest (S key_index)
                       (mkRot (Some upload_err) (log st) (world st))
            end
      end
  end.

End Rotation.

(** [custom_models or CANDIDATE_MODELS] *)
Definition models_or_default (custom_models : option (list string))
  : list string :=
  match custom_models with
  | Some (m :: ms) => m :: ms
  | _ => CANDIDATE_MODELS
  end.

Definition run_genai_with_rotation {W : Type} (svc : GenAI W) (env : Env)
  (prompt : string) (is_json : bool) (multimodal_filepath : option string)
  (custom_models : option (list string)) (w : W)
  : result string * RotState W :=
  let keys := get_api_keys env in
  if bool_decide (keys = []) then
    (Raise (plain_error "No GEMINI_API_KEY found in .env"), mkRot None [] w)
  else
    let models_to_try := models_or_default custom_models in
    try_keys svc prompt is_json multimodal_filepath models_to_try keys 0
             (mkRot None [] w).

(* ===================================================================== *)
(** ** Decoded JSON and the library boundary *)
(* ===================================================================== *)

(** A value returned by [json.loads].  A float is held by the text [repr]
    prints for it: no arithmetic is done on it, and the text tells its truth
    value, since the two zeros, and they alone, print as 0.0 and -0.0. *)
#[local] Unset Elimination Schemes.
Inductive json :=
| JNull
| JBool (b : bool)
| JInt (n : Z)
| JFloat (literal : string)
| JStr (s : string)
| JArr (items : list json)
| JObj (fields : list (string * json)).
#[local] Set Elimination Schemes.

(** [d.get(key, default)] on the fields of a dictionary *)
Fixpoint fields_get (fields : list (string * json)) (key : string)
  (default : json) : json :=
  match fields with
  | [] => default
  | (k, v) :: rest =>
      if String.eqb k key then v else fields_get rest key default
  end.

(** [d[key] = v]: an existing key keeps its place. *)
Fixpoint fields_set (fields : list (string * json)) (key : string) (v : json)
  : list (string * json) :=
  match fields with
  | [] => [(key, v)]
  | (k, v0) :: rest =>
      if String.eqb k key then (k, v) :: rest
      else (k, v0) :: fields_set rest key v
  end.

(** Truth value of a decoded value. *)
Definition truthy (v : json) : bool :=
  match v with
  | JNull => false
  | JBool b => b
  | JInt n => negb (n =? 0)%Z
  | JFloat literal =>
      negb (String.eqb literal "0.0" || String.eqb literal "-0.0")
  | JStr s => negb (is_empty s)
  | JArr items => negb (bool_decide (length items = 0))
  | JObj fields => negb (bool_decide (length fields = 0))
  end.

Definition type_name (v : json) : string :=
  match v with
  | JNull => "NoneType"
  | JBool _ => "bool"
  | JInt _ => "int"
  | JFloat _ => "float"
  | JStr _ => "str"
  | JArr _ => "list"
  | JObj _ => "dict"
  end.

(** The [AttributeError] of [v.attr] on a value that has no such method. *)
Definition attribute_error (v : json) (attr : string) : PyError :=
  plain_error ("'" +:+ type_name v +:+ "' object has no attribute '"
               +:+ attr +:+ "'").

Record EvaluationResult := mkEvaluationResult {
  score : Z;
  feedback : string;
  missing_keywords : list string;
  improvements : string;
  ideal_answer : string
}.

Record ResumeData := mkResumeData {
  rd_text : string;
  rd_filename : string;
  rd_file_type : string;
  rd_skills : list string;
  rd_experience : list string;
  rd_projects : list string
}.

(** What the code takes from libraries:
    - [json_loads] is [json.loads];
    - [decode_questions] is [json.loads] followed by the selection of the
      question list ([data["questions"]], or [data] itself when it is a
      list), for a response whose entries are [Question] dictionaries;
    - [make_EvaluationResult] and [make_ResumeData] are the pydantic
      constructors, which validate (and may coerce) every field;
    - [str_of_json] is [str(v)] and [json_dumps] is [json.dumps(v)]. *)
Record PyLibs := mkPyLibs {
  json_loads : string -> result json;
  decode_questions : string -> result (list Question);
  make_EvaluationResult : json -> json -> json -> json -> json
                          -> result EvaluationResult;
  make_ResumeData : json -> json -> json -> json -> json -> json
                    -> result ResumeData;
  str_of_json : json -> string;
  json_dumps : json -> string
}.

Definition JStrs (xs : list string) : json := JArr (map JStr xs).

(** The part of the libraries' behaviour the properties rely on: well-typed
    arguments are accepted as they are. *)
Record PyLibsLaws (libs : PyLibs) : Prop := mkPyLibsLaws {
  make_EvaluationResult_typed : forall n f ks i a,
    make_EvaluationResult libs (JInt n) (JStr f) (JStrs ks) (JStr i) (JStr a)
    = Ok (mkEvaluationResult n f ks i a);
  make_ResumeData_typed : forall t f ft s e p,
    make_ResumeData libs (JStr t) (JStr f) (JStr ft) (JStrs s) (JStrs e)
                    (JStrs p)
    = Ok (mkResumeData t f ft s e p)
}.

(* ===================================================================== *)
(** ** question_generator.py: generate_questions *)
(* ===================================================================== *)

Definition generate_prompt (quantity_instruction difficulty_instruction resume_text job_desc_section role : string) : string :=
  "
        You are a highly professional, senior technical recruiter and hiring manager. 
        Your objective is to conduct a NATURAL, FACE-TO-FACE, and ENGAGING mock interview.

        " +:+ quantity_instruction +:+ "
        " +:+ difficulty_instruction +:+ "

        CANDIDATE DATA:
        Resume Content:
        ---
        " +:+ resume_text +:+ "
        ---

        " +:+ job_desc_section +:+ "

        INTERVIEWER PERSONA (CRITICAL):
        - **Sound Human**: Speak directly to the candidate as if you are in a room together.
        - **No Meta-Commentary**: NEVER start a question with phrases like " +:+ dq +:+ "The job description mentions" +:+ dq +:+ ", " +:+ dq +:+ "Based on your resume" +:+ dq +:+ ", " +:+ dq +:+ "Since you used Python" +:+ dq +:+ ", or " +:+ dq +:+ "According to the documentation" +:+ dq +:+ ". Avoid referencing the JD or Resume explicitly in the question text.
        - **Conversational Tone**: Use natural transitions. Don't be robotic.
        - **Professional Curiosity**: Ask follow-up style questions that test depth.

        FEW-SHOT EXAMPLES (HOW TO PHRASE QUESTIONS):
        - ❌ BAD (Robotic): " +:+ dq +:+ "Based on your resume, you used React. What are hooks?" +:+ dq +:+ "
        - ✅ GOOD (Human): " +:+ dq +:+ "I noticed you worked on a few React projects. When you were building out the user interface, how did you decide when to use a custom hook versus a standard lifecycle method?" +:+ dq +:+ "
        - ❌ BAD (Robotic): " +:+ dq +:+ "The job description emphasizes basic Python. Do you know list comprehensions?" +:+ dq +:+ "
        - ✅ GOOD (Human): " +:+ dq +:+ "For this role, we do a lot of data processing in Python. Could you talk me through a time you had to optimize a piece of logic—maybe using something like list comprehensions—to handle a larger dataset?" +:+ dq +:+ "

        STRICT SEQUENCE OF QUESTIONS (IMMUTABLE):
        Your output JSON MUST contain questions in exactly this logical order:
        1. **MANDATORY FIRST QUESTION (ID: 1)**: You MUST start with a warm, professional introduction and then ask: " +:+ dq +:+ "To get us started, could you walk me through your background and what specifically interested you about this " +:+ role +:+ " position?" +:+ dq +:+ " or a variation of " +:+ dq +:+ "Tell me about yourself." +:+ dq +:+ " This is NOT optional.
        2. **Role Fit (ID: 2)**: A natural follow-up on their motivation for the industry or current career direction.
        3. **Experience Deep-Dive (30% of total)**: Conversational deep-dives into their resume projects.
        4. **Skill Alignment (30% of total)**: Natural questions about role requirements (JD-based).
        5. **Behavioral (20% of total)**: Teamwork/Conflict scenarios.
        6. **The Signature Closing (Last ID)**: Professional wrap-up (e.g., " +:+ dq +:+ "Why hire you?" +:+ dq +:+ ").

        REINFORCED PHRASING RULES:
        - NEVER use the words " +:+ dq +:+ "resume" +:+ dq +:+ ", " +:+ dq +:+ "job description" +:+ dq +:+ ", " +:+ dq +:+ "JD" +:+ dq +:+ ", " +:+ dq +:+ "listing" +:+ dq +:+ ", or " +:+ dq +:+ "document" +:+ dq +:+ " in your questions.
        - Act as if you are speaking to the candidate in a real-time Zoom or in-person interview.
        - Use phrases like " +:+ dq +:+ "I noticed..." +:+ dq +:+ ", " +:+ dq +:+ "You mentioned..." +:+ dq +:+ ", " +:+ dq +:+ "I'm curious about..." +:+ dq +:+ ", " +:+ dq +:+ "Walk me through..." +:+ dq +:+ ".

        STRICT RULES:
        - **No Labels**: Do not include category names (like " +:+ dq +:+ "Behavioral:" +:+ dq +:+ ") inside the question text.
        - **Context Field**: Short internal reason (e.g., " +:+ dq +:+ "[Resume] Deep-dive on React architecture" +:+ dq +:+ ").

        RESPONSE FORMAT:
        Return a JSON object with a single key " +:+ dq +:+ "questions" +:+ dq +:+ " containing:
        - id: Unique int (MUST correspond to the sequence order)
        - text: The natural, human-sounding question text.
        - type: " +:+ dq +:+ "technical" +:+ dq +:+ ", " +:+ dq +:+ "behavioral" +:+ dq +:+ ", or " +:+ dq +:+ "coding" +:+ dq +:+ "
        - difficulty: " +:+ dq +:+ "easy" +:+ dq +:+ ", " +:+ dq +:+ "medium" +:+ dq +:+ ", or " +:+ dq +:+ "hard" +:+ dq +:+ "
        - context: Concise internal reasoning.
        - initial_code: (Optional) For coding questions.
        Return ONLY raw JSON.
        ".

(** [questions.sort(key=lambda x: x.get("id", 0))]: a stable sort. *)
Fixpoint insert_by_id (h : Heap) (q : loc) (sorted : list loc) : list loc :=
  match sorted with
  | [] => [q]
  | q' :: rest =>
      if (q_id (deref h q) <=? q_id (deref h q'))%Z then q :: q' :: rest
      else q' :: insert_by_id h q rest
  end.

Definition sort_by_id (h : Heap) (questions : list loc) : list loc :=
  foldr (insert_by_id h) [] questions.

Definition generate_questions {W : Type} (svc : GenAI W) (libs : PyLibs)
  (env : Env) (resume_text role : string) (num_questions : Z)
  (difficulty job_description : string) (auto_select_count : bool) (w : W)
  : M (list loc) :=
  let difficulty_instruction := "Target difficulty: " +:+ difficulty +:+ "." in
  let quantity_instruction :=
    if auto_select_count
    then "Select an optimal number of questions (5-12) based on the resume depth."
    else "Generate exactly " +:+ of_Z num_questions +:+ " questions." in
  let job_desc_section :=
    if negb (is_empty (strip job_description))
    then "--- JOB DESCRIPTION ---" +:+ String nl_char EmptyString
         +:+ str_take 2000 job_description +:+ String nl_char EmptyString
         +:+ "---"
    else "None provided." in
  let prompt :=
    generate_prompt quantity_instruction difficulty_instruction resume_text
                    job_desc_section role in
  let decoded :=
    match fst (run_genai_with_rotation svc env prompt true None None w) with
    | Ok response_text => decode_questions libs response_text
    | Raise e => Raise e
    end in
  match decoded with
  | Ok data =>
      do questions <- new_dicts data;
      do questions <- gets (fun h => sort_by_id h questions);
      _enforce_interview_structure questions role num_questions
  | Raise e => get_fallback_questions resume_text role num_questions
  end.

(* ===================================================================== *)
(** ** evaluator.py *)
(* ===================================================================== *)

Definition is_skipped_answer (answer : string) : bool :=
  is_empty answer || String.eqb (strip answer) EmptyString
  || contains "no answer provided" (lower answer).

Definition evaluate_prompt (question answer : string) (is_skipped : bool) : string :=
  "
        You are an expert technical interviewer evaluating a candidate's response.
        
        QUESTION: " +:+ dq +:+ question +:+ dq +:+ "
        CANDIDATE ANSWER: " +:+ dq +:+ (if is_skipped then "NO ANSWER PROVIDED. CANDIDATE SKIPPED." else answer) +:+ dq +:+ "
        
        OBJECTIVES:
        1. Score the answer from 0-10. " +:+ (if is_skipped then "(MUST BE 0 since candidate skipped)" else "(Be fair and critical)") +:+ "
        2. Provide helpful feedback.
        3. **CRITICAL**: Provide the PERECT 'Ideal Answer'. " +:+ (if is_skipped then "Since the candidate skipped, create a 10/10 answer." else "Show what a 10/10 answer looks like.") +:+ "
        
        **CONSTRAINT: KEEP THE IDEAL ANSWER VERY SHORT AND CONCISE (Max 2-3 sentences). Be direct.**
        
        RETURN JSON ONLY:
        {
            " +:+ dq +:+ "score" +:+ dq +:+ ": int,
            " +:+ dq +:+ "feedback" +:+ dq +:+ ": " +:+ dq +:+ "string" +:+ dq +:+ ",
            " +:+ dq +:+ "missing_keywords" +:+ dq +:+ ": [" +:+ dq +:+ "list" +:+ dq +:+ ", " +:+ dq +:+ "of" +:+ dq +:+ ", " +:+ dq +:+ "key" +:+ dq +:+ ", " +:+ dq +:+ "terms" +:+ dq +:+ ", " +:+ dq +:+ "missed" +:+ dq +:+ "],
            " +:+ dq +:+ "improvements" +:+ dq +:+ ": " +:+ dq +:+ "string (what to do better)" +:+ dq +:+ ",
            " +:+ dq +:+ "ideal_answer" +:+ dq +:+ ": " +:+ dq +:+ "string (Max 2-3 sentences, direct and simple)" +:+ dq +:+ "
        }
        ".

Definition _fallback_evaluate (question answer : string)
  (context_keywords : list string) (error_msg : string) : EvaluationResult :=
  let score := 0%Z in
  if contains "429" error_msg then
    mkEvaluationResult score
      "⚠️ API Quota Limit Reached. AI evaluation is temporarily paused."
      []
      "Please wait a few minutes or add more API keys to the .env file."
      "Generative AI is currently taking a short break to recharge usage limits. Please check back in a bit!"
  else
    mkEvaluationResult score
      ("Evaluation service unavailable. Error: " +:+ str_take 100 error_msg
       +:+ "...")
      []
      "Check API Connection."
      "No ideal answer provided.".

(** The cleanup of the response text before it is decoded. *)
Definition strip_code_fence (response_text : string) : string :=
  let text := strip response_text in
  let text := if startswith text "```json" then str_drop 7 text else text in
  let text := if startswith text "```" then str_drop 3 text else text in
  let text := if endswith text "```" then str_drop_last 3 text else text in
  strip text.

(** The body of the [try] block of [evaluate]. *)
Definition evaluate_try {W : Type} (svc : GenAI W) (libs : PyLibs) (env : Env)
  (prompt : string) (w : W) : result EvaluationResult :=
  match fst (run_genai_with_rotation svc env prompt true None None w) with
  | Raise e => Raise e
  | Ok response_text =>
      let text := strip_code_fence response_text in
      match json_loads libs text with
      | Raise e => Raise e
      | Ok (JObj data) =>
          make_EvaluationResult libs
            (fields_get data "score" (JInt 0))
            (fields_get data "feedback" (JStr "No feedback provided."))
            (fields_get data "missing_keywords" (JArr []))
            (fields_get data "improvements"
                        (JStr "No specific improvements suggested."))
            (fields_get data "ideal_answer" (JStr "No ideal answer provided."))
      | Ok data => Raise (attribute_error data "get")
      end
  end.

Definition evaluate {W : Type} (svc : GenAI W) (libs : PyLibs) (env : Env)
  (question answer : string) (context_keywords : list string) (w : W)
  : EvaluationResult :=
  let is_skipped := is_skipped_answer answer in
  let prompt := evaluate_prompt question answer is_skipped in
  match evaluate_try svc libs env prompt w with
  | Ok r => r
  | Raise e => _fallback_evaluate question answer context_keywords (py_str e)
  end.

(* ===================================================================== *)
(** ** resume_parser.py *)
(* ===================================================================== *)

(** The document readers: [PdfReader(filepath).pages] with the outcome of
    [extract_text()] on each page, the paragraphs of [Document(filepath)],
    and [open(filepath).read()]. *)
Record FileSystem := mkFileSystem {
  pdf_pages : string -> result (list (result string));
  docx_paragraphs : string -> result (list string);
  read_text_file : string -> result string
}.

Definition nl : string := String nl_char EmptyString.

Definition extract_text_from_pdf (fs : FileSystem) (filepath : string)
  : string :=
  match pdf_pages fs filepath with
  | Ok pages =>
      fold_left
        (fun text page =>
           match page with
           | Ok page_text => text +:+ (page_text +:+ nl)
           | Raise _ => text
           end)
        pages EmptyString
  | Raise _ => EmptyString
  end.

Definition extract_text_from_docx (fs : FileSystem) (filepath : string)
  : result string :=
  match docx_paragraphs fs filepath with
  | Ok paragraphs => Ok (join nl paragraphs)
  | Raise e => Raise e
  end.

Definition tech_keywords : list string :=
  [ "python"; "javascript"; "react"; "next.js"; "node.js"; "typescript";
    "java"; "c++"; "aws"; "azure"; "docker"; "kubernetes"; "sql"; "mongodb";
    "postgresql"; "git"; "html"; "css"; "tailwind"; "fastapi"; "django";
    "flask"; "spring"; "agile"; "scrum"; "machine learning"; "data science";
    "devops"; "ci/cd"; "rest api"; "graphql" ].

Definition head_char (s : string) : option ascii :=
  match s with
  | String c _ => Some c
  | EmptyString => None
  end.

Fixpoint last_char (s : string) : option ascii :=
  match s with
  | EmptyString => None
  | String c EmptyString => Some c
  | String _ s' => last_char s'
  end.

Definition word_opt (c : option ascii) : bool :=
  match c with
  | Some a => is_word a
  | None => false
  end.

(** [\b]: exactly one of the two neighbours is a word character. *)
Definition at_boundary (prev next : option ascii) : bool :=
  xorb (word_opt prev) (word_opt next).

(** [re.search(rf"\b{re.escape(kw)}\b", text, re.IGNORECASE)] finds a match;
    [prev] is the character before [s] in the text. *)
Fixpoint search_word_from (kw : string) (prev : option ascii) (s : string)
  : bool :=
  (startswith (lower s) (lower kw)
   && at_boundary prev (head_char s)
   && at_boundary (last_char (str_take (String.length kw) s))
                  (head_char (str_drop (String.length kw) s)))
  || match s with
     | EmptyString => false
     | String c s' => search_word_from kw (Some c) s'
     end.

Definition search_word (kw text : string) : bool :=
  search_word_from kw None text.

(** The dictionary built by the keyword fallback. *)
Record KeywordData := mkKeywordData {
  kd_raw_text : string;
  kd_skills : list string;
  kd_experience : list string;
  kd_projects : list string
}.

Definition kd_dict (d : KeywordData) : json :=
  JObj [ ("raw_text", JStr (kd_raw_text d));
         ("skills", JStrs (kd_skills d));
         ("experience", JStrs (kd_experience d));
         ("projects", JStrs (kd_projects d)) ].

Definition _fallback_keyword_extraction (text : string) : KeywordData :=
  let found_skills :=
    map title (filter (fun kw => search_word kw text) tech_keywords) in
  let lines := split nl_char text in
  let found_exp :=
    take 10 (map strip
               (filter (fun line => 50 <? String.length (strip line)) lines)) in
  mkKeywordData text found_skills found_exp [].

Definition multimodal_prompt : string :=
  "
        Extract all text from this resume AND organize it into a structured JSON object.
        JSON fields:
        - " +:+ dq +:+ "raw_text" +:+ dq +:+ ": Every word found on the document.
        - " +:+ dq +:+ "skills" +:+ dq +:+ ": A list of technical and soft skills.
        - " +:+ dq +:+ "experience" +:+ dq +:+ ": A list of professional roles and achievements.
        - " +:+ dq +:+ "projects" +:+ dq +:+ ": A list of project names and descriptions.

        Return ONLY a JSON object.
        ".
Definition structure_prompt (raw_text : string) : string :=
  "
    Analyze the following resume text and extract the specific sections.
    Organize them into a JSON object with these keys:
    - " +:+ dq +:+ "skills" +:+ dq +:+ ": A list of strings.
    - " +:+ dq +:+ "experience" +:+ dq +:+ ": A list of strings.
    - " +:+ dq +:+ "projects" +:+ dq +:+ ": A list of strings.

    RESUME TEXT:
    ---
    " +:+ raw_text +:+ "
    ---

    Return ONLY a JSON object.
    ".

(** The [except] dictionary of the multimodal scan. *)
Definition ai_error_dict (err_msg : string) : json :=
  JObj [ ("raw_text", JStr ("AI_ERROR: " +:+ err_msg));
         ("skills", JArr []); ("experience", JArr []); ("projects", JArr []) ].

Section ResumeParser.
Context {W : Type} (svc : GenAI W) (libs : PyLibs) (env : Env)
        (fs : FileSystem).

Definition _get_model_response (prompt : string)
  (multimodal_filepath : option string) (is_json : bool) (w : W)
  : result string :=
  fst (run_genai_with_rotation svc env prompt is_json multimodal_filepath
                               None w).

(** The body of the [try] block of the multimodal scan. *)
Definition multimodal_try (filepath : string) (w : W) : result json :=
  match _get_model_response multimodal_prompt (Some filepath) true w with
  | Ok response_text => json_loads libs response_text
  | Raise e => Raise e
  end.

Definition parse_scanned_resume_multimodal (filepath : string) (w : W)
  : json :=
  match multimodal_try filepath w with
  | Ok data => data
  | Raise e =>
      let err_msg := py_str e in
      let text := extract_text_from_pdf fs filepath in
      if contains "429" err_msg && (10 <? String.length text)
      then kd_dict (_fallback_keyword_extraction text)
      else ai_error_dict err_msg
  end.

(** [str(v)]; on a string it is the string itself. *)
Definition py_str_json (v : json) : string :=
  match v with
  | JStr s => s
  | _ => str_of_json libs v
  end.

(** [a or b] *)
Definition py_or (a b : json) : json := if truthy a then a else b.

Definition clean_item (item : json) : json :=
  match item with
  | JStr s => JStr s
  | JObj fields =>
      let name :=
        py_or (fields_get fields "name" JNull)
          (py_or (fields_get fields "title" JNull)
             (py_or (fields_get fields "role" JNull)
                    (fields_get fields "skill" JNull))) in
      JStr (if truthy name then py_str_json name else json_dumps libs item)
  | _ => JStr (str_of_json libs item)
  end.

(** One round of the [for key in ["skills", "experience", "projects"]]
    loop. *)
Definition clean_key (data : list (string * json)) (key : string)
  : list (string * json) :=
  let raw_items := fields_get data key (JArr []) in
  let raw_items :=
    match raw_items with
    | JArr items => items
    | other => if truthy other then [other] else []
    end in
  fields_set data key (JArr (map clean_item raw_items)).

Definition empty_structure : json :=
  JObj [ ("skills", JArr []); ("experience", JArr []); ("projects", JArr []) ].

(** Every exception is caught inside: the result is always [Ok]. *)
Definition structure_resume_data (raw_text : string) (w : W) : result json :=
  let attempt :=
    match _get_model_response (structure_prompt raw_text) None true w with
    | Ok response_text => json_loads libs response_text
    | Raise e => Raise e
    end in
  match attempt with
  | Ok (JObj data) =>
      Ok (JObj (fold_left clean_key ["skills"; "experience"; "projects"] data))
  | Ok _ => Ok empty_structure
  | Raise _ => Ok empty_structure
  end.

(** [os.path.basename] and the extension of [os.path.splitext]. *)
Fixpoint after_last (c : ascii) (s : string) : option string :=
  match s with
  | EmptyString => None
  | String a s' =>
      match after_last c s' with
      | Some r => Some r
      | None => if Ascii.eqb a c then Some s' else None
      end
  end.

Definition basename (p : string) : string := default p (after_last "/" p).

Fixpoint ext_from (seen_other : bool) (s : string) : string :=
  match s with
  | EmptyString => EmptyString
  | String c s' =>
      let later := ext_from (seen_other || negb (Ascii.eqb c ".")) s' in
      if negb (is_empty later) then later
      else if Ascii.eqb c "." && seen_other then s
      else EmptyString
  end.

Definition splitext_ext (p : string) : string := ext_from false (basename p).

(** [ResumeData(...)] from the keyword fallback. *)
Definition keyword_resume (filepath ext : string) (d : KeywordData)
  : result ResumeData :=
  make_ResumeData libs (JStr (kd_raw_text d)) (JStr (basename filepath))
                  (JStr ext) (JStrs (kd_skills d)) (JStrs (kd_experience d))
                  (JStrs (kd_projects d)).

Definition placeholder_resume (filepath ext : string) : result ResumeData :=
  make_ResumeData libs
    (JStr "Resume uploaded (image-based, quota exhausted)")
    (JStr (basename filepath)) (JStr ext)
    (JStrs ["General Software Development"])
    (JStrs ["Professional Experience"])
    (JStrs []).

(** [ResumeData(text=..., skills=data.get("skills", []), ...)] *)
Definition resume_of_dict (filepath ext extracted_text : string)
  (data : list (string * json)) : result ResumeData :=
  make_ResumeData libs (JStr extracted_text) (JStr (basename filepath))
                  (JStr ext)
                  (fields_get data "skills" (JArr []))
                  (fields_get data "experience" (JArr []))
                  (fields_get data "projects" (JArr [])).

(** The branch taken when the native text is shorter than 50 characters. *)
Definition scanned_branch (filepath ext : string) (w : W)
  : result ResumeData :=
  match parse_scanned_resume_multimodal filepath w with
  | JObj data =>
      match fields_get data "raw_text" (JStr EmptyString) with
      | JStr raw_text =>
          let extracted_text := strip raw_text in
          if startswith extracted_text "AI_ERROR:" then
            let error_msg :=
              strip (replace extracted_text "AI_ERROR:" EmptyString) in
            if contains "429" error_msg then
              let text := extract_text_from_pdf fs filepath in
              if 0 <? String.length text
              then keyword_resume filepath ext
                                  (_fallback_keyword_extraction text)
              else placeholder_resume filepath ext
            else Raise (plain_error ("AI Scan failed: " +:+ error_msg))
          else resume_of_dict filepath ext extracted_text data
      | other => Raise (attribute_error other "strip")
      end
  | other => Raise (attribute_error other "get")
  end.

(** The [if ext == ".pdf": ... else: raise ValueError(...)] chain. *)
Definition native_text (ext filepath : string) : result string :=
  if String.eqb ext ".pdf" then Ok (extract_text_from_pdf fs filepath)
  else if String.eqb ext ".docx" then extract_text_from_docx fs filepath
  else if String.eqb ext ".txt" then read_text_file fs filepath
  else Raise (plain_error ("Unsupported file format: " +:+ ext)).

Definition parse_resume (filepath : string) (w : W) : result ResumeData :=
  let ext := lower (splitext_ext filepath) in
  match native_text ext filepath with
  | Raise e => Raise e
  | Ok text =>
      let extracted_text := strip text in
      if String.length extracted_text <? 50 then
        scanned_branch filepath ext w
      else
        let structured_data :=
          match structure_resume_data extracted_text w with
          | Ok d => Ok d
          | Raise e =>
              if contains "429" (py_str e)
              then Ok (kd_dict (_fallback_keyword_extraction extracted_text))
              else Raise e
          end in
        match structured_data with
        | Ok (JObj data) => resume_of_dict filepath ext extracted_text data
        | Ok other => Raise (attribute_error other "get")
        | Raise e => Raise e
        end
  end.

End ResumeParser.

(* ===================================================================== *)
(** ** Vocabulary of the statements *)
(* ===================================================================== *)

(** The integers [1..n]. *)
Definition one_to (n : nat) : list Z := seqZ 1 (Z.of_nat n).

Definition ids (qs : list Question) : list Z := map q_id qs.

(** Two dictionaries that agree on every key but [id]. *)
Definition same_content (a b : Question) : Prop := set_id 0 a = set_id 0 b.

(** [for idx, q in enumerate(qs, start=idx): q["id"] = idx], on values. *)
Fixpoint renumber (idx : Z) (qs : list Question) : list Question :=
  match qs with
  | [] => []
  | q :: rest => set_id idx q :: renumber (idx + 1) rest
  end.

(** Every character of [s] satisfies [p]. *)
Fixpoint all_chars (p : ascii -> bool) (s : string) : bool :=
  match s with
  | EmptyString => true
  | String c s' => p c && all_chars p s'
  end.

(** [c in s] for one character *)
Fixpoint char_in (c : ascii) (s : string) : bool :=
  match s with
  | EmptyString => false
  | String a s' => Ascii.eqb c a || char_in c s'
  end.

(** The profile returned when nothing at all could be read. *)
Definition placeholder_profile (filename ext : string) : ResumeData :=
  mkResumeData "Resume uploaded (image-based, quota exhausted)" filename ext
               ["General Software Development"] ["Professional Experience"] [].

(** The list an optional reference stands for. *)
Definition olist (o : option loc) : list loc :=
  match o with
  | Some l => [l]
  | None => []
  end.

(** The middle pool [get_fallback_questions] builds for a resume text. *)
Definition middle_pool_of (resume_text : string) : list loc :=
  let candidate_questions :=
    matched_candidates QUESTION_BANK (lower resume_text) in
  let candidate_questions :=
    if bool_decide (candidate_questions = [])
    then candidate_questions ++ dict_get QUESTION_BANK "python"
    else candidate_questions in
  (candidate_questions ++ dict_get QUESTION_BANK "general_technical")
  ++ dict_get QUESTION_BANK "general_behavioral".

(** The entry cyclic filling produces at position [j] from a source pool:
    the source entry at [j mod length pool], tagged once when [j] is a
    wrap-around position. *)
Definition cyclic_entry (suffix : string) (pool : list Question) (j : nat)
  : Question :=
  let q := pool !!! (j mod length pool) in
  if length pool <=? j then append_context suffix q else q.

(** The script [get_fallback_questions] returns, as values, from the values
    of its middle pool. *)
Definition fallback_script (pool : list Question) (role : string)
  (num_questions : Z) : list Question :=
  renumber 1
    ([default_intro role]
     ++ map (cyclic_entry " (Follow-up / Alternate angle)" pool)
            (seq 0 (Z.to_nat (num_questions - 2)))
     ++ (if (1 <? num_questions)%Z then [default_closing 9999] else [])).

(** Any number of calls, one after the other. *)
Fixpoint fallback_calls (calls : list (string * string * Z)) (h : Heap)
  : option Heap :=
  match calls with
  | [] => Some h
  | (resume_text, role, num_questions) :: rest =>
      match get_fallback_questions resume_text role num_questions h with
      | Some (_, h') => fallback_calls rest h'
      | None => None
      end
  end.

(** The structure test of the enforcer: the first question is an intro and,
    with more than two questions, the last one is a closing. *)
Definition already_valid (h : Heap) (questions : list loc) : bool :=
  is_intro_question (deref h (questions !!! 0))
  && ((length questions <=? 2)
      || is_closing_question (deref h (questions !!! (length questions - 1)))).

(** The script the specification promises for a requested count [n]:
    exactly [n] entries, ids [1..n], an intro first and, when [n > 1], a
    closing last. *)
Definition script_as_specified (h : Heap) (locs : list loc) (n : Z) : Prop :=
  length locs = Z.to_nat n
  /\ ids (values h locs) = one_to (Z.to_nat n)
  /\ (exists l, locs !! 0 = Some l /\ is_intro_question (deref h l) = true)
  /\ ((1 < n)%Z ->
      exists l, locs !! (length locs - 1) = Some l
                /\ is_closing_question (deref h l) = true).

(** One generation attempt: the position of the credential, the position
    and the name of the model, and the outcome. *)
Record Attempt := mkAttempt {
  at_key : nat;
  at_model : nat;
  at_name : string;
  at_outcome : result string
}.

(** The generation attempts recorded in a log, in order. *)
Fixpoint attempts (l : list Event) : list Attempt :=
  match l with
  | [] => []
  | EvGenerate k m name r :: rest => mkAttempt k m name r :: attempts rest
  | _ :: rest => attempts rest
  end.

(** An attempt that failed with an error the rotation treats as Quota. *)
Definition quota_failure (r : result string) : Prop :=
  match r with
  | Raise e => classify_error (py_str e) = Quota
  | Ok _ => False
  end.

(** How an earlier attempt [a] and a later attempt [b] of one call relate:
    [b] is on a later credential, or on the same credential with a later
    model, and then only if [a] was not a Quota failure. *)
Definition precedes (a b : Attempt) : Prop :=
  at_key a < at_key b
  \/ (at_key a = at_key b /\ at_model a < at_model b
      /\ ~ quota_failure (at_outcome a)).

(* ===================================================================== *)
(** ** The runs of the rotation, as a relation on the log *)
(* ===================================================================== *)

(** The throttle in front of the attempt at positions [(k, m)]. *)
Definition throttle (k m : nat) : list Event :=
  if (0 <? k) || (0 <? m) then [EvSleep] else [].

(** The release of the uploaded file of the credential at position [k]. *)
Definition released (k : nat) (file : option string) : list Event :=
  match file with
  | Some name => [EvDelete k name]
  | None => []
  end.

(** The successful upload that made [file]. *)
Definition uploaded (k : nat) (file : option string) : list Event :=
  match file with
  | Some name => [EvUpload k (Ok name)]
  | None => []
  end.

(** The runs of the model loop for the credential at position [k], from
    model position [mi]: the models still to try, the events of the run, its
    result, and [last_error] before and after. *)
Inductive models_run (k : nat) (file : option string)
  : nat -> list string -> list Event -> option string
    -> option PyError -> option PyError -> Prop :=
| run_exhausted mi le :
    models_run k file mi [] [] None le le
| run_answered mi name rest text le :
    text <> EmptyString ->
    models_run k file mi (name :: rest)
      (throttle k mi ++ EvGenerate k mi name (Ok text) :: released k file)
      (Some text) le le
| run_no_text mi name rest ext res le le' :
    models_run k file (S mi) rest ext res le le' ->
    models_run k file mi (name :: rest)
      (throttle k mi ++ EvGenerate k mi name (Ok EmptyString) :: ext)
      res le le'
| run_quota mi name rest e le :
    classify_error (py_str e) = Quota ->
    models_run k file mi (name :: rest)
      (throttle k mi ++ [EvGenerate k mi name (Raise e)])
      None le (Some e)
| run_failed mi name rest e ext res le le' :
    classify_error (py_str e) <> Quota ->
    models_run k file (S mi) rest ext res (Some e) le' ->
    models_run k file mi (name :: rest)
      (throttle k mi ++ EvGenerate k mi name (Raise e) :: ext)
      res le le'.

(** The runs of the key loop from credential position [ki]: the credentials
    still to try, the events of the run, its result, and [last_error] at
    the start. *)
Inductive keys_run (path : option string) (models : list string)
  : nat -> list string -> list Event -> result string
    -> option PyError -> Prop :=
| keys_exhausted ki le :
    keys_run path models ki [] []
      (Raise (default (plain_error "All API keys and models failed.") le)) le
| key_rejected ki key rest ext res le :
    keys_run path models (S ki) rest ext res le ->
    keys_run path models ki (key :: rest) ext res le
| key_upload_quota ki key rest e ext res le :
    falsy_str path = false ->
    contains "429" (py_str e) = true ->
    keys_run path models (S ki) rest ext res le ->
    keys_run path models ki (key :: rest)
      (EvUpload ki (Raise e) :: ext) res le
| key_upload_failed ki key rest e ext res le :
    falsy_str path = false ->
    contains "429" (py_str e) = false ->
    keys_run path models (S ki) rest ext res (Some e) ->
    keys_run path models ki (key :: rest)
      (EvUpload ki (Raise e) :: ext) res le
| key_answered ki key rest file ext text le le' :
    falsy_str path = bool_decide (file = None) ->
    models_run ki file 0 models ext (Some text) le le' ->
    keys_run path models ki (key :: rest)
      (uploaded ki file ++ ext) (Ok text) le
| key_passed ki key rest file ext ext' res le le' :
    falsy_str path = bool_decide (file = None) ->
    models_run ki file 0 models ext None le le' ->
    keys_run path models (S ki) rest ext' res le' ->
    keys_run path models ki (key :: rest)
      (uploaded ki file ++ ext ++ released ki file ++ ext') res le.

(** Counting the events of one kind. *)
Definition count_events (p : Event -> bool) (l : list Event) : nat :=
  length (List.filter p l).

Definition is_sleep (ev : Event) : bool :=
  match ev with EvSleep => true | _ => false end.

Definition is_upload (ev : Event) : bool :=
  match ev with EvUpload _ _ => true | _ => false end.

(** An upload made with the credential at position [k], whatever came of
    it. *)
Definition is_upload_at (k : nat) (ev : Event) : bool :=
  match ev with EvUpload k' _ => k' =? k | _ => false end.

(** What the service is asked, as the service sees it. *)
Inductive Call :=
| CallUpload (r : result string)
| CallSleep
| CallGenerate (model_name : string) (r : result string)
| CallDelete (name : string).

(** The service [svc] with a record of what it is asked kept next to its
    world.  Configuring a credential leaves no entry. *)
Definition recording {W : Type} (svc : GenAI W) : GenAI (W * list Call) :=
  {| genai_configure :=
       fun api_key wc =>
         let (r, w) := genai_configure svc api_key wc.1 in (r, (w, wc.2));
     genai_upload_file :=
       fun path wc =>
         let (r, w) := genai_upload_file svc path wc.1 in
         (r, (w, wc.2 ++ [CallUpload r]));
     genai_generate :=
       fun model_name is_json file prompt wc =>
         let (r, w) :=
           genai_generate svc model_name is_json file prompt wc.1 in
         (r, (w, wc.2 ++ [CallGenerate model_name r]));
     genai_delete_file :=
       fun name wc =>
         (genai_delete_file svc name wc.1, wc.2 ++ [CallDelete name]);
     time_sleep := fun wc => (time_sleep svc wc.1, wc.2 ++ [CallSleep]) |}.

(** The call an entry of the log stands for. *)
Definition call_of (ev : Event) : Call :=
  match ev with
  | EvUpload _ r => CallUpload r
  | EvSleep => CallSleep
  | EvGenerate _ _ model_name r => CallGenerate model_name r
  | EvDelete _ name => CallDelete name
  end.

(** The prompt [generate_questions] sends: the template filled with the
    quantity and difficulty instructions, the resume text, the job
    description section and the role. *)
Definition questions_prompt (resume_text role : string) (num_questions : Z)
  (difficulty job_description : string) (auto_select_count : bool) : string :=
  let difficulty_instruction := "Target difficulty: " +:+ difficulty +:+ "." in
  let quantity_instruction :=
    if auto_select_count
    then "Select an optimal number of questions (5-12) based on the resume depth."
    else "Generate exactly " +:+ of_Z num_questions +:+ " questions." in
  let job_desc_section :=
    if negb (is_empty (strip job_description))
    then "--- JOB DESCRIPTION ---" +:+ String nl_char EmptyString
         +:+ str_take 2000 job_description +:+ String nl_char EmptyString
         +:+ "---"
    else "None provided." in
  generate_prompt quantity_instruction difficulty_instruction resume_text
                  job_desc_section role.

(** A generation attempt with the credential at position [k] and the model
    at position [m]. *)
Definition is_attempt_at (k m : nat) (ev : Event) : bool :=
  match ev with
  | EvGenerate k' m' _ _ => (k' =? k) && (m' =? m)
  | _ => false
  end.

(** The file a credential holds on the service. *)
Definition held_by (k : nat) (file : option string) : option (nat * string) :=
  match file with
  | Some name => Some (k, name)
  | None => None
  end.

(** The book of the files held on the service while the events of a log go
    by, from the file held at the start to the file held at the end.  A
    successful upload is in order only when no file is held, and it makes
    the uploaded file, with its credential, the file held; a deletion is in
    order only when it names the file held and its credential, and leaves
    no file held.  [None] is a log out of order. *)
Fixpoint ledger (l : list Event) (held : option (nat * string))
  : option (option (nat * string)) :=
  match l with
  | [] => Some held
  | EvUpload k (Ok name) :: rest =>
      match held with
      | None => ledger rest (Some (k, name))
      | Some _ => None
      end
  | EvDelete k name :: rest =>
      if bool_decide (held = Some (k, name)) then ledger rest None else None
  | _ :: rest => ledger rest held
  end.

(** An attempt other than the very first one a call can make. *)
Definition throttled (a : Attempt) : bool :=
  (0 <? at_key a) || (0 <? at_model a).

(** An attempt that ended the call: a non-empty text. *)
Definition answered (r : result string) : Prop :=
  match r with
  | Ok text => text <> EmptyString
  | Raise _ => False
  end.

(** What [last_error] holds after the events [l]: the error of the last
    failed attempt or of the last upload that failed for a reason other
    than Quota. *)
Definition record_error (le : option PyError) (ev : Event)
  : option PyError :=
  match ev with
  | EvGenerate _ _ _ (Raise e) => Some e
  | EvUpload _ (Raise e) =>
      if contains "429" (py_str e) then le else Some e
  | _ => le
  end.

Definition last_recorded (l : list Event) (le : option PyError)
  : option PyError :=
  fold_left record_error l le.

(** How the attempts of a run and its result relate: an answer is the
    outcome of the last attempt, and no other attempt has one. *)
Definition ends_with_answer (att : list Attempt) (text : string) : Prop :=
  text <> EmptyString
  /\ exists before a,
       att = before ++ [a] /\ at_outcome a = Ok text
       /\ Forall (fun b => ~ answered (at_outcome b)) before.

Definition no_answer (att : list Attempt) : Prop :=
  Forall (fun b => ~ answered (at_outcome b)) att.

(** A credential as [get_api_keys] returns it: not empty, no blank at either
    end, no comma. *)
Definition usable_key (k : string) : Prop :=
  k <> EmptyString /\ strip k = k /\ char_in "," k = false.

(** Ordered by id, as [questions.sort(key=lambda x: x.get("id", 0))] leaves
    a list. *)
Definition sorted_by_id (h : Heap) (qs : list loc) : Prop :=
  StronglySorted (fun a b => (q_id (deref h a) <= q_id (deref h b))%Z) qs.

(** The entries with a given id, in the order of the list. *)
Definition with_id (h : Heap) (v : Z) (qs : list loc) : list loc :=
  List.filter (fun l => (q_id (deref h l) =? v)%Z) qs.

(** A response wrapped in a Markdown code fence, with or without the
    language tag. *)
Definition fenced (tag body : string) : string :=
  "```" +:+ tag +:+ nl +:+ body +:+ nl +:+ "```".

(** A dictionary whose three list fields hold lists of strings. *)
Definition lists_of_strings (data : list (string * json)) : Prop :=
  Forall (fun key => exists xs, fields_get data key (JArr []) = JStrs xs)
         ["skills"; "experience"; "projects"].

(** The texts of the pages that could be read. *)
Fixpoint readable (pages : list (result string)) : list string :=
  match pages with
  | [] => []
  | Ok page_text :: rest => page_text :: readable rest
  | Raise _ :: rest => readable rest
  end.

(** Every text of a list followed by a line feed, one after the other. *)
Fixpoint lines_of (texts : list string) : string :=
  match texts with
  | [] => EmptyString
  | t :: rest => (t +:+ nl) +:+ lines_of rest
  end.

(** A question dictionary that fits the [Question] schema of the
    application: a text, one of the three types, one of the three
    difficulties, and the [initial_code] key. *)
Definition well_formed (q : Question) : bool :=
  negb (is_empty (q_text q))
  && str_elem (q_type q) ["technical"; "behavioral"; "coding"]
  && str_elem (q_difficulty q) ["easy"; "medium"; "hard"]
  && bool_decide (is_Some (q_initial_code q)).

(** A pool from which scripts without repeats can be drawn: at least nine
    entries, texts that differ from one another and from the closing text,
    none of which opens like the introduction, and no follow-up tag yet. *)
Definition fresh_pool (pool : list Question) : bool :=
  (9 <=? length pool)
  && bool_decide (NoDup (map q_text pool ++ [closing_text]))
  && forallb (fun t => negb (startswith t "To get us started"))
             (map q_text pool ++ [closing_text])
  && forallb (fun q => negb (contains "(Follow-up" (q_context q))) pool.


(* ===================================================================== *)
(** ** Sample inputs *)
(* ===================================================================== *)

Definition sample_intro : Question :=
  mkQuestion 7 "Tell me about yourself." "behavioral" "easy" "warm-up"
             (Some EmptyString).

Definition sample_plain (id : Z) (text : string) : Question :=
  mkQuestion id text "technical" "easy" "ctx" (Some EmptyString).

(** *** A decoder for the examples

    [json_decode] reads the JSON grammar (objects, arrays, strings with the
    simple escapes, integers, [true], [false], [null]); a number with a
    fraction or an exponent becomes a float: a zero is held as Python
    prints it, any other float as it is written, which is the text Python
    prints when the response writes it that way; the text of its errors is
    abbreviated. *)

Definition is_json_space (c : ascii) : bool :=
  let n := nat_of_ascii c in
  (n =? 32) || (n =? 10) || (n =? 13) || (n =? 9).

Fixpoint skip_ws (s : string) : string :=
  match s with
  | String c s' => if is_json_space c then skip_ws s' else s
  | EmptyString => EmptyString
  end.

(** The characters of a string literal after its opening quote, and the
    rest of the input after the closing quote. *)
Fixpoint decode_string (s : string) : option (string * string) :=
  match s with
  | EmptyString => None
  | String c s' =>
      if nat_of_ascii c =? 34 then Some (EmptyString, s')
      else if nat_of_ascii c =? 92 then
        match s' with
        | String e s'' =>
            let ch :=
              if Ascii.eqb e "n" then Some nl_char
              else if Ascii.eqb e "t" then Some (ascii_of_nat 9)
              else if Ascii.eqb e "r" then Some (ascii_of_nat 13)
              else if (nat_of_ascii e =? 34) || (nat_of_ascii e =? 92)
                      || (nat_of_ascii e =? 47) then Some e
              else None in
            match ch, decode_string s'' with
            | Some x, Some (body, rest) => Some (String x body, rest)
            | _, _ => None
            end
        | EmptyString => None
        end
      else
        match decode_string s' with
        | Some (body, rest) => Some (String c body, rest)
        | None => None
        end
  end.

Fixpoint take_while (p : ascii -> bool) (s : string) : string * string :=
  match s with
  | String c s' =>
      if p c then let (a, b) := take_while p s' in (String c a, b)
      else (EmptyString, s)
  | EmptyString => (EmptyString, EmptyString)
  end.

Fixpoint digits_value (acc : Z) (s : string) : Z :=
  match s with
  | String c s' => digits_value (10 * acc + Z.of_nat (nat_of_ascii c - 48)) s'
  | EmptyString => acc
  end.

Definition is_number_tail (c : ascii) : bool :=
  is_digit c || Ascii.eqb c "." || Ascii.eqb c "e" || Ascii.eqb c "E"
  || Ascii.eqb c "+" || Ascii.eqb c "-".

(** The text of a number denotes zero: no digit of its mantissa differs
    from 0. *)
Fixpoint mantissa_is_zero (s : string) : bool :=
  match s with
  | String c s' =>
      if Ascii.eqb c "e" || Ascii.eqb c "E" then true
      else (negb (is_digit c) || Ascii.eqb c "0") && mantissa_is_zero s'
  | EmptyString => true
  end.

(** A number: an optional sign and digits; with a fraction or an exponent
    it is a float, kept as text, and a zero as the text Python prints for
    it. *)
Definition decode_number (s : string) : option (json * string) :=
  let (neg, s1) :=
    match s with
    | String "-" s' => (true, s')
    | _ => (false, s)
    end in
  let (ds, rest) := take_while is_digit s1 in
  if is_empty ds then None
  else
    match rest with
    | String c _ =>
        if Ascii.eqb c "." || Ascii.eqb c "e" || Ascii.eqb c "E" then
          let (tail, rest') := take_while is_number_tail rest in
          let literal := ds +:+ tail in
          Some (JFloat ((if neg then "-" else EmptyString)
                        +:+ (if mantissa_is_zero literal then "0.0"
                             else literal)),
                rest')
        else Some (JInt (if neg then - digits_value 0 ds else digits_value 0 ds),
                   rest)
    | EmptyString =>
        Some (JInt (if neg then - digits_value 0 ds else digits_value 0 ds),
              rest)
    end.

(** The elements of an array after the first one was read. *)
Fixpoint decode_elements (fuel : nat)
  (decode_value : string -> option (json * string))
  (acc : list json) (s : string) : option (json * string) :=
  match fuel with
  | O => None
  | S fuel' =>
      match skip_ws s with
      | String "]" rest => Some (JArr acc, rest)
      | String "," rest =>
          match decode_value rest with
          | Some (v, rest') => decode_elements fuel' decode_value (acc ++ [v]) rest'
          | None => None
          end
      | _ => None
      end
  end.

Definition decode_member (decode_value : string -> option (json * string))
  (s : string) : option (string * json * string) :=
  match skip_ws s with
  | String c rest =>
      if nat_of_ascii c =? 34 then
        match decode_string rest with
        | Some (key, rest') =>
            match skip_ws rest' with
            | String ":" rest'' =>
                match decode_value rest'' with
                | Some (v, rest3) => Some (key, v, rest3)
                | None => None
                end
            | _ => None
            end
        | None => None
        end
      else None
  | EmptyString => None
  end.

(** The members of an object after the first one was read; a repeated key
    keeps its last value. *)
Fixpoint decode_members (fuel : nat)
  (decode_value : string -> option (json * string))
  (acc : list (string * json)) (s : string) : option (json * string) :=
  match fuel with
  | O => None
  | S fuel' =>
      match skip_ws s with
      | String "}" rest => Some (JObj acc, rest)
      | String "," rest =>
          match decode_member decode_value rest with
          | Some (key, v, rest') =>
              decode_members fuel' decode_value (fields_set acc key v) rest'
          | None => None
          end
      | _ => None
      end
  end.

Fixpoint decode_value (fuel : nat) (s : string) : option (json * string) :=
  match fuel with
  | O => None
  | S fuel' =>
      let s := skip_ws s in
      match s with
      | String "{" rest =>
          match skip_ws rest with
          | String "}" rest' => Some (JObj [], rest')
          | _ =>
              match decode_member (decode_value fuel') rest with
              | Some (key, v, rest') =>
                  decode_members fuel' (decode_value fuel') [(key, v)] rest'
              | None => None
              end
          end
      | String "[" rest =>
          match skip_ws rest with
          | String "]" rest' => Some (JArr [], rest')
          | _ =>
              match decode_value fuel' rest with
              | Some (v, rest') =>
                  decode_elements fuel' (decode_value fuel') [v] rest'
              | None => None
              end
          end
      | String c rest =>
          if nat_of_ascii c =? 34 then
            match decode_string rest with
            | Some (body, rest') => Some (JStr body, rest')
            | None => None
            end
          else if startswith s "true" then Some (JBool true, str_drop 4 s)
          else if startswith s "false" then Some (JBool false, str_drop 5 s)
          else if startswith s "null" then Some (JNull, str_drop 4 s)
          else decode_number s
      | EmptyString => None
      end
  end.

Definition json_decode (s : string) : result json :=
  match decode_value (S (String.length s)) s with
  | Some (v, rest) =>
      if is_empty (skip_ws rest) then Ok v
      else Raise (plain_error "Extra data")
  | None => Raise (plain_error "Expecting value")
  end.

(** *** Libraries for the examples: strict validation, no coercion. *)

Definition as_str (v : json) : option string :=
  match v with
  | JStr s => Some s
  | _ => None
  end.

Fixpoint as_strs_items (items : list json) : option (list string) :=
  match items with
  | [] => Some []
  | JStr s :: rest =>
      match as_strs_items rest with
      | Some ss => Some (s :: ss)
      | None => None
      end
  | _ :: _ => None
  end.

Definition as_strs (v : json) : option (list string) :=
  match v with
  | JArr items => as_strs_items items
  | _ => None
  end.

Definition validation_error : PyError :=
  plain_error "1 validation error".

Definition strict_EvaluationResult (s f ks i a : json)
  : result EvaluationResult :=
  match s, as_str f, as_strs ks, as_str i, as_str a with
  | JInt n, Some f', Some ks', Some i', Some a' =>
      Ok (mkEvaluationResult n f' ks' i' a')
  | _, _, _, _, _ => Raise validation_error
  end.

Definition strict_ResumeData (t f ft s e p : json) : result ResumeData :=
  match as_str t, as_str f, as_str ft, as_strs s, as_strs e, as_strs p with
  | Some t', Some f', Some ft', Some s', Some e', Some p' =>
      Ok (mkResumeData t' f' ft' s' e' p')
  | _, _, _, _, _, _ => Raise validation_error
  end.

Definition question_of_json (v : json) : option Question :=
  match v with
  | JObj fields =>
      match fields_get fields "id" (JInt 0),
            as_str (fields_get fields "text" JNull),
            as_str (fields_get fields "type" JNull),
            as_str (fields_get fields "difficulty" JNull),
            as_str (fields_get fields "context" JNull) with
      | JInt n, Some t, Some ty, Some d, Some c =>
          Some (mkQuestion n t ty d c
                           (as_str (fields_get fields "initial_code" JNull)))
      | _, _, _, _, _ => None
      end
  | _ => None
  end.

Fixpoint questions_of_items (items : list json) : option (list Question) :=
  match items with
  | [] => Some []
  | v :: rest =>
      match question_of_json v, questions_of_items rest with
      | Some q, Some qs => Some (q :: qs)
      | _, _ => None
      end
  end.

Definition sample_decode_questions (response_text : string)
  : result (list Question) :=
  match json_decode response_text with
  | Raise e => Raise e
  | Ok data =>
      let items :=
        match data with
        | JObj fields =>
            match fields_get fields "questions" (JArr []) with
            | JArr items => items
            | _ => []
            end
        | JArr items => items
        | _ => []
        end in
      match questions_of_items items with
      | Some qs => Ok qs
      | None => Raise (plain_error "'context'")
      end
  end.

Definition sample_libs : PyLibs :=
  {| json_loads := json_decode;
     decode_questions := sample_decode_questions;
     make_EvaluationResult := strict_EvaluationResult;
     make_ResumeData := strict_ResumeData;
     str_of_json := type_name;
     json_dumps := type_name |}.

(** *** Services and environments for the examples *)

(** An environment with one configuration value. *)
Definition env_with (name value : string) : Env :=
  fun n => if String.eqb n name then Some value else None.

Definition no_env : Env := fun _ => None.

Definition quota_error : PyError :=
  mkError (Some 429%Z) "Resource has been exhausted (e.g. check quota).".

(** A service that answers every generation call with the same outcome;
    the world counts the calls. *)
Definition constant_service (r : result string) : GenAI nat :=
  {| genai_configure := fun _ w => (None, w);
     genai_upload_file := fun _ w => (Ok "files/sample", w);
     genai_generate := fun _ _ _ _ w => (r, S w);
     genai_delete_file := fun _ w => w;
     time_sleep := fun w => w |}.

(** A service that fails with Quota on the first [n] generation calls and
    then answers [text]. *)
Definition quota_then (n : nat) (text : string) : GenAI nat :=
  {| genai_configure := fun _ w => (None, w);
     genai_upload_file := fun _ w => (Ok "files/sample", w);
     genai_generate :=
       fun _ _ _ _ w => (if w <? n then Raise quota_error else Ok text, S w);
     genai_delete_file := fun _ w => w;
     time_sleep := fun w => w |}.

(** A file system with one PDF, whose pages have the given texts. *)
Definition one_pdf (path : string) (pages : list string) : FileSystem :=
  {| pdf_pages :=
       fun p => if String.eqb p path then Ok (map Ok pages)
                else Raise (plain_error "No such file");
     docx_paragraphs := fun _ => Raise (plain_error "No such file");
     read_text_file := fun _ => Raise (plain_error "No such file") |}.

(** Two errors with the same status code and different messages. *)
Definition internal_error : PyError :=
  mkError (Some 500%Z) "Internal error encountered.".

Definition internal_error_with_id : PyError :=
  mkError (Some 500%Z) "Internal error encountered (request 4291).".

(** A response whose JSON carries a score of 7 and nothing else. *)
Definition score_seven_response : string :=
  "{" +:+ dq +:+ "score" +:+ dq +:+ ": 7}".

(** A response whose score is a list. *)
Definition score_as_list_response : string :=
  "{" +:+ dq +:+ "score" +:+ dq +:+ ": [7]}".


(** A resume of one line, long enough for direct structuring. *)
Definition long_resume_line : string :=
  "Senior engineer with ten years of Python, Docker and React experience.".

Definition one_txt (path content : string) : FileSystem :=
  {| pdf_pages := fun _ => Raise (plain_error "No such file");
     docx_paragraphs := fun _ => Raise (plain_error "No such file");
     read_text_file :=
       fun p => if String.eqb p path then Ok content
                else Raise (plain_error "No such file") |}.

Definition short_txt_resume : string := "Python developer".

(** A service whose uploads always fail with Quota. *)
Definition upload_quota_service : GenAI nat :=
  {| genai_configure := fun _ w => (None, w);
     genai_upload_file := fun _ w => (Raise quota_error, S w);
     genai_generate := fun _ _ _ _ w => (Ok "unreachable", w);
     genai_delete_file := fun _ w => w;
     time_sleep := fun w => w |}.

Definition three_keys : Env := env_with "RECRUITER_API_KEYS" "k1, k2 ,k3".

Definition two_models : option (list string) := Some ["model-a"; "model-b"].

(** A response with one question, out of structure: no intro, no closing. *)
Definition one_question_response : string :=
  "{" +:+ dq +:+ "questions" +:+ dq +:+ ": [{"
  +:+ dq +:+ "id" +:+ dq +:+ ": 4, "
  +:+ dq +:+ "text" +:+ dq +:+ ": " +:+ dq +:+ "What is a mutex?" +:+ dq +:+ ", "
  +:+ dq +:+ "type" +:+ dq +:+ ": " +:+ dq +:+ "technical" +:+ dq +:+ ", "
  +:+ dq +:+ "difficulty" +:+ dq +:+ ": " +:+ dq +:+ "easy" +:+ dq +:+ ", "
  +:+ dq +:+ "context" +:+ dq +:+ ": " +:+ dq +:+ "threads" +:+ dq +:+ "}]}".

(** A structuring response whose skills field is one string, not a list. *)
Definition skills_as_text_response : string :=
  "{" +:+ dq +:+ "skills" +:+ dq +:+ ": " +:+ dq +:+ "Python" +:+ dq +:+ "}".

(** A PDF whose first page cannot be read and whose second page is empty. *)
Definition damaged_pdf : FileSystem :=
  {| pdf_pages :=
       fun _ => Ok [Raise (plain_error "broken stream"); Ok EmptyString];
     docx_paragraphs := fun _ => Raise (plain_error "No such file");
     read_text_file := fun _ => Raise (plain_error "No such file") |}.

(** A PDF without text, so that the scan is tried. *)
Definition image_pdf : FileSystem := one_pdf "scan.pdf" [].

(* end of sample inputs *)

(* ===================================================================== *)
(** * Properties *)
(* ===================================================================== *)

(** ** Strings *)

Section StringFacts.

Lemma startswith_app s t p :
  startswith s p = true -> startswith (s +:+ t) p = true.
Proof.
  revert s; induction p as [|a p IH]; intros s H.
  - reflexivity.
  - destruct s as [|b s]; [discriminate|].
    simpl in *. apply andb_true_iff in H as [H1 H2].
    rewrite H1. simpl. by apply IH.
Qed.

Lemma contains_app_l k s t :
  contains k s = true -> contains k (s +:+ t) = true.
Proof.
  induction s as [|c s IH]; intros H.
  - simpl in H. rewrite orb_false_r in H.
    destruct k; [|discriminate]. destruct t; reflexivity.
  - cbn [contains] in H. apply orb_true_iff in H as [H|H].
    + change (String c s +:+ t) with (String c (s +:+ t)).
      cbn [contains].
      change (String c (s +:+ t)) with (String c s +:+ t).
      by rewrite (startswith_app _ _ _ H).
    + change (String c s +:+ t) with (String c (s +:+ t)).
      cbn [contains]. rewrite (IH H). apply orb_true_r.
Qed.

Lemma contains_app_r k s t :
  contains k t = true -> contains k (s +:+ t) = true.
Proof.
  induction s as [|c s IH]; intros H; [exact H|].
  change (String c s +:+ t) with (String c (s +:+ t)).
  cbn [contains]. rewrite (IH H). apply orb_true_r.
Qed.

Lemma lower_app s t : lower (s +:+ t) = lower s +:+ lower t.
Proof.
  induction s as [|c s IH]; [reflexivity|].
  change (String c s +:+ t) with (String c (s +:+ t)).
  cbn [lower]. by rewrite IH.
Qed.

Lemma contains_any_app_l ks s t :
  contains_any ks s = true -> contains_any ks (s +:+ t) = true.
Proof.
  unfold contains_any. rewrite !existsb_exists.
  intros (k & Hk & H). exists k. split; [done|]. by apply contains_app_l.
Qed.

End StringFacts.

(** ** The object store *)

Section StoreFacts.
Implicit Types (h : Heap) (l : loc) (q : Question) (qs : list loc).

Lemma deref_app_l h h' l : l < length h -> deref (h ++ h') l = deref h l.
Proof. intros H. unfold deref. by apply lookup_total_app_l. Qed.

Lemma values_app_l h h' qs :
  Forall (fun l => l < length h) qs -> values (h ++ h') qs = values h qs.
Proof.
  unfold values. induction 1 as [|l qs Hl _ IH]; [done|].
  cbn [map]. by rewrite IH, deref_app_l.
Qed.

Lemma length_values h qs : length (values h qs) = length qs.
Proof. unfold values. by rewrite length_map. Qed.

Lemma values_lookup_total h qs i :
  i < length qs -> values h qs !!! i = deref h (qs !!! i).
Proof.
  intros Hi. unfold values.
  destruct (lookup_lt_is_Some_2 qs i Hi) as [l Hl].
  rewrite (list_lookup_total_correct _ _ _ Hl).
  apply list_lookup_total_correct.
  by rewrite list_lookup_fmap, Hl.
Qed.

Lemma new_dict_eq q h : new_dict q h = Some (length h, h ++ [q]).
Proof. reflexivity. Qed.

Lemma alter_block (f : Question -> Question) h q (vs : list Question) :
  alter f (length h) (h ++ q :: vs) = h ++ f q :: vs.
Proof.
  replace (length h) with (length h + 0) at 1 by lia.
  by rewrite alter_app_r.
Qed.

Lemma alter_new (f : Question -> Question) h q :
  alter f (length h) (h ++ [q]) = h ++ [f q].
Proof. apply alter_block. Qed.

Lemma deepcopy_eq l h :
  deepcopy l h = Some (length h, h ++ [deref h l]).
Proof. reflexivity. Qed.

(** Renumbering a block of objects that was just allocated. *)
Lemma assign_ids_block h (vs : list Question) idx :
  assign_ids (seq (length h) (length vs)) idx (h ++ vs)
  = Some (tt, h ++ renumber idx vs).
Proof.
  revert h idx; induction vs as [|v vs IH]; intros h idx.
  - cbn. by rewrite !app_nil_r.
  - cbn [length seq assign_ids renumber]. unfold bind, update.
    rewrite alter_block.
    replace (h ++ set_id idx v :: vs) with ((h ++ [set_id idx v]) ++ vs)
      by (by rewrite <- app_assoc).
    replace (S (length h)) with (length (h ++ [set_id idx v]))
      by (rewrite length_app; cbn; lia).
    rewrite IH. by rewrite <- app_assoc.
Qed.

Lemma length_renumber idx (vs : list Question) :
  length (renumber idx vs) = length vs.
Proof. revert idx; induction vs; intros; cbn; [done|]. by rewrite IHvs. Qed.

Lemma ids_renumber idx (vs : list Question) :
  ids (renumber idx vs) = seqZ idx (Z.of_nat (length vs)).
Proof.
  revert idx; induction vs as [|v vs IH]; intros idx; [done|].
  cbn [renumber ids map length]. fold (ids (renumber (idx + 1) vs)).
  rewrite IH. rewrite (seqZ_cons idx) by lia. f_equal.
  f_equal; lia.
Qed.

Lemma renumber_lookup idx (vs : list Question) i v :
  vs !! i = Some v ->
  renumber idx vs !! i = Some (set_id (idx + Z.of_nat i) v).
Proof.
  revert idx i; induction vs as [|v0 vs IH]; intros idx i H; [done|].
  destruct i as [|i]; cbn in *.
  - inversion H; subst. do 2 f_equal. lia.
  - rewrite (IH _ _ H). do 2 f_equal. lia.
Qed.

End StoreFacts.

(** ** question_bank.py *)

Section FallbackFacts.
Implicit Types (h : Heap) (pool final : list loc).

#[local] Abbreviation follow_up := " (Follow-up / Alternate angle)".

(** The loop of [get_fallback_questions] ends, and what it appends are
    new objects: the entries of cyclic filling. *)
Lemma cyclic_fill_spec fuel pool n idx final h :
  pool <> [] ->
  Forall (fun l => l < length h) pool ->
  Z.to_nat (n - 1 - Z.of_nat (length final)) <= fuel ->
  cyclic_fill fuel pool n idx final h
  = Some (final ++ seq (length h)
                       (Z.to_nat (n - 1 - Z.of_nat (length final))),
          h ++ map (cyclic_entry follow_up (values h pool))
                   (seq idx (Z.to_nat (n - 1 - Z.of_nat (length final))))).
Proof.
  intros Hne Hvalid.
  revert idx final h Hvalid.
  induction fuel as [|fuel IH]; intros idx final h Hvalid Hfuel.
  - cbn [cyclic_fill].
    destruct (Z.of_nat (length final) <? n - 1)%Z eqn:Hc.
    + apply Z.ltb_lt in Hc. lia.
    + apply Z.ltb_ge in Hc.
      replace (Z.to_nat (n - 1 - Z.of_nat (length final))) with 0 by lia.
      cbn. by rewrite !app_nil_r.
  - cbn [cyclic_fill].
    destruct (Z.of_nat (length final) <? n - 1)%Z eqn:Hc.
    2:{ apply Z.ltb_ge in Hc.
        replace (Z.to_nat (n - 1 - Z.of_nat (length final))) with 0 by lia.
        cbn. by rewrite !app_nil_r. }
    apply Z.ltb_lt in Hc.
    rewrite bool_decide_eq_false_2 by done.
    assert (Hlen : 0 < length pool) by (destruct pool; [done|cbn; lia]).
    assert (Hmod : idx mod length pool < length pool)
      by (apply Nat.mod_upper_bound; lia).
    set (base := pool !!! (idx mod length pool)).
    assert (Hentry :
      cyclic_entry follow_up (values h pool) idx
      = (if length pool <=? idx then append_context follow_up (deref h base)
         else deref h base)).
    { unfold cyclic_entry. rewrite length_values.
      by rewrite values_lookup_total. }
    set (v := cyclic_entry follow_up (values h pool) idx) in *.
    assert (Hstep :
      (exec (if length pool <=? idx
             then update (length h) (append_context follow_up)
             else ret tt);
       cyclic_fill fuel pool n (S idx) (final ++ [length h]))
        (h ++ [deref h base])
      = cyclic_fill fuel pool n (S idx) (final ++ [length h]) (h ++ [v])).
    { unfold bind. rewrite Hentry.
      destruct (length pool <=? idx); [|done].
      unfold update. by rewrite alter_new. }
    unfold bind at 1. rewrite deepcopy_eq. rewrite Hstep.
    rewrite IH.
    2:{ eapply Forall_impl; [exact Hvalid|]. cbn. intros l Hl.
        rewrite length_app. lia. }
    2:{ rewrite length_app. cbn. lia. }
    rewrite !length_app. cbn [length].
    replace (Z.to_nat (n - 1 - Z.of_nat (length final)))
      with (S (Z.to_nat (n - 1 - Z.of_nat (length final + 1)))) by lia.
    cbn [seq map]. rewrite <- !app_assoc. cbn [app].
    rewrite values_app_l by done.
    replace (length h + 1) with (S (length h)) by lia.
    done.
Qed.

End FallbackFacts.

Section FallbackScript.
Implicit Types (h : Heap).

Lemma middle_pool_of_bounds resume_text :
  middle_pool_of resume_text <> []
  /\ Forall (fun l => l < 15) (middle_pool_of resume_text).
Proof.
  unfold middle_pool_of, matched_candidates, QUESTION_BANK.
  cbn [fold_left str_elem existsb String.eqb Ascii.eqb Bool.eqb negb orb
       andb dict_get].
  set (r := lower resume_text).
  destruct (contains "python" r), (contains "javascript" r),
    (contains "react" r); cbn;
    (split; [discriminate | repeat constructor; lia]).
Qed.

Lemma length_fallback_script pool role n :
  (1 <= n)%Z -> length (fallback_script pool role n) = Z.to_nat n.
Proof.
  intros Hn. unfold fallback_script.
  rewrite length_renumber, !length_app, length_map, length_seq.
  destruct (1 <? n)%Z eqn:H1; cbn [length].
  - apply Z.ltb_lt in H1. lia.
  - apply Z.ltb_ge in H1. lia.
Qed.

(** What a call does to the store and what it returns: the script is
    built from new objects only, appended to a store it leaves as it is. *)
Lemma get_fallback_questions_spec resume_text role n h :
  15 <= length h ->
  get_fallback_questions resume_text role n h
  = Some (py_take
            (seq (length h)
                 (length (fallback_script
                            (values h (middle_pool_of resume_text)) role n)))
            n,
          h ++ fallback_script (values h (middle_pool_of resume_text))
                               role n).
Proof.
  intros Hh.
  destruct (middle_pool_of_bounds resume_text) as [Hne Hb].
  assert (Hvalid : Forall (fun l => l < length h) (middle_pool_of resume_text))
    by (eapply Forall_impl; [exact Hb|]; cbn; lia).
  unfold get_fallback_questions.
  unfold bind at 1. rewrite new_dict_eq.
  change (cyclic_fill (Z.to_nat n) _ n 0 [length h]) with
    (cyclic_fill (Z.to_nat n) (middle_pool_of resume_text) n 0 [length h]).
  set (pool := middle_pool_of resume_text) in *.
  unfold bind at 1.
  rewrite cyclic_fill_spec; [|done| |cbn; lia].
  2:{ eapply Forall_impl; [exact Hvalid|]. cbn. intros l Hl.
      rewrite length_app. lia. }
  rewrite values_app_l by done.
  replace (Z.to_nat (n - 1 - Z.of_nat (length [length h])))
    with (Z.to_nat (n - 2)) by (cbn; lia).
  unfold fallback_script.
  set (mid := map (cyclic_entry _ (values h pool)) (seq 0 (Z.to_nat (n - 2)))).
  assert (Hmid : length mid = Z.to_nat (n - 2))
    by (unfold mid; by rewrite length_map, length_seq).
  assert (Hseq : forall (tl : list Question),
    [length h] ++ seq (length (h ++ [default_intro role])) (length mid)
               ++ seq (length (h ++ [default_intro role]) + length mid)
                      (length tl)
    = seq (length h) (length ([default_intro role] ++ mid ++ tl))).
  { intros tl. rewrite !length_app. cbn [length app].
    replace (length h + 1) with (S (length h)) by lia.
    replace (S (length mid + length tl)) with (1 + (length mid + length tl))
      by lia.
    rewrite !seq_app. cbn [seq app].
    by replace (length h + 1) with (S (length h)) by lia. }
  rewrite <- Hmid.
  destruct (1 <? n)%Z.
  - unfold bind at 1. unfold bind at 1. rewrite new_dict_eq.
    unfold ret at 1.
    specialize (Hseq [default_closing 9999]).
    replace (([length h] ++ seq (length (h ++ [default_intro role])) (length mid))
             ++ [length ((h ++ [default_intro role]) ++ mid)])
      with (seq (length h)
                (length ([default_intro role] ++ mid ++ [default_closing 9999]))).
    2:{ rewrite <- Hseq. rewrite <- app_assoc. do 2 f_equal.
        cbn [length seq]. by rewrite !length_app. }
    replace (((h ++ [default_intro role]) ++ mid) ++ [default_closing 9999])
      with (h ++ ([default_intro role] ++ mid ++ [default_closing 9999]))
      by (by rewrite <- !app_assoc).
    unfold bind. rewrite assign_ids_block. unfold ret.
    by rewrite length_renumber.
  - unfold bind at 1. unfold ret at 1.
    replace ([length h] ++ seq (length (h ++ [default_intro role])) (length mid))
      with (seq (length h) (length ([default_intro role] ++ mid ++ [])))
      by (rewrite <- Hseq; cbn [length seq]; by rewrite app_nil_r).
    replace ((h ++ [default_intro role]) ++ mid)
      with (h ++ ([default_intro role] ++ mid ++ []))
      by (by rewrite app_nil_r, <- !app_assoc).
    unfold bind. rewrite assign_ids_block. unfold ret.
    by rewrite length_renumber, !app_nil_r.
Qed.

End FallbackScript.

Section SliceFacts.
Context {A : Type}.
Implicit Types (xs : list A) (k : Z).

Lemma py_take_is_take xs k : exists m, py_take xs k = take m xs.
Proof. unfold py_take. destruct (0 <=? k)%Z; eauto. Qed.

Lemma py_take_all xs k : (Z.of_nat (length xs) <= k)%Z -> py_take xs k = xs.
Proof.
  intros H. unfold py_take.
  destruct (0 <=? k)%Z eqn:Hk; [|apply Z.leb_gt in Hk; lia].
  apply take_ge. lia.
Qed.

Lemma py_take_nonneg xs k : (0 <= k)%Z -> py_take xs k = take (Z.to_nat k) xs.
Proof.
  intros H. unfold py_take.
  destruct (0 <=? k)%Z eqn:Hk; [done|apply Z.leb_gt in Hk; lia].
Qed.

Lemma Forall_py_take (P : A -> Prop) xs k :
  Forall P xs -> Forall P (py_take xs k).
Proof.
  destruct (py_take_is_take xs k) as [m ->]. apply Forall_take.
Qed.

Lemma NoDup_py_take xs k : NoDup xs -> NoDup (py_take xs k).
Proof.
  destruct (py_take_is_take xs k) as [m ->]. intros H.
  eapply sublist_NoDup; [done|apply sublist_take].
Qed.

End SliceFacts.

Section FreshBlock.
Implicit Types (h : Heap) (vs : list Question).

Lemma values_fresh_block h vs :
  values (h ++ vs) (seq (length h) (length vs)) = vs.
Proof.
  revert h; induction vs as [|v vs IH]; intros h; [done|].
  cbn [length seq]. unfold values in *. cbn [map]. f_equal.
  - unfold deref. by rewrite list_lookup_total_middle.
  - replace (h ++ v :: vs) with ((h ++ [v]) ++ vs)
      by (by rewrite <- app_assoc).
    replace (S (length h)) with (length (h ++ [v]))
      by (rewrite length_app; cbn; lia).
    apply IH.
Qed.

Lemma values_py_take h (qs : list loc) k :
  values h (py_take qs k) = py_take (values h qs) k.
Proof.
  unfold py_take, values. rewrite length_map.
  destruct (0 <=? k)%Z; by rewrite firstn_map.
Qed.

Lemma values_fresh_slice h vs k :
  values (h ++ vs) (py_take (seq (length h) (length vs)) k) = py_take vs k.
Proof. by rewrite values_py_take, values_fresh_block. Qed.

Lemma fresh_block_bounds h vs :
  Forall (fun l => length h <= l < length (h ++ vs))
         (seq (length h) (length vs)).
Proof.
  apply Forall_forall. intros l Hl. apply elem_of_seq in Hl.
  rewrite length_app. lia.
Qed.

End FreshBlock.

Section FallbackBank.
Implicit Types (h : Heap).

Lemma fallback_calls_extend calls h :
  15 <= length h -> exists ext, fallback_calls calls h = Some (h ++ ext).
Proof.
  revert h; induction calls as [|[[resume_text role] n] calls IH]; intros h Hh.
  - exists []. cbn. by rewrite app_nil_r.
  - cbn [fallback_calls]. rewrite get_fallback_questions_spec by done.
    destruct (IH (h ++ fallback_script
                         (values h (middle_pool_of resume_text)) role n))
      as [ext Hext]; [rewrite length_app; lia|].
    rewrite Hext. eexists. by rewrite <- app_assoc.
Qed.

(** C10.  [get_fallback_questions] never writes to an object that existed
    before the call, so no [QUESTION_BANK] entry changes, after one call or
    after any number of them; what it returns are distinct objects created
    by the call (the intro and closing literals and the deep copies); and
    the same call made again returns an equal script, leaving the script
    of the first call as it was. *)
Theorem get_fallback_questions_preserves_bank
  (resume_text role : string) (n : Z) (h : Heap) :
  15 <= length h ->
  exists locs h',
    get_fallback_questions resume_text role n h = Some (locs, h')
    /\ (forall l, l < length h -> h' !! l = h !! l)
    /\ (forall category,
          values h' (dict_get QUESTION_BANK category)
          = values h (dict_get QUESTION_BANK category))
    /\ Forall (fun l => length h <= l < length h') locs
    /\ NoDup locs
    /\ (forall calls, exists h'',
          fallback_calls calls h = Some h''
          /\ forall l, l < length h -> h'' !! l = h !! l)
    /\ (exists locs2 h2,
          get_fallback_questions resume_text role n h' = Some (locs2, h2)
          /\ values h2 locs2 = values h' locs
          /\ values h2 locs = values h' locs).
Proof.
  intros Hh.
  set (V := fallback_script (values h (middle_pool_of resume_text)) role n).
  exists (py_take (seq (length h) (length V)) n), (h ++ V).
  assert (Hlocs : Forall (fun l => length h <= l < length (h ++ V))
                         (py_take (seq (length h) (length V)) n))
    by apply Forall_py_take, fresh_block_bounds.
  split; [by apply get_fallback_questions_spec|].
  split; [intros l Hl; by apply lookup_app_l|].
  split.
  { intros category. apply values_app_l.
    assert (Hbank : Forall (fun l => l < 15) (dict_get QUESTION_BANK category)).
    { unfold QUESTION_BANK. cbn [dict_get].
      repeat (destruct (String.eqb _ category);
              [repeat constructor; lia|]).
      constructor. }
    eapply Forall_impl; [exact Hbank|]. cbn. lia. }
  split; [done|].
  split; [apply NoDup_py_take, NoDup_seq|].
  split.
  { intros calls. destruct (fallback_calls_extend calls h Hh) as [ext Hext].
    exists (h ++ ext). split; [done|]. intros l Hl. by apply lookup_app_l. }
  assert (Hpool : Forall (fun l => l < length h) (middle_pool_of resume_text)).
  { destruct (middle_pool_of_bounds resume_text) as [_ Hb].
    eapply Forall_impl; [exact Hb|]. cbn. lia. }
  eexists _, _. split.
  { apply get_fallback_questions_spec. rewrite length_app. lia. }
  rewrite (values_app_l h V) by done. fold V.
  split.
  - by rewrite !values_fresh_slice.
  - apply values_app_l.
    eapply Forall_impl; [exact Hlocs|]. cbn. lia.
Qed.

Lemma get_fallback_questions_preserves_bank_witness :
  exists locs h',
    get_fallback_questions "I used React and Docker" "Backend Engineer" 6
                           module_heap = Some (locs, h')
    /\ (forall l, l < length module_heap -> h' !! l = module_heap !! l).
Proof.
  destruct (get_fallback_questions_preserves_bank
              "I used React and Docker" "Backend Engineer" 6 module_heap)
    as (locs & h' & H1 & H2 & _); [vm_compute; lia|].
  exists locs, h'. by split.
Defined.

End FallbackBank.

Section FallbackScenario.
Implicit Types (h : Heap).

Lemma intact_bank_values h (qs : list loc) :
  take 15 h = module_heap ->
  Forall (fun l => l < 15) qs ->
  values h qs = values module_heap qs.
Proof.
  intros Hh Hqs. rewrite <- (take_drop 15 h), Hh.
  apply values_app_l. by rewrite (eq_refl : length module_heap = 15).
Qed.

Lemma intact_bank_length h : take 15 h = module_heap -> 15 <= length h.
Proof.
  intros Hh. apply (f_equal length) in Hh.
  rewrite length_take in Hh.
  rewrite (eq_refl : length module_heap = 15) in Hh. lia.
Qed.

(** C7 (as the code has it).  With the bank intact,
    [get_fallback_questions("I used React and Docker", "Backend Engineer", 6)]
    returns exactly six questions with ids 1..6: the intro, whose text
    names "Backend Engineer", then the two questions of the react category
    and the first two of the general_technical category, then the closing
    question.  The bank has no docker category, and nothing in the script
    mentions docker. *)
Theorem fallback_react_docker_scenario (h : Heap) :
  take 15 h = module_heap ->
  exists locs h',
    get_fallback_questions "I used React and Docker" "Backend Engineer" 6 h
    = Some (locs, h')
    /\ values h' locs
       = renumber 1 ([default_intro "Backend Engineer"] ++ bank_react
                     ++ take 2 bank_general_technical
                     ++ [default_closing 9999])
    /\ length (values h' locs) = 6
    /\ ids (values h' locs) = one_to 6
    /\ (exists q, values h' locs !! 0 = Some q
                  /\ is_intro_question q = true
                  /\ contains "Backend Engineer" (q_text q) = true)
    /\ (exists q, values h' locs !! 5 = Some q
                  /\ q_text q = closing_text
                  /\ is_closing_question q = true)
    /\ (exists q1 q2 b1 b2,
          values h' locs !! 1 = Some q1 /\ values h' locs !! 2 = Some q2
          /\ values module_heap (dict_get QUESTION_BANK "react") = [b1; b2]
          /\ same_content q1 b1 /\ same_content q2 b2)
    /\ dict_get QUESTION_BANK "docker" = []
    /\ Forall (fun q => contains "docker" (lower (q_text q)) = false
                        /\ contains "docker" (lower (q_context q)) = false)
              (values h' locs).
Proof.
  intros Hh.
  pose proof (intact_bank_length h Hh) as Hlen.
  eexists _, _. split; [by apply get_fallback_questions_spec|].
  rewrite values_fresh_slice.
  rewrite (intact_bank_values h _ Hh)
    by (apply middle_pool_of_bounds).
  set (script := py_take _ 6).
  assert (Hs : script
               = renumber 1 ([default_intro "Backend Engineer"] ++ bank_react
                             ++ take 2 bank_general_technical
                             ++ [default_closing 9999]))
    by (vm_compute; reflexivity).
  rewrite Hs. clear Hs script.
  split; [reflexivity|].
  split; [vm_compute; reflexivity|].
  split; [vm_compute; reflexivity|].
  split; [eexists; split; [reflexivity|]; split; vm_compute; reflexivity|].
  split; [eexists; split; [reflexivity|]; split; vm_compute; reflexivity|].
  split.
  { eexists _, _, _, _. split; [reflexivity|]. split; [reflexivity|].
    split; [vm_compute; reflexivity|]. split; vm_compute; reflexivity. }
  split; [vm_compute; reflexivity|].
  apply (bool_decide_unpack _). vm_compute. exact I.
Qed.

Lemma fallback_react_docker_scenario_witness :
  exists locs h',
    get_fallback_questions "I used React and Docker" "Backend Engineer" 6
                           module_heap = Some (locs, h')
    /\ length (values h' locs) = 6.
Proof.
  destruct (fallback_react_docker_scenario module_heap eq_refl)
    as (locs & h' & H1 & _ & H2 & _).
  exists locs, h'. by split.
Defined.

(** The scenario as the specification words it asks for a question drawn
    from a docker category: there is none to draw from. *)
Lemma fallback_scenario_draws_no_docker_question :
  ~ (exists locs h' q b,
       get_fallback_questions "I used React and Docker" "Backend Engineer" 6
                              module_heap = Some (locs, h')
       /\ q ∈ values h' locs
       /\ b ∈ values module_heap (dict_get QUESTION_BANK "docker")
       /\ same_content q b).
Proof.
  intros (locs & h' & q & b & _ & _ & Hb & _).
  vm_compute in Hb. by apply elem_of_nil in Hb.
Qed.

End FallbackScenario.

(** ** question_generator.py: the structure enforcer *)

Section AssignIds.
Implicit Types (h : Heap) (qs : list loc).

Lemma deref_ext h h' l : h' !! l = h !! l -> deref h' l = deref h l.
Proof. intros H. unfold deref. by rewrite !list_lookup_total_alt, H. Qed.

Lemma set_id_set_id i j q : set_id i (set_id j q) = set_id i q.
Proof. reflexivity. Qed.

Lemma set_id_same q : set_id (q_id q) q = q.
Proof. by destruct q. Qed.

Lemma alter_out_of_range (f : Question -> Question) h l :
  length h <= l -> alter f l h = h.
Proof.
  intros Hl. apply list_eq. intros j.
  destruct (decide (l = j)) as [->|Hne].
  - rewrite list_lookup_alter_eq.
    by rewrite (lookup_ge_None_2 h j) by lia.
  - by rewrite list_lookup_alter_ne.
Qed.

Lemma deref_alter_set_id h l l' idx :
  set_id 0 (deref (alter (set_id idx) l h) l') = set_id 0 (deref h l').
Proof.
  unfold deref. destruct (decide (l = l')) as [->|Hne].
  - destruct (decide (l' < length h)) as [Hlt|Hge].
    + by rewrite list_lookup_total_alter_eq.
    + by rewrite alter_out_of_range by lia.
  - by rewrite list_lookup_total_alter_ne.
Qed.

(** Renumbering writes ids and nothing else; on distinct objects the ids
    it leaves are consecutive. *)
Lemma assign_ids_spec qs idx h :
  exists h',
    assign_ids qs idx h = Some (tt, h')
    /\ length h' = length h
    /\ (forall l, l ∉ qs -> h' !! l = h !! l)
    /\ (forall l, same_content (deref h' l) (deref h l))
    /\ (NoDup qs -> Forall (fun l => l < length h) qs ->
        forall i l, qs !! i = Some l ->
                    deref h' l = set_id (idx + Z.of_nat i) (deref h l)).
Proof.
  revert idx h; induction qs as [|q qs IH]; intros idx h.
  - exists h. cbn. repeat split; try done.
  - cbn [assign_ids]. unfold bind, update.
    destruct (IH (idx + 1)%Z (alter (set_id idx) q h))
      as (h' & Hrun & Hlen & Hframe & Hsame & Hids).
    exists h'. split; [done|].
    split; [by rewrite Hlen, length_alter|].
    split.
    { intros l Hl. apply not_elem_of_cons in Hl as [Hne Hl].
      rewrite Hframe by done. by apply list_lookup_alter_ne. }
    split.
    { intros l. unfold same_content in *.
      rewrite Hsame. apply deref_alter_set_id. }
    intros Hnd Hvalid i l Hi.
    apply NoDup_cons in Hnd as [Hq Hnd].
    apply Forall_cons in Hvalid as [Hqv Hvalid].
    destruct i as [|i]; cbn in Hi.
    + inversion Hi; subst l.
      rewrite (deref_ext _ _ _ (Hframe q Hq)).
      unfold deref. rewrite list_lookup_total_alter_eq by done.
      f_equal. lia.
    + assert (Hne : q <> l).
      { intros ->. apply Hq. by eapply list_elem_of_lookup_2. }
      rewrite (Hids Hnd) with (i := i); [| |done].
      2:{ eapply Forall_impl; [exact Hvalid|]. cbn. intros.
          by rewrite length_alter. }
      unfold deref. rewrite list_lookup_total_alter_ne by done.
      f_equal. lia.
Qed.

(** Renumbering objects whose ids are already in sequence changes
    nothing. *)
Lemma assign_ids_noop qs idx h :
  ids (values h qs) = seqZ idx (Z.of_nat (length qs)) ->
  assign_ids qs idx h = Some (tt, h).
Proof.
  revert idx; induction qs as [|q qs IH]; intros idx H; [done|].
  cbn [assign_ids]. unfold bind, update.
  cbn [values ids map length] in H.
  rewrite (seqZ_cons idx) in H by lia. injection H as Hq Hrest.
  assert (Halter : alter (set_id idx) q h = h).
  { destruct (decide (q < length h)) as [Hlt|Hge].
    - apply list_eq. intros j. destruct (decide (q = j)) as [->|Hne].
      + rewrite list_lookup_alter_eq.
        destruct (lookup_lt_is_Some_2 h j Hlt) as [x Hx].
        rewrite Hx. cbn. f_equal.
        unfold deref in Hq.
        rewrite (list_lookup_total_correct _ _ _ Hx) in Hq.
        rewrite <- Hq. apply set_id_same.
      + by rewrite list_lookup_alter_ne.
    - apply alter_out_of_range. lia. }
  rewrite Halter. apply IH.
  unfold ids, values. rewrite Hrest. f_equal; lia.
Qed.

End AssignIds.

Section EnforcerValid.
Implicit Types (h : Heap) (questions : list loc).

(** On a non-empty list the enforcer takes its early return exactly when
    the structure test holds. *)
Lemma enforce_valid_path questions role n h :
  questions <> [] ->
  already_valid h questions = true ->
  _enforce_interview_structure questions role n h
  = (exec assign_ids questions 1; ret questions) h.
Proof.
  intros Hne Hv. unfold _enforce_interview_structure.
  rewrite bool_decide_eq_false_2 by done.
  unfold already_valid in Hv. apply andb_true_iff in Hv as [Hi Hc].
  unfold bind at 1, read at 1. rewrite Hi.
  destruct (2 <? length questions) eqn:H2.
  - apply Nat.ltb_lt in H2.
    rewrite (proj2 (Nat.leb_gt _ _)) in Hc |- * by lia.
    cbn [orb] in Hc.
    unfold bind at 1, bind at 1, read at 1, ret at 1. by rewrite Hc.
  - unfold bind at 1, ret at 1.
    apply Nat.ltb_ge in H2.
    by rewrite (proj2 (Nat.leb_le _ _)) by lia.
Qed.

(** C9.  On a sequence that already has the structure (an intro first and,
    with more than two questions, a closing last) the enforcer returns the
    same objects in the same order; the only fields it writes are ids, and
    when the ids are already 1..N it writes nothing at all. *)
Theorem enforce_idempotent_on_valid questions (role : string) (n : Z) h :
  already_valid h questions = true ->
  exists h',
    _enforce_interview_structure questions role n h = Some (questions, h')
    /\ length h' = length h
    /\ (forall l, same_content (deref h' l) (deref h l))
    /\ (forall l, l ∉ questions -> h' !! l = h !! l)
    /\ (ids (values h questions) = one_to (length questions) -> h' = h).
Proof.
  intros Hv. destruct (decide (questions = [])) as [->|Hne].
  - exists h. by repeat split.
  - rewrite enforce_valid_path by done.
    destruct (assign_ids_spec questions 1 h)
      as (h' & Hrun & Hlen & Hframe & Hsame & _).
    exists h'. unfold bind, ret. rewrite Hrun.
    repeat split; try done.
    intros Hids. pose proof (assign_ids_noop questions 1 h Hids) as Hnoop.
    congruence.
Qed.

Lemma enforce_idempotent_on_valid_witness :
  exists h',
    _enforce_interview_structure [0] "Developer" 5 [sample_intro]
    = Some ([0], h')
    /\ length h' = 1.
Proof.
  destruct (enforce_idempotent_on_valid [0] "Developer" 5 [sample_intro])
    as (h' & H1 & H2 & _); [vm_compute; reflexivity|].
  exists h'. by split.
Defined.

End EnforcerValid.

Section EnforcerRepair.
Implicit Types (h : Heap) (questions middle : list loc).

#[local] Abbreviation extended := " (Extended discussion)".

Lemma is_intro_default_intro role :
  is_intro_question (default_intro role) = true.
Proof.
  unfold is_intro_question, default_intro, intro_text. cbn [q_text].
  rewrite lower_app. apply contains_any_app_l.
  vm_compute. reflexivity.
Qed.

Lemma is_closing_default_closing id :
  is_closing_question (default_closing id) = true.
Proof. vm_compute. reflexivity. Qed.

Lemma is_intro_same_content a b :
  same_content a b -> is_intro_question a = is_intro_question b.
Proof.
  unfold same_content, is_intro_question. intros H.
  by replace (q_text a) with (q_text b) by (by injection H).
Qed.

Lemma is_closing_same_content a b :
  same_content a b -> is_closing_question a = is_closing_question b.
Proof.
  unfold same_content, is_closing_question. intros H.
  by replace (q_text a) with (q_text b) by (by injection H).
Qed.

(** The extraction loop splits the candidates: every candidate ends up as
    the intro, as the closing or in the middle list, once. *)
Lemma extract_roles_spec h questions i c m i' c' m' :
  extract_roles h questions i c m = (i', c', m') ->
  olist i' ++ m' ++ olist c' ≡ₚ olist i ++ (m ++ questions) ++ olist c
  /\ (forall q, i' = Some q ->
                i = Some q \/ is_intro_question (deref h q) = true)
  /\ (forall q, c' = Some q ->
                c = Some q \/ is_closing_question (deref h q) = true).
Proof.
  revert i c m; induction questions as [|q qs IH]; intros i c m H.
  - cbn in H. injection H as -> -> ->. rewrite app_nil_r. eauto.
  - cbn [extract_roles] in H.
    destruct (is_intro_question (deref h q) && bool_decide (i = None)) eqn:Hi.
    { apply IH in H as (Hp & Hi' & Hc').
      apply andb_true_iff in Hi as [Hq Hnone].
      apply bool_decide_eq_true in Hnone. subst i.
      split; [|split].
      - rewrite Hp. cbn [olist app].
        by rewrite <- (Permutation_middle m qs q).
      - intros q' Hq'. destruct (Hi' _ Hq') as [H1|H1]; [|by right].
        injection H1 as ->. by right.
      - done. }
    destruct (is_closing_question (deref h q) && bool_decide (c = None))
      eqn:Hc.
    { apply IH in H as (Hp & Hi' & Hc').
      apply andb_true_iff in Hc as [Hq Hnone].
      apply bool_decide_eq_true in Hnone. subst c.
      split; [|split].
      - rewrite Hp. cbn [olist]. rewrite app_nil_r.
        apply Permutation_app_head.
        etransitivity; [apply Permutation_app_comm|].
        apply (Permutation_middle m qs q).
      - done.
      - intros q' Hq'. destruct (Hc' _ Hq') as [H1|H1]; [|by right].
        injection H1 as ->. by right. }
    apply IH in H as (Hp & Hi' & Hc').
    split; [|done]. rewrite Hp.
    by replace ((m ++ [q]) ++ qs) with (m ++ q :: qs)
      by (by rewrite <- app_assoc).
Qed.

(** The gap-filling loop ends; it appends new objects to the middle list
    until the target is met, and each of them is a tagged copy of the
    entry found, in the list being filled, at the position the loop index
    points to. *)
Lemma gap_fill_spec fuel (t : Z) middle idx h :
  Forall (fun l => l < length h) middle ->
  Z.to_nat (t - Z.of_nat (length middle)) <= fuel ->
  exists vs,
    gap_fill fuel t middle idx h
    = Some (middle ++ seq (length h) (length vs), h ++ vs)
    /\ length vs = Z.to_nat (t - Z.of_nat (length middle))
    /\ (idx < length middle ->
        forall j v, vs !! j = Some v ->
          v = append_context extended
                (deref (h ++ vs)
                       ((middle ++ seq (length h) (length vs)) !!! (idx + j)))).
Proof.
  revert middle idx h.
  induction fuel as [|fuel IH]; intros middle idx h Hvalid Hfuel.
  - exists []. cbn [gap_fill].
    destruct (Z.of_nat (length middle) <? t)%Z eqn:Hc;
      [apply Z.ltb_lt in Hc; lia|].
    apply Z.ltb_ge in Hc. cbn. rewrite !app_nil_r.
    repeat split; [lia|done].
  - cbn [gap_fill].
    destruct (Z.of_nat (length middle) <? t)%Z eqn:Hc.
    2:{ exists []. apply Z.ltb_ge in Hc. cbn. rewrite !app_nil_r.
        repeat split; [lia|done]. }
    apply Z.ltb_lt in Hc.
    assert (Hstep : forall v idx',
      (idx < length middle -> idx' < length (middle ++ [length h])) ->
      (idx < length middle ->
       v = append_context extended (deref h (middle !!! idx))) ->
      exists vs,
        gap_fill fuel t (middle ++ [length h]) idx' (h ++ [v])
        = Some (middle ++ seq (length h) (length vs), h ++ vs)
        /\ length vs = Z.to_nat (t - Z.of_nat (length middle))
        /\ (idx < length middle -> idx' = S idx ->
            forall j v', vs !! j = Some v' ->
              v' = append_context extended
                     (deref (h ++ vs)
                            ((middle ++ seq (length h) (length vs))
                               !!! (idx + j))))).
    { intros v idx' Hidx' Hv.
      destruct (IH (middle ++ [length h]) idx' (h ++ [v]))
        as (vs & Hrun & Hlen & Hvals).
      { apply Forall_app. split.
        - eapply Forall_impl; [exact Hvalid|]. cbn. intros.
          rewrite length_app. lia.
        - repeat constructor. rewrite length_app. cbn. lia. }
      { rewrite length_app. cbn. lia. }
      exists (v :: vs).
      rewrite length_app in Hrun, Hlen. cbn [length] in Hrun, Hlen |- *.
      replace (length h + 1) with (S (length h)) in Hrun by lia.
      cbn [seq]. rewrite <- !app_assoc in Hrun. cbn [app] in Hrun.
      split; [exact Hrun|]. split; [lia|].
      intros Hi -> j v' Hj.
      destruct j as [|j]; cbn in Hj.
      - injection Hj as <-. rewrite (Hv Hi). f_equal.
        rewrite Nat.add_0_r.
        rewrite lookup_total_app_l by done.
        symmetry. apply deref_app_l.
        rewrite Forall_forall in Hvalid. apply Hvalid.
        by apply list_elem_of_lookup_total_2.
      - rewrite (Hvals (Hidx' Hi) j v' Hj).
        rewrite length_app. cbn [length].
        replace (length h + 1) with (S (length h)) by lia.
        rewrite <- !app_assoc. cbn [app].
        by replace (S idx + j) with (idx + S j) by lia. }
    destruct (bool_decide (middle = [])) eqn:Hm.
    + apply bool_decide_eq_true in Hm. subst middle.
      unfold bind at 1. rewrite new_dict_eq.
      destruct (Hstep emergency_question idx) as (vs & Hrun & Hlen & _);
        [cbn; lia|cbn; lia|].
      exists vs. split; [exact Hrun|]. split; [exact Hlen|].
      cbn. lia.
    + apply bool_decide_eq_false in Hm.
      assert (Hlen : 0 < length middle) by (destruct middle; [done|cbn; lia]).
      unfold bind at 1. rewrite deepcopy_eq.
      unfold bind at 1, update at 1. rewrite alter_new.
      destruct (Hstep (append_context extended
                         (deref h (middle !!! (idx mod length middle))))
                      (S idx)) as (vs & Hrun & Hlen' & Hvals).
      { rewrite length_app. cbn. lia. }
      { intros Hi. by rewrite Nat.mod_small. }
      exists vs. split; [exact Hrun|]. split; [exact Hlen'|].
      intros Hi. by apply Hvals.
Qed.

End EnforcerRepair.

Section EnforcerShape.
Implicit Types (h : Heap) (questions middle : list loc).

Lemma enforce_repair_path questions role n h :
  questions <> [] ->
  already_valid h questions = false ->
  _enforce_interview_structure questions role n h
  = rebuild_structure questions role n h.
Proof.
  intros Hne Hv. unfold _enforce_interview_structure.
  rewrite bool_decide_eq_false_2 by done.
  unfold already_valid in Hv.
  unfold bind at 1, read at 1.
  destruct (2 <? length questions) eqn:H2.
  - apply Nat.ltb_lt in H2.
    rewrite (proj2 (Nat.leb_gt _ _)) in Hv |- * by lia.
    unfold bind at 1, bind at 1, read at 1, ret at 1.
    fold (deref h (questions !!! 0)).
    by rewrite Hv.
  - unfold bind at 1, ret at 1.
    apply Nat.ltb_ge in H2.
    rewrite (proj2 (Nat.leb_le _ _)) in Hv |- * by lia.
    cbn [orb] in Hv |- *. rewrite andb_true_r in Hv |- *. by rewrite Hv.
Qed.

Lemma ids_of_assigned (h3 h4 : Heap) (qs : list loc) idx :
  (forall i l, qs !! i = Some l ->
               deref h4 l = set_id (idx + Z.of_nat i) (deref h3 l)) ->
  ids (values h4 qs) = seqZ idx (Z.of_nat (length qs)).
Proof.
  revert idx; induction qs as [|q qs IH]; intros idx H; [done|].
  cbn [values ids map length]. rewrite (seqZ_cons idx) by lia. f_equal.
  - rewrite (H 0 q eq_refl). cbn. lia.
  - replace (Z.pred (Z.of_nat (S (length qs)))) with (Z.of_nat (length qs))
      by lia.
    apply IH. intros i l Hi. rewrite (H (S i) l Hi). f_equal. lia.
Qed.

Lemma NoDup_old_fresh (old : list loc) (b m : nat) :
  NoDup old -> Forall (fun l => l < b) old -> NoDup (old ++ seq b m).
Proof.
  intros Hnd Hold. apply NoDup_app. split; [done|]. split; [|apply NoDup_seq].
  intros x Hx Hs. apply elem_of_seq in Hs.
  rewrite Forall_forall in Hold. specialize (Hold x Hx). lia.
Qed.

(** What the rebuild returns. *)
Lemma rebuild_structure_shape questions role n h :
  NoDup questions ->
  Forall (fun l => l < length h) questions ->
  (1 <= n)%Z ->
  exists locs h',
    rebuild_structure questions role n h = Some (locs, h')
    /\ length locs = Z.to_nat n
    /\ ids (values h' locs) = one_to (length locs)
    /\ (exists l, locs !! 0 = Some l
                  /\ is_intro_question (deref h' l) = true)
    /\ ((2 < n)%Z ->
        exists l, locs !! (length locs - 1) = Some l
                  /\ is_closing_question (deref h' l) = true).
Proof.
  intros Hnd Hvalid Hn. unfold rebuild_structure.
  unfold bind at 1, gets at 1.
  destruct (extract_roles h questions None None []) as [[i0 c0] mid] eqn:Hex.
  cbn [fst snd].
  apply extract_roles_spec in Hex as (Hperm & Hi0 & Hc0).
  cbn [olist app] in Hperm. rewrite app_nil_r in Hperm.
  assert (Hold_nd : NoDup (olist i0 ++ mid ++ olist c0)) by by rewrite Hperm.
  assert (Hold_valid : Forall (fun l => l < length h)
                              (olist i0 ++ mid ++ olist c0))
    by by rewrite Hperm.
  assert (Hi0_valid : forall q, i0 = Some q -> q < length h).
  { intros q ->. rewrite Forall_forall in Hold_valid.
    apply Hold_valid. cbn [olist]. rewrite elem_of_app. left.
    by apply list_elem_of_singleton. }
  assert (Hc0_valid : forall q, c0 = Some q -> q < length h).
  { intros q ->. rewrite Forall_forall in Hold_valid.
    apply Hold_valid. cbn [olist]. rewrite !elem_of_app. right. right.
    by apply list_elem_of_singleton. }
  (* the intro *)
  assert (Hintro : exists li e1,
    match i0 with
    | Some q => ret q
    | None => new_dict (default_intro role)
    end h = Some (li, h ++ e1)
    /\ [li] = olist i0 ++ seq (length h) (length e1)
    /\ is_intro_question (deref (h ++ e1) li) = true
    /\ li < length (h ++ e1)).
  { destruct i0 as [li|].
    - exists li, []. rewrite app_nil_r. split_and!; [done|done| |].
      + by destruct (Hi0 li eq_refl).
      + by apply Hi0_valid.
    - exists (length h), [default_intro role]. split_and!; [done|done| |].
      + unfold deref. rewrite list_lookup_total_middle by done.
        apply is_intro_default_intro.
      + rewrite length_app. cbn. lia. }
  destruct Hintro as (li & e1 & Hrun1 & Hli & Hli_intro & Hli_valid).
  unfold bind at 1. rewrite Hrun1. clear Hrun1.
  set (h1 := h ++ e1) in *.
  assert (Hlen1 : length h1 = length h + length e1) by apply length_app.
  (* the closing *)
  assert (Hclosing : exists lco e2,
    match c0 with
    | Some q => ret (Some q)
    | None =>
        if (2 <? n)%Z
        then do c <- new_dict (default_closing 999); ret (Some c)
        else ret None
    end h1 = Some (lco, h1 ++ e2)
    /\ olist lco = olist c0 ++ seq (length h1) (length e2)
    /\ (forall lc, lco = Some lc ->
          is_closing_question (deref (h1 ++ e2) lc) = true
          /\ lc < length (h1 ++ e2))
    /\ (lco = None -> (n <= 2)%Z)).
  { destruct c0 as [lc|].
    - assert (Hlc : lc < length h) by by apply Hc0_valid.
      exists (Some lc), []. rewrite app_nil_r.
      split_and!; [done|by rewrite app_nil_r| |done].
      intros lc' [= <-]. split.
      + destruct (Hc0 lc eq_refl) as [|Hc]; [done|].
        unfold h1. by rewrite deref_app_l.
      + lia.
    - destruct (2 <? n)%Z eqn:H2.
      + exists (Some (length h1)), [default_closing 999].
        split_and!; [done|done| |done].
        intros lc' [= <-]. split.
        * unfold deref. by rewrite list_lookup_total_middle.
        * rewrite length_app. cbn. lia.
      + exists None, []. rewrite app_nil_r. apply Z.ltb_ge in H2.
        split_and!; done. }
  destruct Hclosing as (lco & e2 & Hrun2 & Hlco & Hlco_closing & Hlco_none).
  unfold bind at 1. rewrite Hrun2. clear Hrun2.
  set (h2 := h1 ++ e2) in *.
  assert (Hlen2 : length h2 = length h1 + length e2) by apply length_app.
  set (t := (n - (if lco is Some _ then 2 else 1))%Z).
  (* the gap filler *)
  assert (Hmid_valid : Forall (fun l => l < length h2) mid).
  { apply Forall_app in Hold_valid as [_ Hv].
    apply Forall_app in Hv as [Hv _].
    eapply Forall_impl; [exact Hv|]. cbn. intros l Hl. lia. }
  destruct (gap_fill_spec (Z.to_nat t) t mid 0 h2 Hmid_valid)
    as (vs & Hrun3 & Hvs & _); [lia|].
  unfold bind at 1. rewrite Hrun3. clear Hrun3.
  set (h3 := h2 ++ vs) in *.
  assert (Hlen3 : length h3 = length h2 + length vs) by apply length_app.
  set (mid' := mid ++ seq (length h2) (length vs)) in *.
  set (final := match lco with
                | Some c => [li] ++ py_take mid' t ++ [c]
                | None => [li] ++ py_take mid' t
                end).
  assert (Hfinal : final = [li] ++ py_take mid' t ++ olist lco)
    by (unfold final; destruct lco; cbn [olist]; by rewrite ?app_nil_r).
  clearbody final.
  (* the objects of the final list are distinct and allocated *)
  assert (Hfinal_nd : NoDup final).
  { rewrite Hfinal.
    eapply (sublist_NoDup _ ([li] ++ mid' ++ olist lco)).
    2:{ apply sublist_app; [done|]. apply sublist_app; [|done].
        destruct (py_take_is_take mid' t) as [m ->]. apply sublist_take. }
    rewrite Hli, Hlco. unfold mid'.
    assert (Hp : (olist i0 ++ seq (length h) (length e1))
                   ++ (mid ++ seq (length h2) (length vs))
                   ++ olist c0 ++ seq (length h1) (length e2)
                 ≡ₚ (olist i0 ++ mid ++ olist c0)
                    ++ seq (length h) (length e1 + length e2 + length vs)).
    { rewrite !seq_app.
      replace (length h + length e1) with (length h1) by lia.
      replace (length h + (length e1 + length e2)) with (length h2) by lia.
      solve_Permutation. }
    rewrite Hp. by apply NoDup_old_fresh. }
  assert (Hfinal_valid : Forall (fun l => l < length h3) final).
  { rewrite Hfinal.
    apply Forall_app. split.
    { apply Forall_singleton. lia. }
    apply Forall_app. split.
    - apply Forall_py_take. unfold mid'. apply Forall_app. split.
      + eapply Forall_impl; [exact Hmid_valid|]. cbn. intros. lia.
      + apply Forall_forall. intros x Hx. apply elem_of_seq in Hx. lia.
    - destruct lco as [lc|]; [|constructor].
      apply Forall_singleton.
      destruct (Hlco_closing lc eq_refl) as [_ Hlt]. lia. }
  destruct (assign_ids_spec final 1 h3)
    as (h4 & Hrun4 & Hlen4 & _ & Hsame & Hids).
  specialize (Hids Hfinal_nd Hfinal_valid).
  unfold bind at 1. rewrite Hrun4. unfold ret.
  exists (py_take final n), h4. split; [done|].
  (* the intro and the closing keep their texts *)
  assert (Hintro4 : is_intro_question (deref h4 li) = true).
  { rewrite (is_intro_same_content _ _ (Hsame li)).
    unfold h3, h2. rewrite <- app_assoc.
    by rewrite deref_app_l. }
  assert (Hclosing4 : forall lc, lco = Some lc ->
                        is_closing_question (deref h4 lc) = true).
  { intros lc Hlc. destruct (Hlco_closing lc Hlc) as [Hc Hlt].
    rewrite (is_closing_same_content _ _ (Hsame lc)).
    unfold h3. by rewrite deref_app_l. }
  assert (Hmid'_len : (t <= Z.of_nat (length mid'))%Z).
  { unfold mid'. rewrite length_app, length_seq. lia. }
  assert (Hprefix_ids : forall m,
    ids (values h4 (take m final)) = one_to (length (take m final))).
  { intros m. apply (ids_of_assigned h3). intros i l Hi.
    apply lookup_take_Some in Hi as [Hi _]. by apply Hids. }
  destruct (py_take_is_take final n) as [m Hm].
  rewrite Hm. rewrite Hprefix_ids. rewrite <- Hm.
  (* lengths *)
  destruct lco as [lc|]; cbn [olist] in Hfinal.
  - (* a closing exists: the target is n - 2 *)
    subst t. destruct (decide (n = 1%Z)) as [Hn1|Hn1].
    + (* n = 1: only the intro survives the final slice *)
      assert (Hres : py_take final n = [li]).
      { rewrite py_take_nonneg by lia.
        replace (Z.to_nat n) with 1 by lia. by rewrite Hfinal. }
      rewrite !Hres. cbn [length]. split_and!; [lia|done| |lia].
      exists li. by split.
    + assert (Ht : length (py_take mid' (n - 2)) = Z.to_nat (n - 2)).
      { rewrite py_take_nonneg by lia. rewrite length_take. lia. }
      assert (Hlen_final : length final = Z.to_nat n).
      { rewrite Hfinal. rewrite !length_app, Ht. cbn [length]. lia. }
      assert (Hres : py_take final n = final)
        by (apply py_take_all; lia).
      rewrite !Hres. split; [done|]. split; [done|]. split.
      * exists li. split; [by rewrite Hfinal|done].
      * intros _. exists lc. split; [|by apply Hclosing4].
        rewrite Hlen_final, Hfinal.
        rewrite (app_assoc [li]).
        rewrite lookup_app_r; rewrite length_app, Ht; cbn [length]; [|lia].
        by replace (Z.to_nat n - 1 - (1 + Z.to_nat (n - 2))) with 0 by lia.
  - (* no closing: n <= 2 and the target is n - 1 *)
    subst t. specialize (Hlco_none eq_refl).
    rewrite app_nil_r in Hfinal.
    assert (Ht : length (py_take mid' (n - 1)) = Z.to_nat (n - 1)).
    { rewrite py_take_nonneg by lia. rewrite length_take. lia. }
    assert (Hlen_final : length final = Z.to_nat n).
    { rewrite Hfinal. rewrite !length_app, Ht. cbn [length]. lia. }
    assert (Hres : py_take final n = final)
      by (apply py_take_all; lia).
    rewrite !Hres. split; [done|]. split; [done|]. split; [|lia].
    exists li. split; [by rewrite Hfinal|done].
Qed.

End EnforcerShape.

Section EnforcerClaim.
Implicit Types (h : Heap) (questions : list loc).

(** C1 (as the code has it).  For a list of distinct candidate questions
    and a requested count [n >= 1]: an empty list is returned empty; from a
    non-empty list the script the enforcer returns has ids 1..len in
    sequence order, an intro first and, whenever it has more than two
    entries, a closing last.  Candidates that already pass the structure
    test are returned as they are, whatever [n] is; otherwise the script has
    exactly [n] entries. *)
Theorem enforce_structure_shape questions (role : string) (n : Z) h :
  NoDup questions ->
  Forall (fun l => l < length h) questions ->
  (1 <= n)%Z ->
  exists locs h',
    _enforce_interview_structure questions role n h = Some (locs, h')
    /\ (questions = [] -> locs = [] /\ h' = h)
    /\ (questions <> [] ->
        ids (values h' locs) = one_to (length locs)
        /\ (exists l, locs !! 0 = Some l
                      /\ is_intro_question (deref h' l) = true)
        /\ (2 < length locs ->
            exists l, locs !! (length locs - 1) = Some l
                      /\ is_closing_question (deref h' l) = true)
        /\ (if already_valid h questions then locs = questions
            else length locs = Z.to_nat n)).
Proof.
  intros Hnd Hvalid Hn.
  destruct (decide (questions = [])) as [->|Hne].
  { exists [], h. split; [done|]. split; [done|]. by intros []. }
  destruct (already_valid h questions) eqn:Hv.
  - rewrite enforce_valid_path by done.
    destruct (assign_ids_spec questions 1 h)
      as (h' & Hrun & Hlen & _ & Hsame & Hids).
    specialize (Hids Hnd Hvalid).
    exists questions, h'. unfold bind, ret. rewrite Hrun.
    unfold already_valid in Hv. apply andb_true_iff in Hv as [Hi Hc].
    split; [done|]. split; [done|]. intros _.
    split_and!; [| | |done].
    + by apply (ids_of_assigned h).
    + exists (questions !!! 0). split.
      * apply list_lookup_lookup_total_lt. destruct questions; [done|cbn; lia].
      * by rewrite (is_intro_same_content _ _ (Hsame _)).
    + intros H2. exists (questions !!! (length questions - 1)). split.
      * apply list_lookup_lookup_total_lt. lia.
      * rewrite (is_closing_same_content _ _ (Hsame _)).
        rewrite (proj2 (Nat.leb_gt _ _)) in Hc by lia. done.
  - rewrite enforce_repair_path by done.
    destruct (rebuild_structure_shape questions role n h Hnd Hvalid Hn)
      as (locs & h' & Hrun & Hlen & Hids & Hintro & Hclosing).
    exists locs, h'. split; [done|]. split; [done|]. intros _.
    split_and!; try done.
    intros H2. apply Hclosing. lia.
Qed.

Lemma enforce_structure_shape_witness :
  exists locs h',
    _enforce_interview_structure [0; 1] "Developer" 4
      [sample_plain 3 "What is a closure?"; sample_plain 9 "What is a monad?"]
    = Some (locs, h')
    /\ ids (values h' locs) = one_to (length locs)
    /\ length locs = 4.
Proof.
  destruct (enforce_structure_shape [0; 1] "Developer" 4
              [sample_plain 3 "What is a closure?";
               sample_plain 9 "What is a monad?"])
    as (locs & h' & H1 & _ & H2).
  - apply (bool_decide_unpack _). vm_compute. exact I.
  - repeat constructor.
  - lia.
  - destruct H2 as (H2 & _ & _ & H3); [discriminate|].
    exists locs, h'. split_and!; [done|done|exact H3].
Defined.

(** The script promised for every candidate list and every [n >= 1] is
    not what comes back: from no candidates nothing is returned; an
    already valid list keeps its own length; a rebuilt script of two
    questions ends with a middle question; and a list that holds the same
    dictionary twice cannot be numbered 1, 2. *)
Lemma enforce_structure_not_as_specified :
  ~ (exists locs h',
       _enforce_interview_structure [] "Developer" 1 [] = Some (locs, h')
       /\ script_as_specified h' locs 1)
  /\ ~ (exists locs h',
          _enforce_interview_structure [0] "Developer" 5 [sample_intro]
          = Some (locs, h')
          /\ script_as_specified h' locs 5)
  /\ ~ (exists locs h',
          _enforce_interview_structure [0; 1] "Developer" 2
            [sample_plain 1 "What is a closure?";
             sample_plain 2 "What is a monad?"]
          = Some (locs, h')
          /\ script_as_specified h' locs 2)
  /\ ~ (exists locs h',
          _enforce_interview_structure [0; 0] "Developer" 2 [sample_intro]
          = Some (locs, h')
          /\ script_as_specified h' locs 2).
Proof.
  split_and!; intros (locs & h' & Hrun & Hlen & Hids & Hintro & Hclosing);
    vm_compute in Hrun; injection Hrun as <- <-.
  - discriminate Hlen.
  - discriminate Hlen.
  - destruct Hclosing as (l & Hl & Hc); [lia|].
    cbn in Hl. injection Hl as <-. vm_compute in Hc. discriminate.
  - vm_compute in Hids. discriminate Hids.
Qed.

End EnforcerClaim.

(** ** Cyclic filling *)

Section CyclicFilling.
Implicit Types (h : Heap) (pool final middle : list loc).

#[local] Abbreviation follow_up := " (Follow-up / Alternate angle)".
#[local] Abbreviation extended := " (Extended discussion)".

(** Cyclic filling as [get_fallback_questions] does it: every appended
    entry is a new object, the sources are left as they are, the entry at
    position [i] below the pool length is an untouched copy of source [i],
    and the entry at a wrap-around position is a copy of source
    [i mod length pool] tagged once. *)
Lemma cyclic_fill_wraps_once pool (n : Z) final h :
  pool <> [] ->
  Forall (fun l => l < length h) pool ->
  exists new h',
    cyclic_fill (Z.to_nat n) pool n 0 final h = Some (final ++ new, h')
    /\ length new = Z.to_nat (n - 1 - Z.of_nat (length final))
    /\ (forall l, l < length h -> h' !! l = h !! l)
    /\ NoDup new
    /\ Forall (fun l => length h <= l < length h') new
    /\ (forall i l, new !! i = Some l ->
          deref h' l
          = (if length pool <=? i
             then append_context follow_up
                    (deref h (pool !!! (i mod length pool)))
             else deref h (pool !!! i))).
Proof.
  intros Hne Hvalid.
  rewrite cyclic_fill_spec by (done || lia).
  set (k := Z.to_nat (n - 1 - Z.of_nat (length final))).
  set (vs := map (cyclic_entry follow_up (values h pool)) (seq 0 k)).
  assert (Hk : length vs = k) by (unfold vs; by rewrite length_map, length_seq).
  exists (seq (length h) k), (h ++ vs).
  split_and!; [done|by rewrite length_seq| |apply NoDup_seq| |].
  - intros l Hl. by apply lookup_app_l.
  - apply Forall_forall. intros l Hl%elem_of_seq. rewrite length_app. lia.
  - intros i l Hi. apply lookup_seq in Hi as [-> Hi].
    unfold deref at 1. rewrite lookup_total_app_r by lia.
    replace (length h + i - length h) with i by lia.
    assert (Hvs : vs !! i = Some (cyclic_entry follow_up (values h pool) i)).
    { unfold vs. change (map ?f ?l) with (f <$> l).
      rewrite list_lookup_fmap, lookup_seq_lt by done. done. }
    rewrite (list_lookup_total_correct _ _ _ Hvs).
    unfold cyclic_entry. rewrite length_values.
    assert (Hlen : 0 < length pool) by (destruct pool; [done|cbn; lia]).
    rewrite values_lookup_total by (apply Nat.mod_upper_bound; lia).
    destruct (length pool <=? i) eqn:Hw; [done|].
    apply Nat.leb_gt in Hw. by rewrite Nat.mod_small.
Qed.

(** The gap filler of the enforcer indexes the list it is appending to:
    once the fill runs past twice the number of source entries, the entry
    it copies is itself a tagged copy, and the tag is appended again. *)
Lemma gap_fill_tags_again (t : Z) middle h :
  middle <> [] ->
  Forall (fun l => l < length h) middle ->
  (2 * Z.of_nat (length middle) < t)%Z ->
  exists filled h',
    gap_fill (Z.to_nat t) t middle 0 h = Some (filled, h')
    /\ q_context (deref h' (filled !!! (2 * length middle)))
       = (q_context (deref h (middle !!! 0)) +:+ extended) +:+ extended.
Proof.
  intros Hne Hvalid Ht.
  assert (Hlen : 0 < length middle) by (destruct middle; [done|cbn; lia]).
  destruct (gap_fill_spec (Z.to_nat t) t middle 0 h Hvalid)
    as (vs & Hrun & Hvs & Hvals); [lia|].
  specialize (Hvals Hlen).
  exists (middle ++ seq (length h) (length vs)), (h ++ vs).
  split; [done|].
  set (L := length middle) in *.
  assert (H0 : exists v0, vs !! 0 = Some v0)
    by (apply lookup_lt_is_Some_2; lia).
  assert (HL : exists vL, vs !! L = Some vL)
    by (apply lookup_lt_is_Some_2; lia).
  destruct H0 as [v0 H0], HL as [vL HL].
  pose proof (Hvals 0 v0 H0) as E0. pose proof (Hvals L vL HL) as EL.
  cbn [Nat.add] in E0, EL.
  rewrite lookup_total_app_l in E0 by done.
  rewrite deref_app_l in E0
    by (rewrite Forall_forall in Hvalid; apply Hvalid;
        by apply list_elem_of_lookup_total_2).
  rewrite lookup_total_app_r in EL by (fold L; lia).
  fold L in EL. replace (L - L) with 0 in EL by lia.
  assert (Hs0 : seq (length h) (length vs) !!! 0 = length h).
  { apply list_lookup_total_correct. rewrite lookup_seq_lt by lia.
    f_equal. lia. }
  rewrite Hs0 in EL.
  assert (Hd0 : deref (h ++ vs) (length h) = v0).
  { unfold deref. rewrite lookup_total_app_r by lia.
    replace (length h - length h) with 0 by lia.
    by apply list_lookup_total_correct. }
  rewrite Hd0 in EL.
  rewrite lookup_total_app_r by (fold L; lia). fold L.
  replace (2 * L - L) with L by lia.
  assert (HsL : seq (length h) (length vs) !!! L = length h + L).
  { apply list_lookup_total_correct. by rewrite lookup_seq_lt by lia. }
  rewrite HsL.
  assert (HdL : deref (h ++ vs) (length h + L) = vL).
  { unfold deref. rewrite lookup_total_app_r by lia.
    replace (length h + L - length h) with L by lia.
    by apply list_lookup_total_correct. }
  rewrite HdL, EL, E0. reflexivity.
Qed.

(** C8.  The enforcer, asked for five questions and given one candidate
    that is neither intro nor closing, fills three middle slots from a
    source pool of one entry.  The entry at index 2 of the middle (a
    wrap-around position) carries the tag twice, not once. *)
Theorem enforce_gap_fill_double_tag :
  exists locs h',
    _enforce_interview_structure [0] "Developer" 5
      [sample_plain 1 "What is a closure?"] = Some (locs, h')
    /\ map q_context (values h' locs)
       = [ "Opening question to establish rapport";
           "ctx";
           "ctx (Extended discussion)";
           "ctx (Extended discussion) (Extended discussion)";
           "Closing question to assess self-awareness and fit" ]
    /\ q_context (deref h' (locs !!! 3))
       <> q_context (sample_plain 1 "What is a closure?") +:+ extended.
Proof.
  eexists _, _. split; [vm_compute; reflexivity|].
  split; [vm_compute; reflexivity|].
  vm_compute. discriminate.
Qed.

End CyclicFilling.

(** ** ai_utils.py: the rotation *)

Section RotationFacts.
Context {W : Type} (svc : GenAI W) (prompt : string) (is_json : bool).
Implicit Types (st : RotState W) (models all_models : list string).

Lemma attempts_app l1 l2 : attempts (l1 ++ l2) = attempts l1 ++ attempts l2.
Proof.
  induction l1 as [|ev l1 IH]; [done|].
  destruct ev; cbn [app attempts]; by rewrite IH.
Qed.

Lemma attempts_release k file st :
  attempts (log (release svc k file st)) = attempts (log st).
Proof.
  unfold release. destruct file; [|done]. cbn [log].
  rewrite attempts_app. cbn. by rewrite app_nil_r.
Qed.

(** The attempts of the model loop for one key: all on that key, model
    positions increasing, and nothing after a Quota failure. *)
Lemma try_models_trace all_models k file models mi st res st' :
  (forall j name, models !! j = Some name ->
                  all_models !! (mi + j) = Some name) ->
  try_models svc prompt is_json k file models mi st = (res, st') ->
  exists new,
    attempts (log st') = attempts (log st) ++ new
    /\ StronglySorted precedes new
    /\ Forall (fun a => at_key a = k /\ mi <= at_model a
                        /\ all_models !! at_model a = Some (at_name a)) new.
Proof.
  revert mi st; induction models as [|model_name rest IH];
    intros mi st Hnames Hrun.
  - cbn in Hrun. injection Hrun as _ <-. exists [].
    rewrite app_nil_r. split_and!; [done|constructor|constructor].
  - cbn [try_models] in Hrun.
    set (st1 := if (0 <? k) || (0 <? mi)
                then mkRot (last_error st) (log st ++ [EvSleep])
                           (time_sleep svc (world st))
                else st) in Hrun.
    assert (Hst1 : attempts (log st1) = attempts (log st)).
    { unfold st1. destruct ((0 <? k) || (0 <? mi)); [|done].
      cbn [log]. rewrite attempts_app. cbn. by rewrite app_nil_r. }
    destruct (genai_generate svc model_name is_json file prompt (world st1))
      as [r w'] eqn:Hgen.
    set (a := mkAttempt k mi model_name r).
    assert (Ha : at_key a = k /\ mi <= at_model a
                 /\ all_models !! at_model a = Some (at_name a)).
    { split_and!; [done|done|]. cbn.
      rewrite <- (Nat.add_0_r mi). by apply Hnames. }
    assert (Hrest : forall j name, rest !! j = Some name ->
                                   all_models !! (S mi + j) = Some name).
    { intros j name Hj. replace (S mi + j) with (mi + S j) by lia.
      by apply Hnames. }
    assert (Hcont : forall st2,
      attempts (log st2) = attempts (log st) ++ [a] ->
      ~ quota_failure r ->
      try_models svc prompt is_json k file rest (S mi) st2 = (res, st') ->
      exists new,
        attempts (log st') = attempts (log st) ++ new
        /\ StronglySorted precedes new
        /\ Forall (fun a => at_key a = k /\ mi <= at_model a
                            /\ all_models !! at_model a = Some (at_name a))
                  new).
    { intros st2 Hlog Hnq Hrun2.
      destruct (IH (S mi) st2 Hrest Hrun2) as (new & Hnew & Hsorted & Hall).
      exists (a :: new). split_and!.
      - rewrite Hnew, Hlog. by rewrite <- app_assoc.
      - apply StronglySorted_cons. split; [|done].
        eapply Forall_impl; [exact Hall|]. cbn.
        intros b (Hk & Hm & _). right. cbn. split_and!; [done|lia|done].
      - constructor; [done|].
        eapply Forall_impl; [exact Hall|]. cbn.
        intros b (Hk & Hm & Hn). split_and!; [done|lia|done]. }
    assert (Hstop : forall st2,
      attempts (log st2) = attempts (log st) ++ [a] ->
      exists new,
        attempts (log st2) = attempts (log st) ++ new
        /\ StronglySorted precedes new
        /\ Forall (fun a => at_key a = k /\ mi <= at_model a
                            /\ all_models !! at_model a = Some (at_name a))
                  new).
    { intros st2 Hlog. exists [a]. split_and!; [done| |by constructor].
      repeat constructor. }
    assert (Hlog1 : attempts (log st1 ++ [EvGenerate k mi model_name r])
                    = attempts (log st) ++ [a]).
    { rewrite attempts_app, Hst1. done. }
    destruct r as [text|e].
    + destruct (negb (is_empty text)).
      * injection Hrun as _ <-. apply Hstop.
        by rewrite attempts_release.
      * eapply Hcont; [|cbn; tauto|exact Hrun]. done.
    + destruct (classify_error (py_str e)) eqn:Hclass.
      * injection Hrun as _ <-. by apply Hstop.
      * eapply Hcont; [|cbn; congruence|exact Hrun]. done.
      * eapply Hcont; [|cbn; congruence|exact Hrun]. done.
Qed.

Variable multimodal_filepath : option string.
Variable models_to_try : list string.

(** The attempts of the key loop: the model loops of successive keys, one
    after the other. *)
Lemma try_keys_trace keys ki st res st' :
  try_keys svc prompt is_json multimodal_filepath models_to_try keys ki st
  = (res, st') ->
  exists new,
    attempts (log st') = attempts (log st) ++ new
    /\ StronglySorted precedes new
    /\ Forall (fun a => ki <= at_key a
                        /\ models_to_try !! at_model a = Some (at_name a))
              new.
Proof.
  revert ki st; induction keys as [|api_key rest IH]; intros ki st Hrun.
  - cbn in Hrun. injection Hrun as _ <-. exists [].
    rewrite app_nil_r. split_and!; [done|constructor|constructor].
  - cbn [try_keys] in Hrun.
    destruct (genai_configure svc api_key (world st)) as [cfg w1].
    assert (Hnext : forall st2,
      attempts (log st2) = attempts (log st) ->
      try_keys svc prompt is_json multimodal_filepath models_to_try rest
               (S ki) st2 = (res, st') ->
      exists new,
        attempts (log st') = attempts (log st) ++ new
        /\ StronglySorted precedes new
        /\ Forall (fun a => ki <= at_key a
                            /\ models_to_try !! at_model a
                               = Some (at_name a)) new).
    { intros st2 Hlog Hrun2.
      destruct (IH (S ki) st2 Hrun2) as (new & Hnew & Hsorted & Hall).
      exists new. split_and!; [by rewrite Hnew, Hlog|done|].
      eapply Forall_impl; [exact Hall|]. cbn. intros b [Hk Hn].
      split; [lia|done]. }
    assert (Hloop : forall file st2,
      attempts (log st2) = attempts (log st) ->
      match try_models svc prompt is_json ki file models_to_try 0 st2 with
      | (Some text, st3) => (Ok text, st3)
      | (None, st3) =>
          try_keys svc prompt is_json multimodal_filepath models_to_try rest
                   (S ki) (release svc ki file st3)
      end = (res, st') ->
      exists new,
        attempts (log st') = attempts (log st) ++ new
        /\ StronglySorted precedes new
        /\ Forall (fun a => ki <= at_key a
                            /\ models_to_try !! at_model a
                               = Some (at_name a)) new).
    { intros file st2 Hlog Hrun2.
      destruct (try_models svc prompt is_json ki file models_to_try 0 st2)
        as [r st3] eqn:Hmodels.
      apply (try_models_trace models_to_try) in Hmodels
        as (new1 & Hnew1 & Hsorted1 & Hall1); [|done].
      assert (Hall1' : Forall (fun a => ki <= at_key a
                                /\ models_to_try !! at_model a
                                   = Some (at_name a)) new1).
      { eapply Forall_impl; [exact Hall1|]. cbn. intros b (Hk & _ & Hn).
        split; [lia|done]. }
      destruct r as [text|].
      - injection Hrun2 as _ <-. exists new1.
        split_and!; [by rewrite Hnew1, Hlog|done|done].
      - destruct (IH (S ki) _ Hrun2) as (new2 & Hnew2 & Hsorted2 & Hall2).
        exists (new1 ++ new2). split_and!.
        + rewrite Hnew2, attempts_release, Hnew1, Hlog.
          by rewrite <- app_assoc.
        + apply StronglySorted_app. split_and!; [|done|done].
          intros a b Ha Hb. left.
          rewrite Forall_forall in Hall1, Hall2.
          destruct (Hall1 a Ha) as (-> & _). destruct (Hall2 b Hb) as [Hk _].
          lia.
        + apply Forall_app. split; [done|].
          eapply Forall_impl; [exact Hall2|]. cbn. intros b [Hk Hn].
          split; [lia|done]. }
    destruct cfg as [key_setup_err|].
    { eapply Hnext; [|exact Hrun]. done. }
    destruct (falsy_str multimodal_filepath).
    { eapply (Hloop None); [|exact Hrun]. done. }
    cbn [log world last_error] in Hrun.
    destruct (genai_upload_file svc (default EmptyString multimodal_filepath) w1)
      as [up w2].
    assert (Hup : attempts (log st ++ [EvUpload ki up]) = attempts (log st)).
    { rewrite attempts_app. cbn. by rewrite app_nil_r. }
    destruct up as [name|upload_err].
    + eapply (Hloop (Some name)); [|exact Hrun]. done.
    + destruct (contains "429" (py_str upload_err));
        (eapply Hnext; [|exact Hrun]; done).
Qed.

End RotationFacts.

Section RotationClaim.
Context {W : Type} (svc : GenAI W).

Lemma StronglySorted_lookup {A : Type} (R : A -> A -> Prop) (l : list A)
  i j a b :
  StronglySorted R l -> i < j -> l !! i = Some a -> l !! j = Some b -> R a b.
Proof.
  intros Hs. revert i j. induction Hs as [|x l Hs IH Hx]; intros i j Hij Hi Hj.
  - done.
  - destruct j as [|j]; [lia|]. cbn in Hj.
    destruct i as [|i]; cbn in Hi.
    + injection Hi as <-. rewrite Forall_forall in Hx. apply Hx.
      by eapply list_elem_of_lookup_2.
    + eapply IH; [|done|done]. lia.
Qed.

Lemma StronglySorted_NoDup_map {A B : Type} (R : A -> A -> Prop)
  (P : A -> Prop) (f : A -> B) (l : list A) :
  (forall a b, P a -> P b -> R a b -> f a <> f b) ->
  StronglySorted R l -> Forall P l -> NoDup (map f l).
Proof.
  intros Hf Hs. induction Hs as [|x l Hs IH Hx]; intros HP.
  - constructor.
  - apply Forall_cons in HP as [Px HP]. cbn [map]. constructor; [|by apply IH].
    intros Hin. change (map f l) with (f <$> l) in Hin.
    apply list_elem_of_fmap in Hin as (y & Hy & Hyl).
    rewrite Forall_forall in Hx, HP.
    by apply (Hf x y Px (HP y Hyl) (Hx y Hyl)).
Qed.

(** C3.  In one call of the rotation the generation attempts are made in
    increasing order of (credential position, model position): no pair is
    attempted twice, and after an attempt on credential [k] that fails with
    a Quota-classified error every later attempt is on another credential.
    When the model list in use names no model twice, no (credential, model
    name) pair is attempted twice either. *)
Theorem rotation_attempts_once (env : Env) (prompt : string)
  (is_json : bool) (multimodal_filepath : option string)
  (custom_models : option (list string)) (w : W) :
  let att :=
    attempts (log (snd (run_genai_with_rotation svc env prompt is_json
                          multimodal_filepath custom_models w))) in
  StronglySorted precedes att
  /\ NoDup (map (fun a => (at_key a, at_model a)) att)
  /\ (forall i j a b,
        i < j -> att !! i = Some a -> att !! j = Some b ->
        quota_failure (at_outcome a) -> at_key b <> at_key a)
  /\ (NoDup (models_or_default custom_models) ->
      NoDup (map (fun a => (at_key a, at_name a)) att)).
Proof.
  intros att.
  assert (H : StronglySorted precedes att
              /\ Forall (fun a => models_or_default custom_models
                                    !! at_model a = Some (at_name a)) att).
  { unfold att, run_genai_with_rotation.
    destruct (bool_decide (get_api_keys env = [])).
    - cbn. split; constructor.
    - destruct (try_keys svc prompt is_json multimodal_filepath
                  (models_or_default custom_models) (get_api_keys env) 0
                  (mkRot None [] w)) as [res st'] eqn:Hrun.
      apply try_keys_trace in Hrun as (new & Hnew & Hsorted & Hall).
      cbn [snd]. rewrite Hnew. cbn [log attempts app].
      split; [done|].
      eapply Forall_impl; [exact Hall|]. cbn. by intros a [_ Ha]. }
  destruct H as [Hsorted Hnames].
  split; [done|]. split_and!.
  - eapply (StronglySorted_NoDup_map precedes (fun _ => True));
      [|done|by apply Forall_true].
    intros a b _ _ [Hk|(Hk & Hm & _)] [= Hk' Hm']; lia.
  - intros i j a b Hij Ha Hb Hq.
    pose proof (StronglySorted_lookup _ _ _ _ _ _ Hsorted Hij Ha Hb)
      as [Hk|(_ & _ & Hnq)]; [lia|done].
  - intros Hnd.
    eapply (StronglySorted_NoDup_map precedes); [|done|exact Hnames].
    cbn. intros a b Ha Hb [Hk|(Hk & Hm & _)] [= Hk' Hn']; [lia|].
    rewrite <- Hn' in Hb.
    pose proof (NoDup_lookup _ _ _ _ Hnd Ha Hb). lia.
Qed.

End RotationClaim.

Lemma CANDIDATE_MODELS_NoDup : NoDup CANDIDATE_MODELS.
Proof. apply (bool_decide_unpack _). vm_compute. exact I. Qed.

Lemma rotation_attempts_once_witness :
  let att :=
    attempts (log (snd (run_genai_with_rotation (quota_then 2 "hello")
                          (env_with "GEMINI_API_KEYS" "k1,k2,k3") "prompt"
                          true None None 0))) in
  map (fun a => (at_key a, at_name a)) att
  = [ (0, "gemini-2.5-flash"); (1, "gemini-2.5-flash");
      (2, "gemini-2.5-flash") ]
  /\ NoDup (map (fun a => (at_key a, at_name a)) att).
Proof.
  split; [vm_compute; reflexivity|].
  apply (rotation_attempts_once (quota_then 2 "hello")
           (env_with "GEMINI_API_KEYS" "k1,k2,k3") "prompt" true None None 0).
  apply CANDIDATE_MODELS_NoDup.
Defined.

(** ** Error classification *)

Section Classification.

Lemma classify_quota_iff err_str :
  classify_error err_str = Quota <-> contains "429" err_str = true.
Proof.
  unfold classify_error. destruct (contains "429" err_str); [done|].
  destruct (contains "404" err_str); split; discriminate.
Qed.

(** C4 (as the code has it).  The class of an error is read off its
    rendered text [str(e)]: Quota when the text contains "429", otherwise
    ModelUnavailable when it contains "404", otherwise Transient.  Errors
    with the same rendering classify alike.  The status code counts
    because it is part of the rendering: an error with code 429 is Quota
    whatever its message.  So does the message: an error with any code
    whose message contains "429" is Quota too. *)
Theorem classification_is_textual (e : PyError) :
  (forall e', py_str e = py_str e' ->
              classify_error (py_str e) = classify_error (py_str e'))
  /\ (classify_error (py_str e) = Quota
      <-> contains "429" (py_str e) = true)
  /\ (classify_error (py_str e) = ModelUnavailable
      <-> contains "429" (py_str e) = false
          /\ contains "404" (py_str e) = true)
  /\ (err_code e = Some 429%Z -> classify_error (py_str e) = Quota)
  /\ (contains "429" (err_message e) = true ->
      classify_error (py_str e) = Quota).
Proof.
  split_and!.
  - by intros e' ->.
  - apply classify_quota_iff.
  - unfold classify_error.
    destruct (contains "429" (py_str e)), (contains "404" (py_str e));
      split; try done; by intros [? ?].
  - intros Hc. apply classify_quota_iff. unfold py_str. rewrite Hc.
    apply contains_app_l. vm_compute. reflexivity.
  - intros Hm. apply classify_quota_iff. unfold py_str.
    destruct (err_code e); [|done].
    apply contains_app_r. by apply contains_app_r.
Qed.

Lemma classification_is_textual_witness :
  classify_error (py_str quota_error) = Quota
  /\ classify_error (py_str internal_error_with_id) = Quota.
Proof.
  split.
  - destruct (classification_is_textual quota_error) as (_ & _ & _ & H & _).
    by apply H.
  - destruct (classification_is_textual internal_error_with_id)
      as (_ & _ & _ & _ & H).
    apply H. vm_compute. reflexivity.
Defined.

(** Two errors with the same status code and different messages are
    classified differently, and the rotation treats them differently: on
    the first it tries every model of the key, on the second it gives the
    key up after one attempt. *)
Lemma classification_depends_on_message_text :
  err_code internal_error = err_code internal_error_with_id
  /\ classify_error (py_str internal_error) = Transient
  /\ classify_error (py_str internal_error_with_id) = Quota
  /\ length (attempts (log (snd (run_genai_with_rotation
               (constant_service (Raise internal_error))
               (env_with "RECRUITER_API_KEYS" "k1") "prompt" true None None
               0)))) = 6
  /\ length (attempts (log (snd (run_genai_with_rotation
               (constant_service (Raise internal_error_with_id))
               (env_with "RECRUITER_API_KEYS" "k1") "prompt" true None None
               0)))) = 1.
Proof. split_and!; vm_compute; reflexivity. Qed.

End Classification.

(** ** evaluator.py *)

Section EvaluatorFacts.
Context {W : Type} (svc : GenAI W) (libs : PyLibs) (env : Env).





End EvaluatorFacts.

Lemma as_strs_items_JStr xs : as_strs_items (map JStr xs) = Some xs.
Proof. induction xs as [|x xs IH]; [done|]. cbn. by rewrite IH. Qed.

Lemma sample_libs_laws : PyLibsLaws sample_libs.
Proof.
  constructor.
  - intros n f ks i a. cbn. unfold strict_EvaluationResult. cbn.
    by rewrite as_strs_items_JStr.
  - intros t f ft s e p. cbn. unfold strict_ResumeData. cbn.
    by rewrite !as_strs_items_JStr.
Qed.



(** ** Missing credentials *)

Section NoCredentials.
Context {W : Type} (svc : GenAI W) (libs : PyLibs) (env : Env)
        (fs : FileSystem).

#[local] Abbreviation no_key_message := "No GEMINI_API_KEY found in .env".

Lemma rotation_without_keys prompt is_json path custom (w : W) :
  get_api_keys env = [] ->
  run_genai_with_rotation svc env prompt is_json path custom w
  = (Raise (plain_error no_key_message), mkRot None [] w).
Proof. intros Hk. unfold run_genai_with_rotation. by rewrite Hk. Qed.

(** C6 (as the code has it).  Without a usable credential the rotation
    raises the configuration error before any attempt.  Two of its callers
    catch it by design: answer evaluation returns the generic fallback
    result (score 0, the message in the feedback), and question generation
    returns the script of the static bank.  The multimodal resume tier, taken
    when the native text is shorter than 50 characters, lets it through,
    wrapped as "AI Scan failed: ...". *)
Theorem no_credentials_outcomes (w : W) :
  get_api_keys env = [] ->
  (forall prompt is_json path custom,
     run_genai_with_rotation svc env prompt is_json path custom w
     = (Raise (plain_error no_key_message), mkRot None [] w))
  /\ (forall question answer kws,
        evaluate svc libs env question answer kws w
        = mkEvaluationResult 0
            "Evaluation service unavailable. Error: No GEMINI_API_KEY found in .env..."
            [] "Check API Connection." "No ideal answer provided.")
  /\ (forall resume_text role n difficulty job_description auto h,
        generate_questions svc libs env resume_text role n difficulty
                           job_description auto w h
        = get_fallback_questions resume_text role n h)
  /\ (forall filepath text,
        native_text fs (lower (splitext_ext filepath)) filepath = Ok text ->
        (String.length (strip text) <? 50) = true ->
        parse_resume svc libs env fs filepath w
        = Raise (plain_error
                   "AI Scan failed: No GEMINI_API_KEY found in .env")).
Proof.
  intros Hk. split_and!.
  - intros. by apply rotation_without_keys.
  - intros question answer kws. unfold evaluate, evaluate_try.
    by rewrite rotation_without_keys.
  - intros. unfold generate_questions.
    by rewrite rotation_without_keys.
  - intros filepath text Hnative Hshort. unfold parse_resume.
    rewrite Hnative, Hshort.
    unfold scanned_branch, parse_scanned_resume_multimodal,
      multimodal_try, _get_model_response.
    by rewrite rotation_without_keys.
Qed.

End NoCredentials.

Lemma no_credentials_outcomes_witness :
  score (evaluate (constant_service (Ok score_seven_response)) sample_libs
                  no_env "What is React?" "A library." [] 0) = 0%Z
  /\ parse_resume (constant_service (Ok score_seven_response)) sample_libs
                  no_env (one_txt "cv.txt" "Jane Doe, engineer") "cv.txt" 0
     = Raise (plain_error "AI Scan failed: No GEMINI_API_KEY found in .env").
Proof.
  destruct (no_credentials_outcomes
              (constant_service (Ok score_seven_response)) sample_libs no_env
              (one_txt "cv.txt" "Jane Doe, engineer") 0 eq_refl)
    as (_ & H2 & _ & H4).
  split.
  - by rewrite H2.
  - exact (H4 "cv.txt" "Jane Doe, engineer" eq_refl eq_refl).
Defined.

(** Without any credential, answer evaluation and question generation hand
    back a result object instead of the configuration error. *)
Lemma no_credentials_still_return_results :
  get_api_keys no_env = []
  /\ evaluate (constant_service (Ok score_seven_response)) sample_libs no_env
              "What is React?" "A library." [] 0
     = mkEvaluationResult 0
         "Evaluation service unavailable. Error: No GEMINI_API_KEY found in .env..."
         [] "Check API Connection." "No ideal answer provided."
  /\ (exists locs h',
        generate_questions (constant_service (Ok score_seven_response))
          sample_libs no_env "I used React and Docker" "Backend Engineer" 6
          "mixed" EmptyString false 0 module_heap = Some (locs, h')
        /\ length locs = 6).
Proof.
  split_and!; try (vm_compute; reflexivity).
  eexists _, _. split; vm_compute; reflexivity.
Qed.

(** ** More on strings: what [strip] and [replace] keep *)

Section StripReplaceFacts.
Implicit Types (s k old : string) (c a : ascii).

Lemma startswith_cons_inv c s a k :
  startswith (String c s) (String a k) = true ->
  a = c /\ startswith s k = true.
Proof.
  cbn. intros [H1 H2]%andb_true_iff. by apply Ascii.eqb_eq in H1.
Qed.

Lemma startswith_contains s k : startswith s k = true -> contains k s = true.
Proof. intros H. destruct s; cbn [contains]; by rewrite H. Qed.

Lemma contains_nonempty a k s :
  contains (String a k) s = true -> is_empty s = false.
Proof. by destruct s. Qed.

Lemma contains_lstrip a k s :
  is_space a = false ->
  contains (String a k) s = true -> contains (String a k) (lstrip s) = true.
Proof.
  intros Ha. induction s as [|c s IH]; [done|]. intros H.
  cbn [lstrip]. destruct (is_space c) eqn:Hc; [|done].
  cbn [contains] in H. apply orb_true_iff in H as [H|H]; [|by apply IH].
  apply startswith_cons_inv in H as [-> _]. congruence.
Qed.

Lemma startswith_rstrip s k :
  all_chars (fun c => negb (is_space c)) k = true ->
  startswith s k = true -> startswith (rstrip s) k = true.
Proof.
  revert s; induction k as [|a k IH]; intros s Hk H; [done|].
  destruct s as [|c s]; [done|].
  apply startswith_cons_inv in H as [-> H].
  cbn [all_chars] in Hk. apply andb_true_iff in Hk as [Hc Hk].
  apply negb_true_iff in Hc.
  cbn [rstrip]. rewrite Hc. cbn [andb startswith].
  rewrite (proj2 (Ascii.eqb_eq c c) eq_refl). by apply IH.
Qed.

Lemma contains_rstrip a k s :
  all_chars (fun c => negb (is_space c)) (String a k) = true ->
  contains (String a k) s = true -> contains (String a k) (rstrip s) = true.
Proof.
  intros Hk. induction s as [|c s IH]; [done|]. intros H.
  cbn [contains] in H. apply orb_true_iff in H as [H|H].
  - apply startswith_contains. by apply startswith_rstrip.
  - specialize (IH H). cbn [rstrip].
    rewrite (contains_nonempty _ _ _ IH), andb_false_r.
    cbn [contains]. rewrite IH. apply orb_true_r.
Qed.

Lemma contains_strip a k s :
  all_chars (fun c => negb (is_space c)) (String a k) = true ->
  contains (String a k) s = true -> contains (String a k) (strip s) = true.
Proof.
  intros Hk H. unfold strip. apply contains_rstrip; [done|].
  apply contains_lstrip; [|done].
  cbn [all_chars] in Hk. apply andb_true_iff in Hk as [Hc _].
  by apply negb_true_iff in Hc.
Qed.

Lemma startswith_strip a k s :
  all_chars (fun c => negb (is_space c)) (String a k) = true ->
  startswith s (String a k) = true ->
  startswith (strip s) (String a k) = true.
Proof.
  intros Hk H. unfold strip. apply startswith_rstrip; [done|].
  destruct s as [|c s]; [done|].
  pose proof H as [-> _]%startswith_cons_inv.
  cbn [all_chars] in Hk. apply andb_true_iff in Hk as [Hc _].
  apply negb_true_iff in Hc. cbn [lstrip]. by rewrite Hc.
Qed.

Lemma startswith_take s k :
  startswith s k = true -> str_take (String.length k) s = k.
Proof.
  revert s; induction k as [|a k IH]; intros s H; [by destruct s|].
  destruct s as [|c s]; [done|].
  apply startswith_cons_inv in H as [-> H]. cbn. by rewrite IH.
Qed.

Lemma char_in_head_neq c a old :
  char_in c (String a old) = false -> c <> a.
Proof.
  cbn. intros [H _]%orb_false_iff. by apply Ascii.eqb_neq in H.
Qed.

Section Removal.
Variables (o : ascii) (old' : string).
Let old := String o old'.
Hypothesis old_tail : all_chars (fun c => char_in c old) old' = true.

(** A text none of whose characters occurs in [old] survives the removal
    of [old] at the front of a string. *)
Lemma startswith_remove s k :
  all_chars (fun c => negb (char_in c old)) k = true ->
  startswith s k = true ->
  startswith (replace_from old EmptyString 0 s) k = true.
Proof.
  revert s; induction k as [|a k IH]; intros s Hk H; [done|].
  destruct s as [|c s]; [done|].
  apply startswith_cons_inv in H as [-> H].
  cbn [all_chars] in Hk. apply andb_true_iff in Hk as [Hc Hk].
  apply negb_true_iff in Hc.
  cbn [replace_from].
  assert (Hno : startswith (String c s) old = false).
  { unfold old. cbn [startswith].
    apply char_in_head_neq in Hc.
    rewrite (proj2 (Ascii.eqb_neq o c)) by congruence. done. }
  rewrite Hno. cbn [startswith].
  rewrite (proj2 (Ascii.eqb_eq c c) eq_refl). by apply IH.
Qed.

(** ... and anywhere in it. *)
Lemma contains_remove a k s skip :
  all_chars (fun c => negb (char_in c old)) (String a k) = true ->
  all_chars (fun c => char_in c old) (str_take skip s) = true ->
  contains (String a k) s = true ->
  contains (String a k) (replace_from old EmptyString skip s) = true.
Proof.
  intros Hk. revert skip; induction s as [|c s IH]; intros skip Hskip H;
    [done|].
  assert (Ha : char_in a old = false).
  { cbn [all_chars] in Hk. apply andb_true_iff in Hk as [Hc _].
    by apply negb_true_iff in Hc. }
  cbn [contains] in H. cbn [replace_from].
  destruct skip as [|skip].
  - destruct (startswith (String c s) old) eqn:Hold.
    + cbn [String.append].
      apply orb_true_iff in H as [H|H].
      * apply startswith_cons_inv in H as [-> _].
        unfold old in Hold. apply startswith_cons_inv in Hold as [-> _].
        apply char_in_head_neq in Ha. done.
      * apply IH; [|done].
        unfold old in Hold. apply startswith_cons_inv in Hold as [_ Hold].
        replace (String.length old - 1) with (String.length old')
          by (unfold old; cbn [String.length]; lia).
        by rewrite (startswith_take _ _ Hold).
    + apply orb_true_iff in H as [H|H].
      * apply startswith_contains.
        pose proof (startswith_remove (String c s) (String a k) Hk H) as Hr.
        cbn [replace_from] in Hr. by rewrite Hold in Hr.
      * cbn [contains]. rewrite (IH 0); [apply orb_true_r|done|done].
  - cbn [str_take all_chars] in Hskip.
    apply andb_true_iff in Hskip as [Hc Hskip].
    apply orb_true_iff in H as [H|H].
    + apply startswith_cons_inv in H as [-> _]. congruence.
    + by apply IH.
Qed.

End Removal.

(** The quota mark survives the cleanup [parse_resume] applies to the
    error text. *)
Lemma quota_mark_survives err_msg :
  contains "429" err_msg = true ->
  startswith (strip ("AI_ERROR: " +:+ err_msg)) "AI_ERROR:" = true
  /\ contains "429"
       (strip (replace (strip ("AI_ERROR: " +:+ err_msg)) "AI_ERROR:"
                       EmptyString)) = true.
Proof.
  intros H. split.
  - apply startswith_strip; [done|]. by apply (startswith_app "AI_ERROR: ").
  - apply contains_strip; [done|]. unfold replace.
    apply contains_remove; [done|done|done|].
    apply contains_strip; [done|]. by apply contains_app_r.
Qed.

End StripReplaceFacts.

(** ** resume_parser.py: the Quota branch *)

Section ResumeQuota.
Context {W : Type} (svc : GenAI W) (libs : PyLibs) (env : Env)
        (fs : FileSystem).

(** When the multimodal tier fails with a Quota-classified error, the
    text is read again with the PDF reader; any text at all goes through
    the keyword fallback, no text gives the placeholder profile, and a
    [ResumeData] is returned, provided the text read does not itself begin
    with the error marker. *)
Lemma parse_resume_quota_fallback (filepath text : string) (e : PyError)
  (w : W) :
  PyLibsLaws libs ->
  native_text fs (lower (splitext_ext filepath)) filepath = Ok text ->
  (String.length (strip text) <? 50) = true ->
  multimodal_try svc libs env filepath w = Raise e ->
  classify_error (py_str e) = Quota ->
  let recovered := extract_text_from_pdf fs filepath in
  ((10 <? String.length recovered) = true ->
   startswith (strip recovered) "AI_ERROR:" = false) ->
  parse_resume svc libs env fs filepath w
  = Ok (if 0 <? String.length recovered
        then
          let d := _fallback_keyword_extraction recovered in
          mkResumeData
            (if 10 <? String.length recovered then strip recovered
             else recovered)
            (basename filepath) (lower (splitext_ext filepath))
            (kd_skills d) (kd_experience d) []
        else placeholder_profile (basename filepath)
                                 (lower (splitext_ext filepath))).
Proof.
  intros Hlaws Hnative Hshort Htry Hquota recovered Hmarker.
  apply classify_quota_iff in Hquota.
  unfold parse_resume. rewrite Hnative, Hshort.
  unfold scanned_branch, parse_scanned_resume_multimodal.
  rewrite Htry, Hquota. cbn [andb]. fold recovered.
  destruct (10 <? String.length recovered) eqn:Hlong.
  - assert (Hpos : (0 <? String.length recovered) = true).
    { apply Nat.ltb_lt in Hlong. apply Nat.ltb_lt. lia. }
    rewrite Hpos. unfold kd_dict.
    cbn [fields_get String.eqb Ascii.eqb Bool.eqb kd_raw_text
         _fallback_keyword_extraction].
    rewrite (Hmarker eq_refl).
    unfold resume_of_dict.
    cbn [fields_get String.eqb Ascii.eqb Bool.eqb kd_skills kd_experience
         kd_projects].
    apply (make_ResumeData_typed libs Hlaws _ _ _ _ _ []).
  - unfold ai_error_dict.
    cbn [fields_get String.eqb Ascii.eqb Bool.eqb].
    destruct (quota_mark_survives (py_str e) Hquota) as [Hstart Hkeep].
    rewrite Hstart, Hkeep.
    destruct (0 <? String.length recovered).
    + unfold keyword_resume.
      apply (make_ResumeData_typed libs Hlaws).
    + unfold placeholder_resume, placeholder_profile.
      apply (make_ResumeData_typed libs Hlaws _ _ _ [_] [_] []).
Qed.

End ResumeQuota.

Lemma parse_resume_quota_fallback_example :
  parse_resume (constant_service (Raise quota_error)) sample_libs
               (env_with "RECRUITER_API_KEYS" "k1")
               (one_pdf "cv.pdf" ["Python"]) "cv.pdf" 0
  = Ok (mkResumeData ("Python" +:+ nl) "cv.pdf" ".pdf" ["Python"] [] []).
Proof.
  rewrite (parse_resume_quota_fallback
             (constant_service (Raise quota_error)) sample_libs
             (env_with "RECRUITER_API_KEYS" "k1")
             (one_pdf "cv.pdf" ["Python"]) "cv.pdf" ("Python" +:+ nl)
             quota_error 0 sample_libs_laws);
    try (vm_compute; reflexivity).
Qed.

(** C5.  The multimodal tier fails with a Quota-classified error in both
    runs.  In the first the PDF reader recovers the text "AI_ERROR: none":
    [parse_resume] takes the recovered text for its own error marker and
    raises.  In the second the file is a text file whose sixteen characters
    were read by the native extraction: the recovery goes through the PDF
    reader, finds nothing, and the placeholder profile is returned although
    the native text is not empty. *)
Theorem parse_resume_quota_defects :
  classify_error (py_str quota_error) = Quota
  /\ multimodal_try (constant_service (Raise quota_error)) sample_libs
                    (env_with "RECRUITER_API_KEYS" "k1") "cv.pdf" 0
     = Raise quota_error
  /\ extract_text_from_pdf (one_pdf "cv.pdf" ["AI_ERROR: none"]) "cv.pdf"
     = "AI_ERROR: none" +:+ nl
  /\ parse_resume (constant_service (Raise quota_error)) sample_libs
                  (env_with "RECRUITER_API_KEYS" "k1")
                  (one_pdf "cv.pdf" ["AI_ERROR: none"]) "cv.pdf" 0
     = Raise (plain_error "AI Scan failed: none")
  /\ native_text (one_txt "cv.txt" short_txt_resume) ".txt" "cv.txt"
     = Ok short_txt_resume
  /\ kd_skills (_fallback_keyword_extraction short_txt_resume) = ["Python"]
  /\ parse_resume (constant_service (Raise quota_error)) sample_libs
                  (env_with "RECRUITER_API_KEYS" "k1")
                  (one_txt "cv.txt" short_txt_resume) "cv.txt" 0
     = Ok (placeholder_profile "cv.txt" ".txt").
Proof. split_and!; vm_compute; reflexivity. Qed.

(* ===================================================================== *)
(** * Further properties *)
(* ===================================================================== *)

(** ** ai_utils.py: the runs of the rotation *)

Section RotationRuns.
Context {W : Type} (svc : GenAI W) (prompt : string) (is_json : bool).
Implicit Types (st : RotState W) (models : list string).

Lemma log_release k file st :
  log (release svc k file st) = log st ++ released k file.
Proof. destruct file; cbn; [done|by rewrite app_nil_r]. Qed.

Lemma last_error_release k file st :
  last_error (release svc k file st) = last_error st.
Proof. by destruct file. Qed.

(** Every run of the model loop is a run of the relation. *)
Lemma try_models_run k file models mi st res st' :
  try_models svc prompt is_json k file models mi st = (res, st') ->
  exists ext,
    log st' = log st ++ ext
    /\ models_run k file mi models ext res (last_error st) (last_error st').
Proof.
  revert mi st; induction models as [|name rest IH]; intros mi st Hrun.
  - cbn in Hrun. injection Hrun as <- <-. exists [].
    rewrite app_nil_r. split; [done|constructor].
  - cbn [try_models] in Hrun.
    set (st1 := if (0 <? k) || (0 <? mi)
                then mkRot (last_error st) (log st ++ [EvSleep])
                           (time_sleep svc (world st))
                else st) in Hrun.
    assert (Hlog1 : log st1 = log st ++ throttle k mi).
    { unfold st1, throttle. destruct ((0 <? k) || (0 <? mi)); cbn;
        [done|by rewrite app_nil_r]. }
    assert (Herr1 : last_error st1 = last_error st).
    { unfold st1. by destruct ((0 <? k) || (0 <? mi)). }
    destruct (genai_generate svc name is_json file prompt (world st1))
      as [r w'] eqn:Hgen.
    destruct r as [text|e].
    + destruct text as [|c text]; cbn [is_empty negb] in Hrun.
      * apply IH in Hrun as (ext & Hext & Hrel). cbn [log last_error] in *.
        exists (throttle k mi ++ EvGenerate k mi name (Ok EmptyString) :: ext).
        split.
        { rewrite Hext, Hlog1, <- !app_assoc. done. }
        apply run_no_text. by rewrite <- Herr1.
      * injection Hrun as <- <-.
        exists (throttle k mi
                ++ EvGenerate k mi name (Ok (String c text)) :: released k file).
        rewrite log_release, last_error_release. cbn [log last_error].
        split.
        { rewrite Hlog1, <- !app_assoc. done. }
        rewrite Herr1. by apply run_answered.
    + cbn [log world last_error] in Hrun.
      destruct (classify_error (py_str e)) eqn:Hclass.
      * injection Hrun as <- <-. cbn [log last_error].
        exists (throttle k mi ++ [EvGenerate k mi name (Raise e)]).
        split; [by rewrite Hlog1, <- !app_assoc|].
        by apply run_quota.
      * apply IH in Hrun as (ext & Hext & Hrel). cbn [log last_error] in *.
        exists (throttle k mi ++ EvGenerate k mi name (Raise e) :: ext).
        split; [by rewrite Hext, Hlog1, <- !app_assoc|].
        apply run_failed; [congruence|done].
      * apply IH in Hrun as (ext & Hext & Hrel). cbn [log last_error] in *.
        exists (throttle k mi ++ EvGenerate k mi name (Raise e) :: ext).
        split; [by rewrite Hext, Hlog1, <- !app_assoc|].
        apply run_failed; [congruence|done].
Qed.

Variable multimodal_filepath : option string.
Variable models_to_try : list string.

(** Every run of the key loop is a run of the relation. *)
Lemma try_keys_run keys ki st res st' :
  try_keys svc prompt is_json multimodal_filepath models_to_try keys ki st
  = (res, st') ->
  exists ext,
    log st' = log st ++ ext
    /\ keys_run multimodal_filepath models_to_try ki keys ext res
                (last_error st).
Proof.
  revert ki st; induction keys as [|api_key rest IH]; intros ki st Hrun.
  - cbn in Hrun. injection Hrun as <- <-. exists [].
    rewrite app_nil_r. split; [done|constructor].
  - cbn [try_keys] in Hrun.
    destruct (genai_configure svc api_key (world st)) as [cfg w1].
    assert (Hloop : forall file st2,
      falsy_str multimodal_filepath = bool_decide (file = None) ->
      log st2 = log st ++ uploaded ki file ->
      last_error st2 = last_error st ->
      match try_models svc prompt is_json ki file models_to_try 0 st2 with
      | (Some text, st3) => (Ok text, st3)
      | (None, st3) =>
          try_keys svc prompt is_json multimodal_filepath models_to_try rest
                   (S ki) (release svc ki file st3)
      end = (res, st') ->
      exists ext,
        log st' = log st ++ ext
        /\ keys_run multimodal_filepath models_to_try ki (api_key :: rest)
                    ext res (last_error st)).
    { intros file st2 Hfile Hlog Herr Hrun2.
      destruct (try_models svc prompt is_json ki file models_to_try 0 st2)
        as [r st3] eqn:Hmodels.
      apply try_models_run in Hmodels as (ext1 & Hext1 & Hrel1).
      rewrite Herr in Hrel1.
      destruct r as [text|].
      - injection Hrun2 as <- <-. exists (uploaded ki file ++ ext1).
        split; [by rewrite Hext1, Hlog, <- app_assoc|].
        by eapply key_answered.
      - apply IH in Hrun2 as (ext2 & Hext2 & Hrel2).
        rewrite last_error_release in Hrel2. rewrite log_release in Hext2.
        exists (uploaded ki file ++ ext1 ++ released ki file ++ ext2).
        split; [by rewrite Hext2, Hext1, Hlog, <- !app_assoc|].
        by eapply key_passed. }
    destruct cfg as [key_setup_err|].
    { apply IH in Hrun as (ext & Hext & Hrel). cbn [log last_error] in *.
      exists ext. split; [done|]. by apply key_rejected. }
    destruct (falsy_str multimodal_filepath) eqn:Hpath.
    { eapply (Hloop None); [done| | |exact Hrun]; cbn;
        [by rewrite app_nil_r|done]. }
    cbn [log world last_error] in Hrun.
    destruct (genai_upload_file svc (default EmptyString multimodal_filepath) w1)
      as [up w2].
    destruct up as [name|upload_err].
    + eapply (Hloop (Some name)); [done| | |exact Hrun]; done.
    + destruct (contains "429" (py_str upload_err)) eqn:Hquota.
      * apply IH in Hrun as (ext & Hext & Hrel). cbn [log last_error] in *.
        exists (EvUpload ki (Raise upload_err) :: ext).
        split; [by rewrite Hext, <- app_assoc|].
        by apply key_upload_quota.
      * apply IH in Hrun as (ext & Hext & Hrel). cbn [log last_error] in *.
        exists (EvUpload ki (Raise upload_err) :: ext).
        split; [by rewrite Hext, <- app_assoc|].
        by apply key_upload_failed.
Qed.

End RotationRuns.

Section RunFacts.
Implicit Types (l ext : list Event) (models keys : list string).

Lemma count_events_app p l1 l2 :
  count_events p (l1 ++ l2) = count_events p l1 + count_events p l2.
Proof. unfold count_events. by rewrite List.filter_app, length_app. Qed.

Lemma count_events_cons p ev l :
  count_events p (ev :: l) = (if p ev then 1 else 0) + count_events p l.
Proof. unfold count_events. cbn. by destruct (p ev). Qed.

Lemma last_recorded_app l1 l2 le :
  last_recorded (l1 ++ l2) le = last_recorded l2 (last_recorded l1 le).
Proof. apply fold_left_app. Qed.

Lemma attempts_throttle k m : attempts (throttle k m) = [].
Proof. unfold throttle. by destruct ((0 <? k) || (0 <? m)). Qed.

Lemma attempts_released k file : attempts (released k file) = [].
Proof. by destruct file. Qed.

Lemma attempts_uploaded k file : attempts (uploaded k file) = [].
Proof. by destruct file. Qed.

Lemma last_recorded_throttle k m le : last_recorded (throttle k m) le = le.
Proof. unfold throttle. by destruct ((0 <? k) || (0 <? m)). Qed.

Lemma last_recorded_released k file le :
  last_recorded (released k file) le = le.
Proof. by destruct file. Qed.

Lemma last_recorded_uploaded k file le :
  last_recorded (uploaded k file) le = le.
Proof. by destruct file. Qed.

Lemma count_sleep_throttle k m name r :
  count_events is_sleep (throttle k m)
  = length (List.filter throttled [mkAttempt k m name r]).
Proof.
  unfold throttle, throttled. cbn [List.filter at_key at_model].
  by destruct ((0 <? k) || (0 <? m)).
Qed.

Lemma count_throttle p k m :
  p EvSleep = false -> count_events p (throttle k m) = 0.
Proof.
  intros Hp. unfold throttle.
  destruct ((0 <? k) || (0 <? m)); [|done].
  rewrite count_events_cons, Hp. done.
Qed.

Lemma count_released p k file :
  (forall name, p (EvDelete k name) = false) ->
  count_events p (released k file) = 0.
Proof.
  intros Hp. destruct file; [|done]. cbn [released].
  rewrite count_events_cons, Hp. done.
Qed.

Lemma ledger_app l1 l2 held :
  ledger (l1 ++ l2) held
  = match ledger l1 held with
    | Some held' => ledger l2 held'
    | None => None
    end.
Proof.
  revert held; induction l1 as [|ev l1 IH]; intros held; [done|].
  destruct ev as [k [name|e]| | |k name]; cbn [app ledger]; try apply IH.
  - destruct held; [done|apply IH].
  - destruct (bool_decide _); [apply IH|done].
Qed.

Lemma ledger_throttle k m held : ledger (throttle k m) held = Some held.
Proof. unfold throttle. by destruct ((0 <? k) || (0 <? m)). Qed.

Lemma ledger_uploaded k file : ledger (uploaded k file) None = Some (held_by k file).
Proof. by destruct file. Qed.

Lemma ledger_released k file : ledger (released k file) (held_by k file) = Some None.
Proof.
  destruct file as [name|]; [|done]. cbn [released held_by ledger].
  by rewrite bool_decide_eq_true_2.
Qed.

(** *** The model loop *)

Lemma models_run_attempts k file mi models ext res le le' :
  models_run k file mi models ext res le le' ->
  length (attempts ext) <= length models.
Proof.
  induction 1; rewrite ?attempts_app, ?attempts_throttle; cbn;
    rewrite ?attempts_released; cbn; lia.
Qed.

Lemma models_run_sleeps k file mi models ext res le le' :
  models_run k file mi models ext res le le' ->
  count_events is_sleep ext = length (List.filter throttled (attempts ext)).
Proof.
  induction 1 as [|mi name rest text le _|mi name rest ext res le le' _ IH
                  |mi name rest e le _|mi name rest e ext res le le' _ _ IH];
    [done|..];
    rewrite count_events_app, attempts_app, attempts_throttle,
      count_events_cons; cbn [app attempts is_sleep].
  - rewrite (count_sleep_throttle k mi name (Ok text)),
      (count_released is_sleep), attempts_released; [lia|done].
  - rewrite (count_sleep_throttle k mi name (Ok EmptyString)), IH.
    cbn [List.filter]. destruct (throttled _); cbn [length]; lia.
  - by rewrite (count_sleep_throttle k mi name (Raise e)).
  - rewrite (count_sleep_throttle k mi name (Raise e)), IH.
    cbn [List.filter]. destruct (throttled _); cbn [length]; lia.
Qed.

(** The model loop uploads nothing. *)
Lemma models_run_uploads p k file mi models ext res le le' :
  (forall ev, is_upload ev = false -> p ev = false) ->
  models_run k file mi models ext res le le' ->
  count_events p ext = 0.
Proof.
  intros Hp.
  induction 1; [done|..];
    rewrite !count_events_app, !count_events_cons,
      !count_throttle by (by apply Hp);
    rewrite ?Hp by done; rewrite ?count_released by (intros; by apply Hp);
    try done; lia.
Qed.

(** The model loop tries each model once at most, with its own credential
    and from its own position on. *)
Lemma models_run_attempts_at k0 m k file mi models ext res le le' :
  models_run k file mi models ext res le le' ->
  count_events (is_attempt_at k0 m) ext <= 1
  /\ (k <> k0 \/ m < mi \/ mi + length models <= m ->
      count_events (is_attempt_at k0 m) ext = 0).
Proof.
  assert (Hhere : forall m0 name r,
    (if is_attempt_at k0 m (EvGenerate k m0 name r) then 1 else 0) <= 1
    /\ (k <> k0 \/ m0 <> m ->
        (if is_attempt_at k0 m (EvGenerate k m0 name r) then 1 else 0) = 0)).
  { intros m0 name r. cbn [is_attempt_at].
    destruct (k =? k0) eqn:Hk, (m0 =? m) eqn:Hm; cbn [andb];
      try (split; [lia|done]).
    apply Nat.eqb_eq in Hk, Hm. split; [lia|]. intros [?|?]; done. }
  induction 1 as [|mi name rest text le _|mi name rest ext res le le' _ IH
                  |mi name rest e le _|mi name rest e ext res le le' _ _ IH];
    cbn [length] in *; [cbn; split; [lia|done]|..];
    rewrite count_events_app, count_events_cons, count_throttle by done.
  - rewrite count_released by done.
    destruct (Hhere mi name (Ok text)) as [H1 H0].
    split; [lia|]. intros Hk. rewrite H0 by lia. done.
  - destruct IH as [IH1 IH0].
    destruct (Hhere mi name (Ok EmptyString)) as [H1 H0].
    destruct (decide (k = k0 /\ mi = m)) as [[-> ->]|Hne].
    + rewrite IH0 by lia. split; lia.
    + rewrite H0 by lia. split; [done|]. intros Hk. apply IH0. lia.
  - destruct (Hhere mi name (Raise e)) as [H1 H0].
    change (count_events (is_attempt_at k0 m) []) with 0.
    split; [lia|]. intros Hk. rewrite H0 by lia. done.
  - destruct IH as [IH1 IH0].
    destruct (Hhere mi name (Raise e)) as [H1 H0].
    destruct (decide (k = k0 /\ mi = m)) as [[-> ->]|Hne].
    + rewrite IH0 by lia. split; lia.
    + rewrite H0 by lia. split; [done|]. intros Hk. apply IH0. lia.
Qed.

(** The model loop keeps the file of its credential until it returns a
    text, and deletes it then. *)
Lemma models_run_ledger k file mi models ext res le le' :
  models_run k file mi models ext res le le' ->
  ledger ext (held_by k file)
  = Some (match res with
          | Some _ => None
          | None => held_by k file
          end).
Proof.
  induction 1 as [|mi name rest text le _|mi name rest ext res le le' _ IH
                  |mi name rest e le _|mi name rest e ext res le le' _ _ IH];
    [done|..]; rewrite ledger_app, ledger_throttle; cbn [ledger]; try done.
  apply ledger_released.
Qed.

Lemma models_run_last_error k file mi models ext res le le' :
  models_run k file mi models ext res le le' ->
  last_recorded ext le = le'.
Proof.
  induction 1; [done|..];
    rewrite last_recorded_app, last_recorded_throttle; cbn;
    rewrite ?last_recorded_released; done.
Qed.

Lemma models_run_outcome k file mi models ext res le le' :
  models_run k file mi models ext res le le' ->
  match res with
  | Some text => ends_with_answer (attempts ext) text
  | None => no_answer (attempts ext)
  end.
Proof.
  assert (Hcons : forall a att res,
    ~ answered (at_outcome a) ->
    match res with
    | Some text => ends_with_answer att text
    | None => no_answer att
    end ->
    match res with
    | Some text => ends_with_answer (a :: att) text
    | None => no_answer (a :: att)
    end).
  { intros a att [text|] Ha H.
    - destruct H as (Htext & before & b & -> & Hb & Hall).
      split; [done|]. exists (a :: before), b.
      split_and!; [done|done|by constructor].
    - by constructor. }
  induction 1; rewrite ?attempts_app, ?attempts_throttle;
    cbn [app attempts]; rewrite ?attempts_released.
  - constructor.
  - split; [done|]. eexists [], _. split_and!; [done|done|constructor].
  - apply Hcons; [cbn; tauto|done].
  - constructor; [cbn; tauto|constructor].
  - apply Hcons; [cbn; tauto|done].
Qed.

(** *** The key loop *)

Lemma keys_run_attempts path models ki keys ext res le :
  keys_run path models ki keys ext res le ->
  length (attempts ext) <= length keys * length models.
Proof.
  induction 1 as [| | | |ki key rest file ext text le le' _ Hrun
                  |ki key rest file ext ext' res le le' _ Hrun _ IH];
    cbn [attempts length]; try nia.
  - rewrite attempts_app, attempts_uploaded. cbn [app].
    apply models_run_attempts in Hrun. nia.
  - rewrite !attempts_app, attempts_uploaded, attempts_released.
    cbn [app]. rewrite length_app.
    apply models_run_attempts in Hrun. nia.
Qed.

Lemma keys_run_sleeps path models ki keys ext res le :
  keys_run path models ki keys ext res le ->
  count_events is_sleep ext = length (List.filter throttled (attempts ext)).
Proof.
  assert (Hup : forall k file, count_events is_sleep (uploaded k file) = 0).
  { by intros k []. }
  induction 1 as [| | | |ki key rest file ext text le le' _ Hrun
                  |ki key rest file ext ext' res le le' _ Hrun _ IH];
    try done.
  - rewrite count_events_app, Hup, attempts_app, attempts_uploaded.
    by apply models_run_sleeps in Hrun.
  - rewrite !count_events_app, Hup, !attempts_app, attempts_uploaded,
      attempts_released, count_released by done.
    cbn [app]. rewrite List.filter_app, length_app.
    apply models_run_sleeps in Hrun. lia.
Qed.

(** Without a file path the key loop uploads nothing. *)
Lemma keys_run_no_path path models ki keys ext res le :
  keys_run path models ki keys ext res le ->
  falsy_str path = true -> count_events is_upload ext = 0.
Proof.
  assert (Hnone : forall k file,
    true = bool_decide (file = None) ->
    count_events is_upload (uploaded k file) = 0).
  { intros k file Hf. symmetry in Hf. apply bool_decide_eq_true in Hf.
    by subst. }
  induction 1 as [|ki key rest ext res le _ IH
                  |ki key rest e ext res le Hp _ _ IH
                  |ki key rest e ext res le Hp _ _ IH
                  |ki key rest file ext text le le' Hfile Hrun
                  |ki key rest file ext ext' res le le' Hfile Hrun _ IH];
    intros Hpath; try done; try congruence.
  - by apply IH.
  - rewrite count_events_app.
    rewrite (models_run_uploads is_upload _ _ _ _ _ _ _ _ ltac:(done) Hrun).
    rewrite Hpath in Hfile. by rewrite (Hnone _ _ Hfile).
  - rewrite !count_events_app, (count_released is_upload) by done.
    rewrite (models_run_uploads is_upload _ _ _ _ _ _ _ _ ltac:(done) Hrun).
    rewrite Hpath in Hfile. rewrite (Hnone _ _ Hfile), IH by done. done.
Qed.

(** The key loop uploads once at most with each credential, and only with
    the credentials it goes through. *)
Lemma keys_run_uploads_at k path models ki keys ext res le :
  keys_run path models ki keys ext res le ->
  count_events (is_upload_at k) ext <= 1
  /\ (k < ki \/ ki + length keys <= k ->
      count_events (is_upload_at k) ext = 0).
Proof.
  assert (Hp : forall ev, is_upload ev = false -> is_upload_at k ev = false)
    by (by intros []).
  assert (Hup : forall k0 file,
    count_events (is_upload_at k) (uploaded k0 file) <= 1
    /\ (k0 <> k -> count_events (is_upload_at k) (uploaded k0 file) = 0)).
  { intros k0 [name|]; [|cbn; split; [lia|done]]. cbn [uploaded].
    rewrite count_events_cons. cbn [is_upload_at].
    destruct (k0 =? k) eqn:Hk; [|cbn; split; [lia|done]].
    apply Nat.eqb_eq in Hk. split; [cbn; lia|done]. }
  assert (Hfail : forall k0 e,
    (if is_upload_at k (EvUpload k0 (Raise e)) then 1 else 0) <= 1
    /\ (k0 <> k ->
        (if is_upload_at k (EvUpload k0 (Raise e)) then 1 else 0) = 0)).
  { intros k0 e. cbn [is_upload_at]. destruct (k0 =? k) eqn:Hk; [|lia].
    apply Nat.eqb_eq in Hk. lia. }
  induction 1 as [|ki key rest ext res le _ IH
                  |ki key rest e ext res le _ _ _ IH
                  |ki key rest e ext res le _ _ _ IH
                  |ki key rest file ext text le le' _ Hrun
                  |ki key rest file ext ext' res le le' _ Hrun _ IH];
    cbn [length] in *.
  - cbn. split; [lia|done].
  - destruct IH as [IH1 IH0]. split; [done|]. intros Hk. apply IH0. lia.
  - destruct IH as [IH1 IH0]. destruct (Hfail ki e) as [Hf1 Hf0].
    rewrite count_events_cons.
    destruct (decide (ki = k)) as [->|Hne].
    + rewrite IH0 by lia. split; lia.
    + rewrite Hf0 by done. split; [done|]. intros Hk. apply IH0. lia.
  - destruct IH as [IH1 IH0]. destruct (Hfail ki e) as [Hf1 Hf0].
    rewrite count_events_cons.
    destruct (decide (ki = k)) as [->|Hne].
    + rewrite IH0 by lia. split; lia.
    + rewrite Hf0 by done. split; [done|]. intros Hk. apply IH0. lia.
  - rewrite count_events_app.
    rewrite (models_run_uploads _ _ _ _ _ _ _ _ _ Hp Hrun).
    destruct (Hup ki file) as [Hu1 Hu0].
    split; [lia|]. intros Hk. rewrite Hu0 by lia. done.
  - rewrite !count_events_app, (count_released (is_upload_at k)) by done.
    rewrite (models_run_uploads _ _ _ _ _ _ _ _ _ Hp Hrun).
    destruct IH as [IH1 IH0]. destruct (Hup ki file) as [Hu1 Hu0].
    destruct (decide (ki = k)) as [->|Hne].
    + rewrite IH0 by lia. split; lia.
    + rewrite Hu0 by done. split; [lia|]. intros Hk. rewrite IH0 by lia. done.
Qed.

(** The key loop tries each pair of credential and model once at most. *)
Lemma keys_run_attempts_at k m path models ki keys ext res le :
  keys_run path models ki keys ext res le ->
  count_events (is_attempt_at k m) ext <= 1
  /\ (k < ki \/ ki + length keys <= k \/ length models <= m ->
      count_events (is_attempt_at k m) ext = 0).
Proof.
  assert (Hup : forall k0 file,
    count_events (is_attempt_at k m) (uploaded k0 file) = 0)
    by (by intros k0 []).
  induction 1 as [|ki key rest ext res le _ IH
                  |ki key rest e ext res le _ _ _ IH
                  |ki key rest e ext res le _ _ _ IH
                  |ki key rest file ext text le le' _ Hrun
                  |ki key rest file ext ext' res le le' _ Hrun _ IH];
    cbn [length] in *.
  - cbn. split; [lia|done].
  - destruct IH as [IH1 IH0]. split; [done|]. intros Hk.
    destruct (decide (length models <= m)); apply IH0; lia.
  - rewrite count_events_cons. cbn [is_attempt_at].
    destruct IH as [IH1 IH0]. split; [done|]. intros Hk.
    destruct (decide (length models <= m)); rewrite IH0; lia.
  - rewrite count_events_cons. cbn [is_attempt_at].
    destruct IH as [IH1 IH0]. split; [done|]. intros Hk.
    destruct (decide (length models <= m)); rewrite IH0; lia.
  - rewrite count_events_app, Hup.
    destruct (models_run_attempts_at k m _ _ _ _ _ _ _ _ Hrun) as [H1 H0].
    split; [lia|]. intros Hk. rewrite H0; lia.
  - rewrite !count_events_app, Hup, count_released by done.
    destruct (models_run_attempts_at k m _ _ _ _ _ _ _ _ Hrun) as [H1 H0].
    destruct IH as [IH1 IH0].
    destruct (decide (ki = k)) as [->|Hne].
    + rewrite IH0 by lia. split; [lia|]. intros Hk. rewrite H0; lia.
    + rewrite H0 by lia. split; [lia|]. intros Hk.
      destruct (decide (length models <= m)); rewrite IH0; lia.
Qed.

(** The book of the key loop is in order and ends with no file held: each
    credential deletes the file it uploaded before the next credential is
    tried or the text is returned. *)
Lemma keys_run_ledger path models ki keys ext res le :
  keys_run path models ki keys ext res le ->
  ledger ext None = Some None.
Proof.
  induction 1 as [| | | |ki key rest file ext text le le' _ Hrun
                  |ki key rest file ext ext' res le le' _ Hrun _ IH];
    try done.
  - rewrite ledger_app, ledger_uploaded. cbn beta iota.
    by rewrite (models_run_ledger _ _ _ _ _ _ _ _ Hrun).
  - rewrite ledger_app, ledger_uploaded. cbn beta iota.
    rewrite ledger_app, (models_run_ledger _ _ _ _ _ _ _ _ Hrun).
    cbn beta iota. by rewrite ledger_app, ledger_released.
Qed.

Lemma keys_run_outcome path models ki keys ext res le :
  keys_run path models ki keys ext res le ->
  match res with
  | Ok text => ends_with_answer (attempts ext) text
  | Raise e =>
      no_answer (attempts ext)
      /\ e = default (plain_error "All API keys and models failed.")
                     (last_recorded ext le)
  end.
Proof.
  induction 1 as [|ki key rest ext res le _ IH
                  |ki key rest e ext res le _ Hq _ IH
                  |ki key rest e ext res le _ Hq _ IH
                  |ki key rest file ext text le le' _ Hrun
                  |ki key rest file ext ext' res le le' _ Hrun _ IH].
  - split; [constructor|done].
  - done.
  - cbn [attempts]. unfold last_recorded. cbn [fold_left record_error].
    by rewrite Hq.
  - cbn [attempts]. unfold last_recorded. cbn [fold_left record_error].
    by rewrite Hq.
  - rewrite attempts_app, attempts_uploaded.
    by apply models_run_outcome in Hrun.
  - rewrite !attempts_app, attempts_uploaded, attempts_released.
    cbn [app]. rewrite !last_recorded_app, last_recorded_uploaded,
      last_recorded_released, (models_run_last_error _ _ _ _ _ _ _ _ Hrun).
    apply models_run_outcome in Hrun.
    destruct res as [text|e].
    + destruct IH as (Htext & before & a & Heq & Ha & Hall).
      split; [done|]. exists (attempts ext ++ before), a.
      split_and!; [by rewrite Heq, app_assoc|done|by apply Forall_app].
    + destruct IH as [Hno ->]. split; [by apply Forall_app|done].
Qed.

End RunFacts.

Section RecordedCalls.
Context {W : Type} (svc : GenAI W) (prompt : string) (is_json : bool).
Implicit Types (st : RotState (W * list Call)) (models : list string).

(** The log and the record of the service grow together: the model loop
    writes an entry for each call it makes, with what it passed and what
    came back. *)
Lemma try_models_recorded k file models mi st :
  (world st).2 = map call_of (log st) ->
  let st' := (try_models (recording svc) prompt is_json k file models mi st).2 in
  (world st').2 = map call_of (log st').
Proof.
  cbn zeta. revert mi st; induction models as [|name rest IH];
    intros mi st Hst; [done|].
  cbn [try_models].
  set (st1 := if (0 <? k) || (0 <? mi)
              then mkRot (last_error st) (log st ++ [EvSleep])
                         (time_sleep (recording svc) (world st))
              else st).
  assert (Hst1 : (world st1).2 = map call_of (log st1)).
  { unfold st1. destruct ((0 <? k) || (0 <? mi)); [|done].
    cbn [world log recording time_sleep snd]. by rewrite map_app, Hst. }
  clearbody st1. clear Hst st.
  cbn [recording genai_generate].
  destruct (genai_generate svc name is_json file prompt (world st1).1)
    as [r w'] eqn:Hgen.
  assert (Hnext : ((w', (world st1).2 ++ [CallGenerate name r])).2
                  = map call_of (log st1 ++ [EvGenerate k mi name r])).
  { cbn [snd]. by rewrite map_app, Hst1. }
  destruct r as [text|e].
  - destruct (negb (is_empty text)).
    + cbn [snd]. destruct file as [file_name|]; [|exact Hnext].
      cbn [release world log recording genai_delete_file snd fst].
      rewrite map_app, <- Hnext. done.
    + apply IH. exact Hnext.
  - cbn [log world last_error].
    destruct (classify_error (py_str e)); [exact Hnext|apply IH..];
      exact Hnext.
Qed.

Variable multimodal_filepath : option string.
Variable models_to_try : list string.

Lemma try_keys_recorded keys ki st :
  (world st).2 = map call_of (log st) ->
  let st' := (try_keys (recording svc) prompt is_json multimodal_filepath
                       models_to_try keys ki st).2 in
  (world st').2 = map call_of (log st').
Proof.
  cbn zeta. revert ki st; induction keys as [|api_key rest IH];
    intros ki st Hst; [done|].
  cbn [try_keys]. cbn [recording genai_configure].
  destruct (genai_configure svc api_key (world st).1) as [cfg w1].
  assert (Hloop : forall file st2,
    (world st2).2 = map call_of (log st2) ->
    (world
       (match try_models (recording svc) prompt is_json ki file
                         models_to_try 0 st2 with
        | (Some text, st3) => (Ok text, st3)
        | (None, st3) =>
            try_keys (recording svc) prompt is_json multimodal_filepath
                     models_to_try rest (S ki)
                     (release (recording svc) ki file st3)
        end).2).2
    = map call_of
        (log
           (match try_models (recording svc) prompt is_json ki file
                             models_to_try 0 st2 with
            | (Some text, st3) => (Ok text, st3)
            | (None, st3) =>
                try_keys (recording svc) prompt is_json multimodal_filepath
                         models_to_try rest (S ki)
                         (release (recording svc) ki file st3)
            end).2)).
  { intros file st2 Hst2.
    pose proof (try_models_recorded ki file models_to_try 0 st2 Hst2) as H3.
    cbn zeta in H3.
    destruct (try_models (recording svc) prompt is_json ki file
                         models_to_try 0 st2) as [[text|] st3];
      cbn [snd] in H3 |- *; [exact H3|].
    apply IH. destruct file as [file_name|]; [|exact H3].
    cbn [release world log recording genai_delete_file snd fst].
    by rewrite map_app, H3. }
  destruct cfg as [key_setup_err|]; [by apply IH|].
  destruct (falsy_str multimodal_filepath); [by apply Hloop|].
  cbn [log world last_error recording genai_upload_file snd fst].
  destruct (genai_upload_file svc (default EmptyString multimodal_filepath) w1)
    as [up w2].
  assert (Hup : ((w2, (world st).2 ++ [CallUpload up])).2
                = map call_of (log st ++ [EvUpload ki up]))
    by (cbn [snd]; by rewrite map_app, Hst).
  destruct up as [name|upload_err].
  - by apply Hloop.
  - destruct (contains "429" (py_str upload_err)); by apply IH.
Qed.

End RecordedCalls.

Section RotationRunsOfCalls.
Context {W : Type} (svc : GenAI W) (env : Env).

(** A call with at least one credential is a run of the key loop from the
    first credential, with nothing recorded yet. *)
Lemma rotation_run prompt is_json path custom (w : W) :
  get_api_keys env <> [] ->
  keys_run path (models_or_default custom) 0 (get_api_keys env)
    (log (run_genai_with_rotation svc env prompt is_json path custom w).2)
    (run_genai_with_rotation svc env prompt is_json path custom w).1
    None.
Proof.
  intros Hkeys. unfold run_genai_with_rotation.
  rewrite bool_decide_eq_false_2 by done.
  destruct (try_keys _ _ _ _ _ _ _ _) as [res st'] eqn:Hrun.
  apply try_keys_run in Hrun as (ext & Hext & Hrel).
  cbn [fst snd log last_error app] in *. by rewrite Hext.
Qed.

(** X1.  A call that returns a text returns a non-empty one: it is the
    outcome of the last attempt of the call, and every attempt before it
    raised or produced no text. *)
Theorem rotation_answer_is_last_attempt prompt is_json path custom (w : W)
  text st :
  run_genai_with_rotation svc env prompt is_json path custom w
  = (Ok text, st) ->
  text <> EmptyString
  /\ exists before a,
       attempts (log st) = before ++ [a]
       /\ at_outcome a = Ok text
       /\ Forall (fun b => ~ answered (at_outcome b)) before.
Proof.
  intros Hrun.
  destruct (decide (get_api_keys env = [])) as [Hkeys|Hkeys].
  { unfold run_genai_with_rotation in Hrun.
    by rewrite bool_decide_eq_true_2 in Hrun by done. }
  pose proof (rotation_run prompt is_json path custom w Hkeys) as Hrel.
  rewrite Hrun in Hrel. by apply keys_run_outcome in Hrel.
Qed.

(** X2.  A call that fails with at least one credential configured had no
    attempt with a usable text, and raises the last error it recorded: that
    of the last failed attempt or of the last upload that failed for a
    reason other than Quota; with nothing recorded it raises the generic
    error. *)
Theorem rotation_failure_is_last_error prompt is_json path custom (w : W)
  e st :
  get_api_keys env <> [] ->
  run_genai_with_rotation svc env prompt is_json path custom w
  = (Raise e, st) ->
  Forall (fun b => ~ answered (at_outcome b)) (attempts (log st))
  /\ e = default (plain_error "All API keys and models failed.")
                 (last_recorded (log st) None).
Proof.
  intros Hkeys Hrun.
  pose proof (rotation_run prompt is_json path custom w Hkeys) as Hrel.
  rewrite Hrun in Hrel. by apply keys_run_outcome in Hrel.
Qed.

(** X3.  What a call can cost.  It makes one attempt at most with each
    pair of credential and model, one upload at most with each credential,
    none at a position outside the credentials and the models of the call,
    and so no more attempts than there are such pairs. *)
Theorem rotation_work_is_bounded prompt is_json path custom (w : W) :
  let st := (run_genai_with_rotation svc env prompt is_json path custom w).2 in
  let keys := get_api_keys env in
  let models := models_or_default custom in
  (forall k m, count_events (is_attempt_at k m) (log st) <= 1)
  /\ (forall k, count_events (is_upload_at k) (log st) <= 1)
  /\ (forall k m, length keys <= k \/ length models <= m ->
                  count_events (is_attempt_at k m) (log st) = 0)
  /\ (forall k, length keys <= k ->
                count_events (is_upload_at k) (log st) = 0)
  /\ length (attempts (log st)) <= length keys * length models.
Proof.
  cbn zeta.
  destruct (decide (get_api_keys env = [])) as [Hkeys|Hkeys].
  { unfold run_genai_with_rotation.
    rewrite bool_decide_eq_true_2 by done. cbn [snd log].
    split; [|split; [|split; [|split]]]; intros; cbn; lia. }
  pose proof (rotation_run prompt is_json path custom w Hkeys) as Hrel.
  split; [|split; [|split; [|split]]].
  - intros k m.
    by destruct (keys_run_attempts_at k m _ _ _ _ _ _ _ Hrel) as [H1 _].
  - intros k.
    by destruct (keys_run_uploads_at k _ _ _ _ _ _ _ Hrel) as [H1 _].
  - intros k m Hk.
    destruct (keys_run_attempts_at k m _ _ _ _ _ _ _ Hrel) as [_ H0].
    apply H0. lia.
  - intros k Hk.
    destruct (keys_run_uploads_at k _ _ _ _ _ _ _ Hrel) as [_ H0].
    apply H0. lia.
  - by apply keys_run_attempts in Hrel.
Qed.

(** X5.  The one-second throttle runs once in front of every attempt except
    the attempt with the first credential and the first model. *)
Theorem rotation_throttles_all_but_first prompt is_json path custom (w : W) :
  let st := (run_genai_with_rotation svc env prompt is_json path custom w).2 in
  count_events is_sleep (log st)
  = length (List.filter throttled (attempts (log st))).
Proof.
  cbn zeta.
  destruct (decide (get_api_keys env = [])) as [Hkeys|Hkeys].
  { unfold run_genai_with_rotation.
    by rewrite bool_decide_eq_true_2 by done. }
  pose proof (rotation_run prompt is_json path custom w Hkeys) as Hrel.
  by apply keys_run_sleeps in Hrel.
Qed.

End RotationRunsOfCalls.

Section RotationRunsRecorded.
Context {W : Type} (svc : GenAI W) (env : Env).

(** X4.  Whatever the outcome of the call, it asks the service to delete
    every file it uploaded, and nothing else.  Run against the recording
    service, the call leaves a log that is, entry by entry, what the service
    was asked; and read as a book of the files held on the service, that log
    is in order and ends with no file held: each successful upload is made
    while no file is held, and the next deletion names that very file, with
    the credential that uploaded it, before any other upload.  Without a
    file path nothing is uploaded at all. *)
Theorem rotation_releases_every_upload prompt is_json path custom (w : W) :
  let st := (run_genai_with_rotation (recording svc) env prompt is_json path
                                     custom (w, [])).2 in
  (world st).2 = map call_of (log st)
  /\ ledger (log st) None = Some None
  /\ (falsy_str path = true -> count_events is_upload (log st) = 0).
Proof.
  cbn zeta.
  destruct (decide (get_api_keys env = [])) as [Hkeys|Hkeys].
  { unfold run_genai_with_rotation.
    by rewrite bool_decide_eq_true_2 by done. }
  pose proof (rotation_run (recording svc) env prompt is_json path custom
                           (w, []) Hkeys) as Hrel.
  split; [|split].
  - unfold run_genai_with_rotation.
    rewrite bool_decide_eq_false_2 by done.
    by apply try_keys_recorded.
  - by apply keys_run_ledger in Hrel.
  - intros Hpath. by eapply keys_run_no_path.
Qed.

End RotationRunsRecorded.

Lemma rotation_releases_every_upload_witness :
  let st := (run_genai_with_rotation (recording (quota_then 1 "hello"))
               three_keys "prompt" false (Some "cv.pdf") two_models
               (0, [])).2 in
  (world st).2 = map call_of (log st)
  /\ ledger (log st) None = Some None
  /\ (world st).2
     = [CallUpload (Ok "files/sample");
        CallGenerate "model-a" (Raise quota_error);
        CallDelete "files/sample";
        CallUpload (Ok "files/sample");
        CallSleep;
        CallGenerate "model-a" (Ok "hello");
        CallDelete "files/sample"].
Proof.
  cbn zeta.
  destruct (rotation_releases_every_upload (quota_then 1 "hello") three_keys
              "prompt" false (Some "cv.pdf") two_models 0) as (H1 & H2 & _).
  split; [exact H1|split; [exact H2|reflexivity]].
Defined.

Lemma rotation_answer_is_last_attempt_witness :
  run_genai_with_rotation (quota_then 2 "hello") three_keys "prompt" false
                          None two_models 0
  = (Ok "hello",
     mkRot (Some quota_error)
           [EvGenerate 0 0 "model-a" (Raise quota_error);
            EvSleep; EvGenerate 1 0 "model-a" (Raise quota_error);
            EvSleep; EvGenerate 2 0 "model-a" (Ok "hello")] 3)
  /\ exists before a,
       [mkAttempt 0 0 "model-a" (Raise quota_error);
        mkAttempt 1 0 "model-a" (Raise quota_error);
        mkAttempt 2 0 "model-a" (Ok "hello")] = before ++ [a]
       /\ at_outcome a = Ok "hello"
       /\ Forall (fun b => ~ answered (at_outcome b)) before.
Proof.
  split; [reflexivity|].
  exact (proj2 (rotation_answer_is_last_attempt
                  (quota_then 2 "hello") three_keys "prompt" false None
                  two_models 0 "hello" _ eq_refl)).
Defined.

Lemma rotation_failure_is_last_error_witness :
  let run :=
    run_genai_with_rotation (constant_service (Raise internal_error))
      three_keys "prompt" false None two_models 0 in
  get_api_keys three_keys = ["k1"; "k2"; "k3"]
  /\ length (attempts (log run.2)) = 6
  /\ run.1 = Raise internal_error
  /\ Forall (fun b => ~ answered (at_outcome b)) (attempts (log run.2))
  /\ internal_error
     = default (plain_error "All API keys and models failed.")
               (last_recorded (log run.2) None).
Proof.
  cbn zeta. split_and!; [reflexivity|reflexivity|reflexivity|..];
    apply (rotation_failure_is_last_error
             (constant_service (Raise internal_error)) three_keys
             "prompt" false None two_models 0 internal_error);
    first [by vm_compute | vm_compute; reflexivity].
Defined.

Section UploadQuota.
Context {W : Type} (svc : GenAI W) (prompt : string) (is_json : bool).
Variables (multimodal_filepath : option string) (models_to_try : list string).
Hypothesis path_given : falsy_str multimodal_filepath = false.
Hypothesis uploads_hit_quota : forall path w,
  exists e w', genai_upload_file svc path w = (Raise e, w')
               /\ contains "429" (py_str e) = true.

Lemma try_keys_upload_quota keys ki (st : RotState W) :
  let out := try_keys svc prompt is_json multimodal_filepath models_to_try
                      keys ki st in
  out.1 = Raise (default (plain_error "All API keys and models failed.")
                         (last_error st))
  /\ attempts (log out.2) = attempts (log st).
Proof.
  cbn zeta. revert ki st; induction keys as [|api_key rest IH]; intros ki st.
  - done.
  - cbn [try_keys].
    destruct (genai_configure svc api_key (world st)) as [cfg w1].
    destruct cfg as [key_setup_err|];
      [exact (IH (S ki) (mkRot (last_error st) (log st) w1))|].
    rewrite path_given. cbn [world log last_error].
    destruct (uploads_hit_quota (default EmptyString multimodal_filepath) w1)
      as (e & w2 & -> & ->).
    destruct (IH (S ki) (mkRot (last_error st)
                               (log st ++ [EvUpload ki (Raise e)]) w2))
      as [-> ->].
    cbn [log last_error]. rewrite attempts_app. cbn. by rewrite app_nil_r.
Qed.

End UploadQuota.

(** X6.  Quota exhaustion met while uploading is not recorded: when every
    upload fails with Quota, the call makes no attempt and raises the
    generic error, whose text carries no Quota mark. *)
Theorem rotation_upload_quota_is_generic {W : Type} (svc : GenAI W)
  (env : Env) prompt is_json path custom (w : W) :
  get_api_keys env <> [] ->
  falsy_str path = false ->
  (forall p w0, exists e w', genai_upload_file svc p w0 = (Raise e, w')
                             /\ contains "429" (py_str e) = true) ->
  let out := run_genai_with_rotation svc env prompt is_json path custom w in
  out.1 = Raise (plain_error "All API keys and models failed.")
  /\ attempts (log out.2) = []
  /\ classify_error "All API keys and models failed." <> Quota.
Proof.
  intros Hkeys Hpath Hup. cbn zeta. unfold run_genai_with_rotation.
  rewrite bool_decide_eq_false_2 by done.
  destruct (try_keys_upload_quota svc prompt is_json path
              (models_or_default custom) Hpath Hup (get_api_keys env) 0
              (mkRot None [] w)) as [-> ->].
  done.
Qed.

Lemma rotation_upload_quota_is_generic_witness :
  let out := run_genai_with_rotation upload_quota_service three_keys
               "prompt" false (Some "cv.pdf") two_models 0 in
  log out.2 = [EvUpload 0 (Raise quota_error); EvUpload 1 (Raise quota_error);
               EvUpload 2 (Raise quota_error)]
  /\ out.1 = Raise (plain_error "All API keys and models failed.")
  /\ attempts (log out.2) = []
  /\ classify_error "All API keys and models failed." <> Quota.
Proof.
  cbn zeta. split; [reflexivity|].
  apply (rotation_upload_quota_is_generic upload_quota_service three_keys
           "prompt" false (Some "cv.pdf") two_models 0).
  - by vm_compute.
  - reflexivity.
  - intros p w0. exists quota_error, (S w0). split; reflexivity.
Defined.

(** ** ai_utils.py: the credentials *)

Section StripFacts.

Lemma rstrip_idem s : rstrip (rstrip s) = rstrip s.
Proof.
  induction s as [|c s IH]; [done|]. cbn [rstrip].
  destruct (is_space c && is_empty (rstrip s)) eqn:Hc; [done|].
  cbn [rstrip]. by rewrite IH, Hc.
Qed.

Lemma lstrip_fixed c s : is_space c = false -> lstrip (String c s) = String c s.
Proof. intros Hc. cbn. by rewrite Hc. Qed.

Lemma lstrip_head s :
  lstrip s = EmptyString
  \/ exists c r, lstrip s = String c r /\ is_space c = false.
Proof.
  induction s as [|c s IH]; [by left|]. cbn [lstrip].
  destruct (is_space c) eqn:Hc; [done|]. right. by exists c, s.
Qed.

Lemma strip_idem s : strip (strip s) = strip s.
Proof.
  unfold strip. destruct (lstrip_head s) as [->|(c & r & -> & Hc)]; [done|].
  cbn [rstrip]. rewrite Hc. cbn [andb].
  rewrite lstrip_fixed by done. cbn [rstrip]. rewrite Hc. cbn [andb].
  by rewrite rstrip_idem.
Qed.

Lemma char_in_lstrip c s : char_in c s = false -> char_in c (lstrip s) = false.
Proof.
  induction s as [|a s IH]; [done|]. cbn [lstrip char_in]. intros H.
  apply orb_false_elim in H as [Ha Hs].
  destruct (is_space a); [by apply IH|]. cbn. by rewrite Ha, Hs.
Qed.

Lemma char_in_rstrip c s : char_in c s = false -> char_in c (rstrip s) = false.
Proof.
  induction s as [|a s IH]; [done|]. cbn [rstrip char_in]. intros H.
  apply orb_false_elim in H as [Ha Hs].
  destruct (is_space a && is_empty (rstrip s)); [done|].
  cbn. by rewrite Ha, IH.
Qed.

Lemma char_in_strip c s : char_in c s = false -> char_in c (strip s) = false.
Proof. intros H. by apply char_in_rstrip, char_in_lstrip. Qed.

Lemma split_cons sep s : exists p ps, split sep s = p :: ps.
Proof.
  induction s as [|c s (p & ps & IH)]; [by eexists _, _|]. cbn [split].
  destruct (Ascii.eqb c sep); [by eexists _, _|]. rewrite IH.
  by eexists _, _.
Qed.

(** No part of a split holds the separator. *)
Lemma split_parts sep s : Forall (fun p => char_in sep p = false) (split sep s).
Proof.
  induction s as [|c s IH]; [by repeat constructor|]. cbn [split].
  destruct (Ascii.eqb c sep) eqn:Hc; [by constructor|].
  destruct (split sep s) as [|p ps]; [by repeat constructor; rewrite
    Ascii.eqb_sym in Hc; cbn; rewrite Hc|].
  apply Forall_cons in IH as [Hp Hps]. constructor; [|done].
  cbn. rewrite Ascii.eqb_sym in Hc. by rewrite Hc, Hp.
Qed.

(** Joining parts that do not hold the separator and splitting again gives
    the parts back. *)
Lemma split_join sep p ps :
  Forall (fun p => char_in sep p = false) (p :: ps) ->
  split sep (join (String sep EmptyString) (p :: ps)) = p :: ps.
Proof.
  revert p; induction ps as [|q ps IH]; intros p Hall.
  - apply Forall_cons in Hall as [Hp _]. cbn [join].
    induction p as [|c p IHp]; [done|]. cbn [split char_in] in *.
    apply orb_false_elim in Hp as [Hc Hp]. rewrite Ascii.eqb_sym in Hc.
    by rewrite Hc, IHp.
  - apply Forall_cons in Hall as [Hp Hall]. specialize (IH q Hall).
    change (join (String sep EmptyString) (p :: q :: ps))
      with (p +:+ String sep EmptyString
              +:+ join (String sep EmptyString) (q :: ps)).
    induction p as [|c p IHp].
    + change (split sep (String sep (join (String sep EmptyString) (q :: ps)))
              = EmptyString :: q :: ps).
      cbn [split]. by rewrite Ascii.eqb_refl, IH.
    + cbn [char_in] in Hp. apply orb_false_elim in Hp as [Hc Hp].
      rewrite Ascii.eqb_sym in Hc.
      match goal with
      | |- context [String c p +:+ ?t] =>
          change (String c p +:+ t) with (String c (p +:+ t))
      end.
      cbn [split]. by rewrite Hc, IHp.
Qed.

End StripFacts.

Section Credentials.

(** X7.  Every credential [get_api_keys] returns is usable as it is: it is
    not empty, has no blank at either end and holds no comma. *)
Theorem get_api_keys_usable (env : Env) :
  Forall usable_key (get_api_keys env).
Proof.
  unfold get_api_keys.
  destruct (if falsy_str (env "RECRUITER_API_KEYS")
            then env "GEMINI_API_KEYS" else env "RECRUITER_API_KEYS")
    as [s|]; [|constructor].
  destruct (is_empty s); [constructor|].
  apply Forall_forall. intros k Hk.
  apply list_elem_of_filter in Hk as [Hne Hk].
  apply list_elem_of_fmap in Hk as (part & -> & Hpart).
  pose proof (split_parts "," s) as Hparts.
  rewrite Forall_forall in Hparts. specialize (Hparts part Hpart).
  split_and!.
  - intros Heq. rewrite Heq in Hne. done.
  - apply strip_idem.
  - by apply char_in_strip.
Qed.

(** X8.  Reading back: when the primary variable holds usable credentials
    joined by commas, [get_api_keys] returns exactly these, in order, and
    the legacy variable is not consulted. *)
Theorem get_api_keys_of_joined (env : Env) (k : string) (ks : list string) :
  Forall usable_key (k :: ks) ->
  env "RECRUITER_API_KEYS" = Some (join "," (k :: ks)) ->
  get_api_keys env = k :: ks.
Proof.
  intros Hall Henv. unfold get_api_keys. rewrite Henv.
  assert (Hne : is_empty (join "," (k :: ks)) = false).
  { apply Forall_cons in Hall as [(Hk & _) _].
    destruct k as [|c k]; [done|]. by destruct ks. }
  cbn [falsy_str]. rewrite Hne. cbn beta iota. rewrite Hne, split_join.
  2:{ eapply Forall_impl; [exact Hall|]. by intros a (_ & _ & Ha). }
  clear Henv Hne. revert Hall. generalize (k :: ks). clear k ks.
  intros l Hall.
  induction Hall as [|a l (Ha & Hstrip & _) _ IH]; [done|].
  cbn [map]. rewrite filter_cons, Hstrip.
  destruct (decide _) as [_|Hno]; [by rewrite IH|].
  destruct a; [done|]. by destruct Hno.
Qed.

End Credentials.

Lemma get_api_keys_of_joined_witness :
  get_api_keys (env_with "RECRUITER_API_KEYS" "key-one,key-two")
  = ["key-one"; "key-two"].
Proof.
  apply (get_api_keys_of_joined
           (env_with "RECRUITER_API_KEYS" "key-one,key-two")
           "key-one" ["key-two"]).
  - repeat constructor; discriminate.
  - reflexivity.
Defined.

(** ** question_generator.py: what the enforcer leaves alone *)

Section EnforcerFrame.
Implicit Types (h : Heap) (questions : list loc).

Lemma py_take_subseteq {A : Type} (xs : list A) (k : Z) x :
  x ∈ py_take xs k -> x ∈ xs.
Proof.
  destruct (py_take_is_take xs k) as [m ->]. intros Hx.
  eapply elem_of_sublist; [exact Hx|apply sublist_take].
Qed.

Lemma rebuild_structure_frame questions role n h :
  Forall (fun l => l < length h) questions ->
  exists locs h',
    rebuild_structure questions role n h = Some (locs, h')
    /\ length h <= length h'
    /\ (forall l, l < length h -> same_content (deref h' l) (deref h l))
    /\ (forall l, l < length h -> l ∉ questions -> h' !! l = h !! l)
    /\ Forall (fun l => l ∈ questions \/ length h <= l < length h') locs.
Proof.
  intros Hvalid. unfold rebuild_structure.
  unfold bind at 1, gets at 1.
  destruct (extract_roles h questions None None []) as [[i0 c0] mid] eqn:Hex.
  cbn [fst snd].
  apply extract_roles_spec in Hex as (Hperm & _ & _).
  cbn [olist app] in Hperm. rewrite app_nil_r in Hperm.
  assert (Hin : forall l, l ∈ olist i0 ++ mid ++ olist c0 -> l ∈ questions)
    by (intros l Hl; by rewrite <- Hperm).
  assert (Hi0 : forall q, i0 = Some q -> q ∈ questions).
  { intros q ->. apply Hin. cbn [olist]. rewrite elem_of_app. left.
    by apply list_elem_of_singleton. }
  assert (Hc0 : forall q, c0 = Some q -> q ∈ questions).
  { intros q ->. apply Hin. cbn [olist]. rewrite !elem_of_app. right. right.
    by apply list_elem_of_singleton. }
  assert (Hmid : forall q, q ∈ mid -> q ∈ questions).
  { intros q Hq. apply Hin. rewrite !elem_of_app. right. by left. }
  rewrite Forall_forall in Hvalid.
  assert (Hintro : exists li e1,
    match i0 with
    | Some q => ret q
    | None => new_dict (default_intro role)
    end h = Some (li, h ++ e1)
    /\ (li ∈ questions \/ length h <= li < length (h ++ e1))).
  { destruct i0 as [li|].
    - exists li, []. rewrite app_nil_r. split; [done|]. left. by apply Hi0.
    - exists (length h), [default_intro role]. split; [done|]. right.
      rewrite length_app. cbn. lia. }
  destruct Hintro as (li & e1 & Hrun1 & Hli).
  unfold bind at 1. rewrite Hrun1. clear Hrun1.
  set (h1 := h ++ e1) in *.
  assert (Hlen1 : length h1 = length h + length e1) by apply length_app.
  assert (Hclosing : exists lco e2,
    match c0 with
    | Some q => ret (Some q)
    | None =>
        if (2 <? n)%Z
        then do c <- new_dict (default_closing 999); ret (Some c)
        else ret None
    end h1 = Some (lco, h1 ++ e2)
    /\ (forall lc, lco = Some lc ->
          lc ∈ questions \/ length h <= lc < length (h1 ++ e2))).
  { destruct c0 as [lc|].
    - exists (Some lc), []. rewrite app_nil_r. split; [done|].
      intros lc' [= <-]. left. by apply Hc0.
    - destruct (2 <? n)%Z.
      + exists (Some (length h1)), [default_closing 999]. split; [done|].
        intros lc' [= <-]. right. rewrite length_app. cbn. lia.
      + exists None, []. rewrite app_nil_r. split; done. }
  destruct Hclosing as (lco & e2 & Hrun2 & Hlco).
  unfold bind at 1. rewrite Hrun2. clear Hrun2.
  set (h2 := h1 ++ e2) in *.
  assert (Hlen2 : length h2 = length h1 + length e2) by apply length_app.
  set (t := (n - (if lco is Some _ then 2 else 1))%Z).
  assert (Hmid_valid : Forall (fun l => l < length h2) mid).
  { apply Forall_forall. intros l Hl. specialize (Hvalid l (Hmid l Hl)). lia. }
  destruct (gap_fill_spec (Z.to_nat t) t mid 0 h2 Hmid_valid)
    as (vs & Hrun3 & _ & _); [lia|].
  unfold bind at 1. rewrite Hrun3. clear Hrun3.
  set (h3 := h2 ++ vs) in *.
  assert (Hlen3 : length h3 = length h2 + length vs) by apply length_app.
  set (mid' := mid ++ seq (length h2) (length vs)) in *.
  set (final := match lco with
                | Some c => [li] ++ py_take mid' t ++ [c]
                | None => [li] ++ py_take mid' t
                end).
  assert (Hfinal : final = [li] ++ py_take mid' t ++ olist lco)
    by (unfold final; destruct lco; cbn [olist]; by rewrite ?app_nil_r).
  clearbody final.
  destruct (assign_ids_spec final 1 h3)
    as (h4 & Hrun4 & Hlen4 & Hframe & Hsame & _).
  unfold bind at 1. rewrite Hrun4. unfold ret.
  exists (py_take final n), h4. split; [done|].
  assert (Hmembers : forall l,
    l ∈ final -> l ∈ questions \/ length h <= l < length h4).
  { intros l Hl. rewrite Hfinal in Hl. rewrite !elem_of_app in Hl.
    destruct Hl as [Hl|[Hl|Hl]].
    - apply list_elem_of_singleton in Hl as ->.
      destruct Hli as [?|?]; [by left|right; lia].
    - apply py_take_subseteq in Hl. unfold mid' in Hl.
      rewrite elem_of_app in Hl.
      destruct Hl as [Hl|Hl]; [left; by apply Hmid|].
      apply elem_of_seq in Hl. right. lia.
    - destruct lco as [lc|]; cbn [olist] in Hl; [|by apply elem_of_nil in Hl].
      apply list_elem_of_singleton in Hl as ->.
      destruct (Hlco lc eq_refl) as [?|?]; [by left|right; lia]. }
  split; [lia|]. split.
  { intros l Hl. unfold same_content. rewrite (Hsame l).
    unfold h3, h2, h1. rewrite <- !app_assoc. by rewrite deref_app_l. }
  split.
  { intros l Hl Hnew. rewrite Hframe.
    - unfold h3, h2, h1. rewrite <- !app_assoc. by apply lookup_app_l.
    - intros Hin'. destruct (Hmembers l Hin') as [?|?]; [done|lia]. }
  apply Forall_forall. intros l Hl. apply py_take_subseteq in Hl.
  by apply Hmembers.
Qed.

(** X9.  The enforcer never edits a question it was given, except for its
    id: whatever the candidates and the requested count, it returns a
    script, every object that existed before keeps its text, type,
    difficulty, context and code, an object that is not a candidate is not
    written at all, and the script is made of candidates and of objects
    created by the call (the defaults and the tagged copies). *)
Theorem enforce_keeps_content questions (role : string) (n : Z) h :
  Forall (fun l => l < length h) questions ->
  exists locs h',
    _enforce_interview_structure questions role n h = Some (locs, h')
    /\ length h <= length h'
    /\ (forall l, l < length h -> same_content (deref h' l) (deref h l))
    /\ (forall l, l < length h -> l ∉ questions -> h' !! l = h !! l)
    /\ Forall (fun l => l ∈ questions \/ length h <= l < length h') locs.
Proof.
  intros Hvalid.
  destruct (decide (questions = [])) as [->|Hne].
  { exists [], h. split_and!; [done|done|done|done|constructor]. }
  destruct (already_valid h questions) eqn:Hv.
  - rewrite enforce_valid_path by done.
    destruct (assign_ids_spec questions 1 h)
      as (h' & Hrun & Hlen & Hframe & Hsame & _).
    exists questions, h'. unfold bind, ret. rewrite Hrun.
    split_and!; [done|lia|by intros l _|by intros l _; apply Hframe|].
    apply Forall_forall. intros l Hl. by left.
  - rewrite enforce_repair_path by done.
    by apply rebuild_structure_frame.
Qed.

End EnforcerFrame.

Lemma enforce_keeps_content_witness :
  exists locs h',
    _enforce_interview_structure [0; 1] "Data Engineer" 4
      [sample_plain 5 "What is a mutex?"; sample_plain 6 "What is a heap?"]
    = Some (locs, h')
    /\ 2 <= length h'
    /\ (forall l, l < 2 ->
          same_content
            (deref h' l)
            (deref [sample_plain 5 "What is a mutex?";
                    sample_plain 6 "What is a heap?"] l)).
Proof.
  destruct (enforce_keeps_content [0; 1] "Data Engineer" 4
              [sample_plain 5 "What is a mutex?";
               sample_plain 6 "What is a heap?"])
    as (locs & h' & Hrun & Hlen & Hsame & _ & _).
  - repeat constructor.
  - exists locs, h'. split_and!; done.
Defined.

(** ** question_bank.py: the script of the fallback *)

Section FallbackShape.
Implicit Types (h : Heap).

#[local] Abbreviation follow_up_tag := " (Follow-up / Alternate angle)".

Lemma cyclic_entry_from_pool (pool : list Question) j :
  pool <> [] ->
  exists b, b ∈ pool
            /\ (cyclic_entry follow_up_tag pool j = b
                \/ cyclic_entry follow_up_tag pool j
                   = append_context follow_up_tag b).
Proof.
  intros Hne. exists (pool !!! (j mod length pool)). split.
  - apply list_elem_of_lookup_total_2, Nat.mod_upper_bound.
    by destruct pool.
  - unfold cyclic_entry. destruct (length pool <=? j); [by right|by left].
Qed.

(** X10.  For a requested count [n >= 1] the fallback returns exactly [n]
    questions with ids [1..n]: the introduction naming the role first, the
    closing question last when [n > 1], and in between the questions of the
    middle pool of the bank in the order of the pool, starting over at its
    end: position [j] holds the pool entry [(j - 1) mod length pool], as it
    is during the first pass over the pool, and with the follow-up tag added
    once to its context from the second pass on. *)
Theorem get_fallback_questions_exact (resume_text role : string) (n : Z) h :
  15 <= length h ->
  (1 <= n)%Z ->
  exists locs h',
    get_fallback_questions resume_text role n h = Some (locs, h')
    /\ length locs = Z.to_nat n
    /\ ids (values h' locs) = one_to (Z.to_nat n)
    /\ values h' locs !! 0 = Some (default_intro role)
    /\ ((1 < n)%Z ->
        values h' locs !! (Z.to_nat n - 1) = Some (default_closing n))
    /\ let pool := values h (middle_pool_of resume_text) in
       0 < length pool
       /\ forall j, 1 <= j < Z.to_nat n - 1 ->
            let base := pool !!! ((j - 1) mod length pool) in
            values h' locs !! j
            = Some (set_id (Z.of_nat j + 1)
                      (if length pool <=? j - 1
                       then append_context " (Follow-up / Alternate angle)"
                                           base
                       else base)).
Proof.
  intros Hh Hn.
  set (pool := values h (middle_pool_of resume_text)).
  set (V := fallback_script pool role n).
  assert (HlenV : length V = Z.to_nat n) by by apply length_fallback_script.
  exists (py_take (seq (length h) (length V)) n), (h ++ V).
  split; [by apply get_fallback_questions_spec|].
  rewrite values_fresh_slice.
  rewrite !py_take_all by (rewrite ?length_seq; lia).
  rewrite length_seq.
  split; [done|].
  assert (Hpool : pool <> []).
  { unfold pool, values. destruct (middle_pool_of_bounds resume_text) as [H _].
    by destruct (middle_pool_of resume_text). }
  unfold V, fallback_script in HlenV |- *.
  set (middle := map (cyclic_entry follow_up_tag pool)
                     (seq 0 (Z.to_nat (n - 2)))) in *.
  assert (Hmiddle : length middle = Z.to_nat (n - 2))
    by (unfold middle; by rewrite length_map, length_seq).
  rewrite length_renumber in HlenV.
  split.
  { rewrite ids_renumber, HlenV. done. }
  split; [done|].
  split.
  { intros H1. rewrite (proj2 (Z.ltb_lt 1 n)) by done.
    rewrite (renumber_lookup _ _ _ (default_closing 9999)).
    - unfold set_id, default_closing. cbn. do 2 f_equal. lia.
    - rewrite app_assoc. apply list_lookup_middle.
      rewrite length_app. cbn [length]. lia. }
  cbn zeta. fold pool. split; [destruct pool; [done|cbn; lia]|].
  intros j Hj.
  change (if length pool <=? j - 1
          then append_context " (Follow-up / Alternate angle)"
                              (pool !!! ((j - 1) mod length pool))
          else pool !!! ((j - 1) mod length pool))
    with (cyclic_entry " (Follow-up / Alternate angle)" pool (j - 1)).
  replace (Z.of_nat j + 1)%Z with (1 + Z.of_nat j)%Z by lia.
  apply renumber_lookup.
  destruct j as [|j]; [lia|].
  change ([default_intro role] ++ ?l) with (default_intro role :: l).
  rewrite lookup_cons, lookup_app_l by lia.
  unfold middle. rewrite list_lookup_fmap, lookup_seq_lt by lia.
  cbn. do 3 f_equal. lia.
Qed.

(** X11.  For a requested count of zero or less the fallback returns the
    empty list. *)
Theorem get_fallback_questions_none (resume_text role : string) (n : Z) h :
  15 <= length h ->
  (n <= 0)%Z ->
  exists h', get_fallback_questions resume_text role n h = Some ([], h').
Proof.
  intros Hh Hn. eexists. rewrite get_fallback_questions_spec by done.
  do 2 f_equal.
  assert (Hlen : length (fallback_script
                           (values h (middle_pool_of resume_text)) role n) = 1).
  { unfold fallback_script.
    rewrite length_renumber, !length_app, length_map, length_seq.
    rewrite (proj2 (Z.ltb_ge 1 n)) by lia. cbn [length]. lia. }
  rewrite Hlen. unfold py_take. cbn [seq length].
  destruct (0 <=? n)%Z eqn:H0.
  - apply Z.leb_le in H0. by replace (Z.to_nat n) with 0 by lia.
  - apply Z.leb_gt in H0. by replace (1 - Z.to_nat (- n)) with 0 by lia.
Qed.

End FallbackShape.

Lemma get_fallback_questions_exact_witness :
  exists locs h',
    get_fallback_questions "Ten years of JavaScript" "Frontend Developer" 13
                           module_heap = Some (locs, h')
    /\ length locs = 13
    /\ ids (values h' locs) = one_to 13
    /\ length (middle_pool_of "Ten years of JavaScript") = 10
    /\ values h' locs !! 1
       = Some (mkQuestion 2
                 "What is the difference between '==' and '===' in JavaScript?"
                 "technical" "easy" "JS fundamentals." (Some EmptyString))
    /\ values h' locs !! 11
       = Some (mkQuestion 12
                 "What is the difference between '==' and '===' in JavaScript?"
                 "technical" "easy"
                 "JS fundamentals. (Follow-up / Alternate angle)"
                 (Some EmptyString)).
Proof.
  destruct (get_fallback_questions_exact
              "Ten years of JavaScript" "Frontend Developer" 13 module_heap)
    as (locs & h' & Hrun & Hlen & Hids & _ & _ & _ & Hmiddle);
    [vm_compute; lia|lia|].
  exists locs, h'. split_and!; try done.
  - rewrite (Hmiddle 1) by lia. vm_compute. reflexivity.
  - rewrite (Hmiddle 11) by lia. vm_compute. reflexivity.
Defined.

Lemma get_fallback_questions_none_witness :
  exists h',
    get_fallback_questions "Ten years of JavaScript" "Frontend Developer" (-3)
                           module_heap = Some ([], h').
Proof.
  apply (get_fallback_questions_none
           "Ten years of JavaScript" "Frontend Developer" (-3) module_heap);
    [vm_compute; lia|lia].
Defined.

(** ** question_generator.py: generate_questions *)

Section SortFacts.
Implicit Types (h : Heap) (qs : list loc).

Lemma insert_by_id_perm h q qs : insert_by_id h q qs ≡ₚ q :: qs.
Proof.
  induction qs as [|q' qs IH]; [done|]. cbn [insert_by_id].
  destruct (q_id (deref h q) <=? q_id (deref h q'))%Z; [done|].
  rewrite IH. apply perm_swap.
Qed.

Lemma sort_by_id_perm h qs : sort_by_id h qs ≡ₚ qs.
Proof.
  induction qs as [|q qs IH]; [done|]. unfold sort_by_id in *.
  cbn [foldr]. by rewrite insert_by_id_perm, IH.
Qed.

Lemma insert_by_id_sorted h q qs :
  sorted_by_id h qs -> sorted_by_id h (insert_by_id h q qs).
Proof.
  unfold sorted_by_id. induction 1 as [|q' qs Hs IH Hall]; cbn [insert_by_id].
  - repeat constructor.
  - destruct (q_id (deref h q) <=? q_id (deref h q'))%Z eqn:Hle.
    + apply Z.leb_le in Hle. constructor; [by constructor|].
      constructor; [done|].
      eapply Forall_impl; [exact Hall|]. cbn. intros. lia.
    + apply Z.leb_gt in Hle. constructor; [done|].
      rewrite insert_by_id_perm. constructor; [lia|done].
Qed.

Lemma insert_by_id_with_id h v q qs :
  with_id h v (insert_by_id h q qs) = with_id h v (q :: qs).
Proof.
  unfold with_id. induction qs as [|q' qs IH]; [done|]. cbn [insert_by_id].
  destruct (q_id (deref h q) <=? q_id (deref h q'))%Z eqn:Hle; [done|].
  apply Z.leb_gt in Hle. cbn [List.filter] in *. rewrite IH.
  destruct (q_id (deref h q') =? v)%Z eqn:Hq'; [|done].
  apply Z.eqb_eq in Hq'.
  by rewrite (proj2 (Z.eqb_neq (q_id (deref h q)) v)) by lia.
Qed.

(** X12.  Sorting the decoded questions by id keeps every question, leaves
    the ids in non-decreasing order and keeps questions with equal ids in
    the order of the response. *)
Theorem sort_by_id_stable h qs :
  sort_by_id h qs ≡ₚ qs
  /\ sorted_by_id h (sort_by_id h qs)
  /\ forall v, with_id h v (sort_by_id h qs) = with_id h v qs.
Proof.
  split; [apply sort_by_id_perm|]. split.
  - induction qs as [|q qs IH]; [constructor|].
    by apply insert_by_id_sorted.
  - intros v. induction qs as [|q qs IH]; [done|].
    unfold sort_by_id in *. cbn [foldr]. rewrite insert_by_id_with_id.
    unfold with_id in *. cbn [List.filter]. by rewrite IH.
Qed.

End SortFacts.

Section GenerateQuestions.
Context {W : Type} (svc : GenAI W) (libs : PyLibs) (env : Env).
Implicit Types (h : Heap).

Lemma new_dicts_eq (data : list Question) h :
  new_dicts data h = Some (seq (length h) (length data), h ++ data).
Proof.
  revert h; induction data as [|q data IH]; intros h.
  - cbn. by rewrite app_nil_r.
  - cbn [new_dicts]. unfold bind at 1. rewrite new_dict_eq.
    unfold bind at 1. rewrite IH. unfold ret.
    rewrite length_app, <- app_assoc. cbn [length app seq].
    by replace (length h + 1) with (S (length h)) by lia.
Qed.

(** The script of the enforcer, for distinct candidates. *)
Lemma enforce_script_starts_with_intro questions role (n : Z) h :
  questions <> [] ->
  NoDup questions ->
  Forall (fun l => l < length h) questions ->
  (1 <= n)%Z ->
  exists locs h',
    _enforce_interview_structure questions role n h = Some (locs, h')
    /\ (forall l, l ∉ questions -> l < length h -> h' !! l = h !! l)
    /\ ids (values h' locs) = one_to (length locs)
    /\ exists l, locs !! 0 = Some l /\ is_intro_question (deref h' l) = true.
Proof.
  intros Hne Hnd Hvalid Hn.
  destruct (already_valid h questions) eqn:Hv.
  - rewrite enforce_valid_path by done.
    destruct (assign_ids_spec questions 1 h)
      as (h' & Hrun & Hlen & Hframe & Hsame & Hids).
    specialize (Hids Hnd Hvalid).
    exists questions, h'. unfold bind, ret. rewrite Hrun.
    unfold already_valid in Hv. apply andb_true_iff in Hv as [Hi _].
    split_and!; [done|by intros l Hl _; apply Hframe
                |by apply (ids_of_assigned h)|].
    exists (questions !!! 0). split.
    + apply list_lookup_lookup_total_lt. destruct questions; [done|cbn; lia].
    + by rewrite (is_intro_same_content _ _ (Hsame _)).
  - rewrite enforce_repair_path by done.
    destruct (rebuild_structure_shape questions role n h Hnd Hvalid Hn)
      as (locs & h' & Hrun & _ & Hids & Hintro & _).
    destruct (rebuild_structure_frame questions role n h Hvalid)
      as (locs2 & h2 & Hrun2 & _ & _ & Hframe & _).
    rewrite Hrun in Hrun2. injection Hrun2 as <- <-.
    exists locs, h'. split_and!; [done| |done|done].
    intros l Hl Hlt. by apply Hframe.
Qed.

(** X13.  Question generation always returns a script, whatever the
    service and the decoder do.  When the generation call raises, or the
    response does not decode, the script is the one of the static bank for
    the same resume, role and count.  When the response decodes, the script
    is the decoded questions, sorted by id and passed through the structure
    enforcement.  The call leaves every object that existed before as it
    was (the bank included); after a failure the script has the requested
    length, and a script that is not empty has ids [1..len] and starts with
    an intro question. *)
Theorem generate_questions_always_returns
  (resume_text role : string) (n : Z) (difficulty job_description : string)
  (auto_select_count : bool) (w : W) h :
  15 <= length h ->
  (1 <= n)%Z ->
  let prompt := questions_prompt resume_text role n difficulty
                                 job_description auto_select_count in
  let generated :=
    fst (run_genai_with_rotation svc env prompt true None None w) in
  let run := generate_questions svc libs env resume_text role n difficulty
                                job_description auto_select_count w h in
  let failed :=
    (exists e, generated = Raise e)
    \/ (exists response_text e,
          generated = Ok response_text
          /\ decode_questions libs response_text = Raise e) in
  (failed -> run = get_fallback_questions resume_text role n h)
  /\ (forall response_text data,
        generated = Ok response_text ->
        decode_questions libs response_text = Ok data ->
        run = _enforce_interview_structure
                (sort_by_id (h ++ data) (seq (length h) (length data)))
                role n (h ++ data))
  /\ exists locs h',
       run = Some (locs, h')
       /\ (forall l, l < length h -> h' !! l = h !! l)
       /\ (failed -> length locs = Z.to_nat n)
       /\ (locs <> [] ->
           ids (values h' locs) = one_to (length locs)
           /\ exists l, locs !! 0 = Some l
                        /\ is_intro_question (deref h' l) = true).
Proof.
  intros Hh Hn prompt generated run failed.
  assert (Hrun : run
    = match (match generated with
             | Ok response_text => decode_questions libs response_text
             | Raise e => Raise e
             end) with
      | Ok data =>
          _enforce_interview_structure
            (sort_by_id (h ++ data) (seq (length h) (length data)))
            role n (h ++ data)
      | Raise e => get_fallback_questions resume_text role n h
      end).
  { unfold run, generate_questions, generated, prompt, questions_prompt.
    cbn zeta.
    destruct (match (run_genai_with_rotation svc env _ true None None w).1
              with
              | Ok response_text => decode_questions libs response_text
              | Raise e => Raise e
              end) as [data|e]; [|done].
    unfold bind at 1. rewrite new_dicts_eq.
    unfold bind at 1, gets at 1. done. }
  assert (Hfailed : failed ->
            exists e, (match generated with
                       | Ok response_text =>
                           decode_questions libs response_text
                       | Raise e => Raise e
                       end) = Raise e).
  { intros [[e He]|(response_text & e & Hgen & He)]; exists e.
    - by rewrite He.
    - by rewrite Hgen. }
  split; [|split].
  - intros [e He]%Hfailed. by rewrite Hrun, He.
  - intros response_text data Hgen Hdata. by rewrite Hrun, Hgen, Hdata.
  - rewrite Hrun.
    destruct (match generated with
              | Ok response_text => decode_questions libs response_text
              | Raise e => Raise e
              end) as [data|e].
    + (* a decoded response: sort, then enforce *)
      assert (Hsuccess : ~ failed) by (intros [e He]%Hfailed; done).
      set (h1 := h ++ data).
      set (sorted := sort_by_id h1 (seq (length h) (length data))).
      assert (Hperm : sorted ≡ₚ seq (length h) (length data))
        by apply sort_by_id_perm.
      assert (Hnd : NoDup sorted) by (rewrite Hperm; apply NoDup_seq).
      assert (Hfresh : Forall (fun l => length h <= l < length h1) sorted).
      { rewrite Hperm. apply fresh_block_bounds. }
      assert (Hvalid : Forall (fun l => l < length h1) sorted).
      { eapply Forall_impl; [exact Hfresh|]. cbn. lia. }
      destruct (decide (sorted = [])) as [Hnil|Hne].
      { exists [], h1. rewrite Hnil. split; [done|].
        split; [intros l Hl; by apply lookup_app_l|done]. }
      destruct (enforce_script_starts_with_intro sorted role n h1
                  Hne Hnd Hvalid Hn)
        as (locs & h' & Hrun' & Hframe & Hids & Hintro).
      exists locs, h'. split; [done|]. split; [|done].
      intros l Hl. rewrite Hframe.
      * by apply lookup_app_l.
      * intros Hin. rewrite Forall_forall in Hfresh.
        specialize (Hfresh l Hin). lia.
      * unfold h1. rewrite length_app. lia.
    + (* a failure: the static bank *)
      set (V := fallback_script (values h (middle_pool_of resume_text)) role n).
      assert (HlenV : length V = Z.to_nat n)
        by by apply length_fallback_script.
      exists (py_take (seq (length h) (length V)) n), (h ++ V).
      split; [by apply get_fallback_questions_spec|].
      split; [intros l Hl; by apply lookup_app_l|].
      split.
      { intros _. rewrite py_take_all by (rewrite ?length_seq; lia).
        by rewrite length_seq. }
      intros _.
      rewrite values_fresh_slice.
      rewrite !py_take_all by (rewrite ?length_seq; lia).
      rewrite length_seq. split.
      * unfold V, fallback_script in HlenV |- *.
        rewrite length_renumber in HlenV.
        rewrite ids_renumber, HlenV, <- HlenV. unfold one_to.
        by rewrite length_renumber.
      * exists (length h). split.
        -- rewrite lookup_seq_lt by lia. f_equal. lia.
        -- unfold deref. rewrite lookup_total_app_r by lia.
           rewrite Nat.sub_diag. unfold V, fallback_script.
           cbn [app renumber]. cbn [lookup_total list_lookup_total].
           rewrite <- (is_intro_same_content (default_intro role)).
           ++ apply is_intro_default_intro.
           ++ unfold same_content. by rewrite set_id_set_id.
Qed.

End GenerateQuestions.

(** ** evaluator.py *)

Section AppendFacts.

Lemma str_app_cons c s t : String c s +:+ t = String c (s +:+ t).
Proof. done. Qed.

Lemma str_app_assoc s t u : (s +:+ t) +:+ u = s +:+ t +:+ u.
Proof.
  induction s as [|c s IH]; [done|]. by rewrite !str_app_cons, IH.
Qed.

Lemma str_length_app s t :
  String.length (s +:+ t) = String.length s + String.length t.
Proof.
  induction s as [|c s IH]; [done|]. rewrite str_app_cons. cbn. by rewrite IH.
Qed.

Lemma str_take_app s t : str_take (String.length s) (s +:+ t) = s.
Proof.
  induction s as [|c s IH]; [by destruct t|].
  rewrite str_app_cons. cbn. by rewrite IH.
Qed.

Lemma str_drop_app s t : str_drop (String.length s) (s +:+ t) = t.
Proof. induction s as [|c s IH]; [by destruct t|]. by rewrite str_app_cons. Qed.

Lemma endswith_app s p : endswith (s +:+ p) p = true.
Proof.
  unfold endswith. rewrite str_length_app.
  rewrite (proj2 (Nat.leb_le _ _)) by lia.
  replace (String.length s + String.length p - String.length p)
    with (String.length s) by lia.
  rewrite str_drop_app. cbn. apply String.eqb_refl.
Qed.

Lemma str_drop_last_app s p : str_drop_last (String.length p) (s +:+ p) = s.
Proof.
  unfold str_drop_last. rewrite str_length_app.
  replace (String.length s + String.length p - String.length p)
    with (String.length s) by lia.
  apply str_take_app.
Qed.

Lemma is_empty_app_r s t : is_empty t = false -> is_empty (s +:+ t) = false.
Proof. by destruct s. Qed.

(** Blanks at the end go, whatever is in front of them. *)
Lemma rstrip_app_blank s t : rstrip t = EmptyString -> rstrip (s +:+ t) = rstrip s.
Proof.
  intros Ht. induction s as [|c s IH]; [done|].
  rewrite str_app_cons. cbn [rstrip]. by rewrite IH.
Qed.

Lemma rstrip_app_kept s t :
  is_empty (rstrip t) = false -> rstrip (s +:+ t) = s +:+ rstrip t.
Proof.
  intros Ht. induction s as [|c s IH]; [done|].
  rewrite !str_app_cons. cbn [rstrip]. rewrite IH.
  by rewrite is_empty_app_r, andb_false_r.
Qed.

Lemma lstrip_app_blank s t : lstrip s = EmptyString -> lstrip (s +:+ t) = lstrip t.
Proof.
  induction s as [|c s IH]; [done|]. rewrite str_app_cons. cbn [lstrip].
  destruct (is_space c); [done|discriminate].
Qed.

Lemma lstrip_app_kept s t :
  is_empty (lstrip s) = false -> lstrip (s +:+ t) = lstrip s +:+ t.
Proof.
  induction s as [|c s IH]; [done|]. rewrite str_app_cons. cbn [lstrip].
  destruct (is_space c); done.
Qed.

(** A line feed on either side does not change what [strip] returns. *)
Lemma strip_between_newlines body : strip (nl +:+ body +:+ nl) = strip body.
Proof.
  unfold strip. change (lstrip (nl +:+ body +:+ nl)) with (lstrip (body +:+ nl)).
  destruct (is_empty (lstrip body)) eqn:Hb.
  - destruct (lstrip body) eqn:Heq; [|done].
    by rewrite lstrip_app_blank.
  - rewrite lstrip_app_kept by done. by apply rstrip_app_blank.
Qed.

End AppendFacts.

Section EvaluatorCleanup.

(** The fence of both kinds comes off in one piece. *)
Lemma strip_fenced tag body :
  strip (fenced tag body) = fenced tag body.
Proof.
  unfold strip, fenced. rewrite lstrip_app_kept by done.
  change (lstrip "```") with "```".
  rewrite <- !str_app_assoc. by rewrite rstrip_app_kept.
Qed.

(** X14.  A response wrapped in a code fence, tagged [json] or not, is
    cleaned to the same text as the bare response. *)
Theorem strip_code_fence_unwraps body :
  strip_code_fence (fenced "json" body) = strip body
  /\ strip_code_fence (fenced EmptyString body) = strip body.
Proof.
  assert (Hrest : forall rest : string,
    strip (if endswith (nl +:+ body +:+ nl +:+ "```") "```"
           then str_drop_last 3 (nl +:+ body +:+ nl +:+ "```")
           else rest) = strip body).
  { intros rest.
    rewrite <- !str_app_assoc, endswith_app.
    rewrite (str_drop_last_app _ "```"), str_app_assoc.
    apply strip_between_newlines. }
  split; unfold strip_code_fence; rewrite strip_fenced; apply Hrest.
Qed.

End EvaluatorCleanup.

Section EvaluatorResults.
Context {W : Type} (svc : GenAI W) (libs : PyLibs) (env : Env).

Lemma length_str_take n s : String.length (str_take n s) <= n.
Proof.
  revert s; induction n as [|n IH]; intros [|c s]; cbn; try lia.
  specialize (IH s). lia.
Qed.

(** X15.  The evaluation never looks at the context keywords, and of a
    skipped answer it uses nothing but the fact that it was skipped: two
    calls on the same question that differ only in the keywords, or in
    which skipped answer they carry, give the same result. *)
Theorem evaluate_blind_to_skipped_text (question a1 a2 : string)
  (kws1 kws2 : list string) (w : W) :
  a1 = a2 \/ (is_skipped_answer a1 = true /\ is_skipped_answer a2 = true) ->
  evaluate svc libs env question a1 kws1 w
  = evaluate svc libs env question a2 kws2 w.
Proof.
  intros [->|[H1 H2]]; unfold evaluate.
  - by destruct (evaluate_try _ _ _ _ _).
  - rewrite H1, H2.
    change (evaluate_prompt question a1 true)
      with (evaluate_prompt question a2 true).
    by destruct (evaluate_try _ _ _ _ _).
Qed.

(** X16.  Whatever makes the evaluation fail, the result is the fallback
    for the text of the error, and nothing else of the call shows in it.
    The failures are: the generation call raises; the cleaned response does
    not decode; it decodes to something that is no object, which raises the
    attribute error of [data.get]; the validation refuses the decoded
    fields.  When the text of the error contains "429" the result is the
    fixed Quota notice; otherwise its feedback quotes the first 100
    characters of that text, and is at most 142 characters long.  The score
    is 0 and no missing keyword is listed either way. *)
Theorem evaluate_failure_is_fallback (question answer : string)
  (kws : list string) (w : W) (e : PyError) :
  let prompt := evaluate_prompt question answer (is_skipped_answer answer) in
  let generated :=
    fst (run_genai_with_rotation svc env prompt true None None w) in
  generated = Raise e
  \/ (exists response_text,
        generated = Ok response_text
        /\ (json_loads libs (strip_code_fence response_text) = Raise e
            \/ (exists data,
                  json_loads libs (strip_code_fence response_text) = Ok data
                  /\ (forall fields, data <> JObj fields)
                  /\ e = attribute_error data "get")
            \/ (exists data,
                  json_loads libs (strip_code_fence response_text)
                  = Ok (JObj data)
                  /\ make_EvaluationResult libs
                       (fields_get data "score" (JInt 0))
                       (fields_get data "feedback"
                                   (JStr "No feedback provided."))
                       (fields_get data "missing_keywords" (JArr []))
                       (fields_get data "improvements"
                                   (JStr "No specific improvements suggested."))
                       (fields_get data "ideal_answer"
                                   (JStr "No ideal answer provided."))
                     = Raise e))) ->
  let r := evaluate svc libs env question answer kws w in
  (if contains "429" (py_str e)
   then r = mkEvaluationResult 0
              "⚠️ API Quota Limit Reached. AI evaluation is temporarily paused."
              []
              "Please wait a few minutes or add more API keys to the .env file."
              "Generative AI is currently taking a short break to recharge usage limits. Please check back in a bit!"
   else r = mkEvaluationResult 0
              ("Evaluation service unavailable. Error: "
               +:+ str_take 100 (py_str e) +:+ "...")
              [] "Check API Connection." "No ideal answer provided.")
  /\ String.length (feedback r) <= 142.
Proof.
  intros prompt generated Hfail r.
  assert (Htry : evaluate_try svc libs env prompt w = Raise e).
  { unfold evaluate_try. fold generated.
    destruct Hfail as [->|(response_text & -> & Hcase)]; [done|].
    destruct Hcase as [->|[(data & -> & Hobj & ->)|(data & -> & ->)]];
      [done| |done].
    destruct data; try done. by edestruct Hobj. }
  unfold r, evaluate. fold prompt. rewrite Htry.
  unfold _fallback_evaluate.
  destruct (contains "429" (py_str e)).
  - split; [done|]. vm_compute. lia.
  - split; [done|]. cbn [feedback].
    rewrite !str_length_app.
    pose proof (length_str_take 100 (py_str e)). cbn [String.length]. lia.
Qed.

End EvaluatorResults.

Lemma evaluate_blind_to_skipped_text_witness :
  evaluate (constant_service (Ok score_seven_response)) sample_libs
           three_keys "What is React?" EmptyString ["library"] 0
  = evaluate (constant_service (Ok score_seven_response)) sample_libs
             three_keys "What is React?" "  No ANSWER provided. "
             ["hooks"; "state"] 0.
Proof.
  apply (evaluate_blind_to_skipped_text
           (constant_service (Ok score_seven_response)) sample_libs
           three_keys "What is React?" EmptyString "  No ANSWER provided. "
           ["library"] ["hooks"; "state"] 0).
  right. split; reflexivity.
Defined.

Lemma evaluate_failure_is_fallback_witness :
  evaluate (constant_service (Raise internal_error)) sample_libs
           three_keys "What is React?" "A library." [] 0
  = mkEvaluationResult 0
      "Evaluation service unavailable. Error: 500 Internal error encountered...."
      [] "Check API Connection." "No ideal answer provided."
  /\ evaluate (constant_service (Raise quota_error)) sample_libs
              three_keys "What is React?" "A library." ["library"] 0
     = mkEvaluationResult 0
         "⚠️ API Quota Limit Reached. AI evaluation is temporarily paused."
         []
         "Please wait a few minutes or add more API keys to the .env file."
         "Generative AI is currently taking a short break to recharge usage limits. Please check back in a bit!"
  /\ evaluate (constant_service (Ok "[7]")) sample_libs
              three_keys "What is React?" "A library." [] 0
     = mkEvaluationResult 0
         "Evaluation service unavailable. Error: 'list' object has no attribute 'get'..."
         [] "Check API Connection." "No ideal answer provided."
  /\ String.length
       (feedback (evaluate (constant_service (Ok score_as_list_response))
                           sample_libs three_keys "What is React?"
                           "A library." [] 0)) <= 142.
Proof.
  split; [|split; [|split]].
  - refine (proj1 (evaluate_failure_is_fallback
                     (constant_service (Raise internal_error)) sample_libs
                     three_keys "What is React?" "A library." [] 0
                     internal_error _)).
    by left.
  - refine (proj1 (evaluate_failure_is_fallback
                     (constant_service (Raise quota_error)) sample_libs
                     three_keys "What is React?" "A library." ["library"] 0
                     quota_error _)).
    by left.
  - refine (proj1 (evaluate_failure_is_fallback
                     (constant_service (Ok "[7]")) sample_libs
                     three_keys "What is React?" "A library." [] 0
                     (attribute_error (JArr [JInt 7]) "get") _)).
    right. exists "[7]". split; [done|]. right. left.
    exists (JArr [JInt 7]). split_and!; done.
  - destruct (make_EvaluationResult sample_libs (JArr [JInt 7])
                (JStr "No feedback provided.") (JArr [])
                (JStr "No specific improvements suggested.")
                (JStr "No ideal answer provided."))
      as [r|e] eqn:Hmake; [vm_compute in Hmake; discriminate|].
    refine (proj2 (evaluate_failure_is_fallback
                     (constant_service (Ok score_as_list_response))
                     sample_libs three_keys "What is React?" "A library." []
                     0 e _)).
    right. exists score_as_list_response. split; [done|]. right. right.
    exists [("score", JArr [JInt 7])]. by split.
Defined.

(** ** resume_parser.py: the keyword fallback *)

Section KeywordExtraction.

Lemma tech_titles_NoDup : NoDup (map title tech_keywords).
Proof. apply (bool_decide_unpack _). vm_compute. exact I. Qed.

(** X17.  What the keyword fallback returns: the text it was given, no
    project, skills that are title-cased entries of the fixed vocabulary,
    each at most once and in the order of the vocabulary, and at most ten
    experience lines, each a stripped line of the text of more than fifty
    characters. *)
Theorem keyword_extraction_shape (text : string) :
  let d := _fallback_keyword_extraction text in
  kd_raw_text d = text
  /\ kd_projects d = []
  /\ kd_skills d `sublist_of` map title tech_keywords
  /\ NoDup (kd_skills d)
  /\ length (kd_experience d) <= 10
  /\ Forall (fun line => 50 < String.length line
                         /\ strip line = line
                         /\ char_in nl_char line = false
                         /\ exists raw, raw ∈ split nl_char text
                                        /\ line = strip raw)
            (kd_experience d).
Proof.
  cbn zeta. unfold _fallback_keyword_extraction.
  cbn [kd_raw_text kd_projects kd_skills kd_experience].
  assert (Hsub : map title (filter (fun kw => search_word kw text)
                                   tech_keywords)
                 `sublist_of` map title tech_keywords).
  { apply fmap_sublist, sublist_filter. }
  split_and!; [done|done|done| | |].
  - eapply sublist_NoDup; [apply tech_titles_NoDup|done].
  - rewrite length_take. lia.
  - apply Forall_take, Forall_forall. intros line Hline.
    apply list_elem_of_fmap in Hline as (raw & -> & Hraw).
    apply list_elem_of_filter in Hraw as [Hlong Hraw].
    pose proof (split_parts nl_char text) as Hparts.
    rewrite Forall_forall in Hparts.
    split_and!.
    + apply Is_true_eq_true in Hlong. by apply Nat.ltb_lt in Hlong.
    + apply strip_idem.
    + apply char_in_strip. by apply Hparts.
    + by exists raw.
Qed.

Ltac each_ascii c :=
  destruct c as [[] [] [] [] [] [] [] []]; reflexivity.


Lemma is_word_lower_ascii c : is_word (lower_ascii c) = is_word c.
Proof. each_ascii c. Qed.


Lemma length_lower s : String.length (lower s) = String.length s.
Proof. induction s as [|c s IH]; [done|]. cbn. by rewrite IH. Qed.

Lemma str_take_lower n s : str_take n (lower s) = lower (str_take n s).
Proof.
  revert s; induction n as [|n IH]; intros [|c s]; cbn; try done.
  by rewrite IH.
Qed.

Lemma str_drop_lower n s : str_drop n (lower s) = lower (str_drop n s).
Proof. revert s; induction n as [|n IH]; intros [|c s]; cbn; done. Qed.


Lemma word_last_lower s :
  word_opt (last_char (lower s)) = word_opt (last_char s).
Proof.
  induction s as [|c s IH]; [done|]. destruct s as [|c' s].
  - cbn. apply is_word_lower_ascii.
  - exact IH.
Qed.




Lemma startswith_split s p :
  startswith s p = true -> s = p +:+ str_drop (String.length p) s.
Proof.
  revert s; induction p as [|a p IH]; intros s H; [by destruct s|].
  destruct s as [|b s]; [done|]. cbn in H.
  apply andb_true_iff in H as [Hab H]. apply Ascii.eqb_eq in Hab as ->.
  rewrite str_app_cons. cbn [String.length str_drop]. f_equal. by apply IH.
Qed.

Lemma startswith_refl_app p t : startswith (p +:+ t) p = true.
Proof.
  induction p as [|a p IH]; [done|]. rewrite str_app_cons. cbn.
  by rewrite Ascii.eqb_refl.
Qed.

(** X19.  A vocabulary entry whose last character is not a word character
    is detected only where the text goes on with a word character right
    after it (a letter or a digit, accented letters included, or an
    underscore), because the search asks for a word boundary after the
    entry.  The vocabulary has one such entry, "c++": followed by a blank,
    by punctuation or by the end of the text it is not detected; followed
    by a digit or by an accented letter it is. *)
Theorem keyword_ending_in_symbol_needs_word_after (kw text : string) :
  word_opt (last_char kw) = false ->
  search_word kw text = true ->
  exists c, is_word c = true
            /\ contains (lower kw +:+ String c EmptyString) (lower text) = true.
Proof.
  intros Hlast. unfold search_word. generalize (@None ascii).
  induction text as [|c0 s IH]; intros prev H.
  - cbn in H. rewrite orb_false_r in H.
    apply andb_true_iff in H as [H Hb]. apply andb_true_iff in H as [Hs _].
    destruct kw as [|a kw]; [|done]. cbn in Hb. done.
  - cbn [search_word_from] in H. apply orb_true_iff in H as [H|H].
    2:{ destruct (IH _ H) as (c & Hc & Hin). exists c. split; [done|].
        change (lower (String c0 s)) with (String (lower_ascii c0) (lower s)).
        cbn [contains]. rewrite Hin. apply orb_true_r. }
    clear IH. set (t := String c0 s) in *.
    apply andb_true_iff in H as [H Hb]. apply andb_true_iff in H as [Hs _].
    assert (Htake : lower (str_take (String.length kw) t) = lower kw).
    { rewrite <- str_take_lower. rewrite (startswith_split _ _ Hs) at 1.
      rewrite <- (length_lower kw). apply str_take_app. }
    assert (Hw : word_opt (last_char (str_take (String.length kw) t)) = false).
    { by rewrite <- word_last_lower, Htake, word_last_lower. }
    unfold at_boundary in Hb. rewrite Hw in Hb. cbn [xorb] in Hb.
    destruct (str_drop (String.length kw) t) as [|c rest] eqn:Hdrop; [done|].
    cbn in Hb. exists (lower_ascii c).
    split; [by rewrite is_word_lower_ascii|].
    apply startswith_contains.
    rewrite (startswith_split _ _ Hs), length_lower, str_drop_lower, Hdrop.
    change (lower (String c rest)) with (String (lower_ascii c) (lower rest)).
    change (String (lower_ascii c) (lower rest))
      with (String (lower_ascii c) EmptyString +:+ lower rest).
    rewrite <- str_app_assoc. apply startswith_refl_app.
Qed.

End KeywordExtraction.


Lemma keyword_ending_in_symbol_needs_word_after_witness :
  List.filter (fun kw => negb (word_opt (last_char kw))) tech_keywords = ["c++"]
  /\ search_word "c++" "Ten years of C++ and Java" = false
  /\ search_word "c++" "Ported the code base to C++17" = true
  /\ search_word "c++" ("C++" +:+ String (ascii_of_nat 233) EmptyString)
     = true
  /\ search_word "python" (String (ascii_of_nat 233) "python") = false
  /\ exists c, is_word c = true
               /\ contains ("c++" +:+ String c EmptyString)
                           (lower "Ported the code base to C++17") = true.
Proof.
  do 5 (split; [reflexivity|]).
  apply (keyword_ending_in_symbol_needs_word_after
           "c++" "Ported the code base to C++17"); reflexivity.
Defined.

(** ** resume_parser.py: structuring and the direct path *)

Section Dictionaries.
Implicit Types (d : list (string * json)) (k : string) (v : json).

Lemma fields_get_set_eq d k v default :
  fields_get (fields_set d k v) k default = v.
Proof.
  induction d as [|[k0 v0] d IH]; cbn.
  - by rewrite String.eqb_refl.
  - destruct (String.eqb k0 k) eqn:Hk; cbn; by rewrite Hk.
Qed.

Lemma fields_get_set_ne d k k' v default :
  k <> k' ->
  fields_get (fields_set d k v) k' default = fields_get d k' default.
Proof.
  intros Hne. induction d as [|[k0 v0] d IH]; cbn [fields_set fields_get].
  - by rewrite (proj2 (String.eqb_neq k k')).
  - destruct (String.eqb k0 k) eqn:Hk; cbn [fields_get].
    + apply String.eqb_eq in Hk as ->.
      by rewrite (proj2 (String.eqb_neq k k')).
    + by rewrite IH.
Qed.

End Dictionaries.

Section ResumeStructuring.
Context {W : Type} (svc : GenAI W) (libs : PyLibs) (env : Env)
        (fs : FileSystem).

Lemma clean_items_are_strings items :
  exists xs, map (clean_item libs) items = map JStr xs.
Proof.
  induction items as [|item items (xs & IH)]; [by exists []|].
  assert (Hitem : exists x, clean_item libs item = JStr x)
    by (destruct item; cbn; eauto).
  destruct Hitem as [x Hx]. exists (x :: xs). cbn. by rewrite Hx, IH.
Qed.

Lemma clean_key_cleaned data key default :
  exists xs, fields_get (clean_key libs data key) key default = JStrs xs.
Proof.
  unfold clean_key. rewrite fields_get_set_eq. unfold JStrs.
  match goal with
  | |- context [map (clean_item libs) ?items] =>
      destruct (clean_items_are_strings items) as [xs Hxs]
  end.
  exists xs. by rewrite Hxs.
Qed.

Lemma clean_key_other data key key' default :
  key <> key' ->
  fields_get (clean_key libs data key) key' default
  = fields_get data key' default.
Proof. intros Hne. unfold clean_key. by apply fields_get_set_ne. Qed.

Lemma empty_lists :
  lists_of_strings
    [("skills", JArr []); ("experience", JArr []); ("projects", JArr [])].
Proof. repeat constructor; by exists []. Qed.

Lemma cleaned_lists data :
  lists_of_strings
    (fold_left (clean_key libs) ["skills"; "experience"; "projects"] data).
Proof.
  cbn [fold_left]. unfold lists_of_strings. repeat constructor.
  - rewrite !clean_key_other by done. apply clean_key_cleaned.
  - rewrite clean_key_other by done. apply clean_key_cleaned.
  - apply clean_key_cleaned.
Qed.

(** A field that already is a list of strings goes through the cleanup as
    it is. *)
Lemma clean_key_strings data key xs default :
  fields_get data key (JArr []) = JStrs xs ->
  fields_get (clean_key libs data key) key default = JStrs xs.
Proof.
  intros Hxs. unfold clean_key. rewrite fields_get_set_eq, Hxs.
  unfold JStrs. f_equal. clear Hxs. induction xs as [|x xs IH]; [done|].
  cbn [map clean_item]. by rewrite IH.
Qed.

(** Structuring ends in a dictionary with three lists of strings, which
    are empty after a failed generation call. *)
Lemma structure_resume_data_lists (raw_text : string) (w : W) :
  exists data,
    structure_resume_data svc libs env raw_text w = Ok (JObj data)
    /\ lists_of_strings data
    /\ forall e,
         _get_model_response svc env (structure_prompt raw_text) None true w
         = Raise e ->
         JObj data = empty_structure.
Proof.
  unfold structure_resume_data.
  destruct (_get_model_response svc env (structure_prompt raw_text) None
                                true w) as [response_text|e].
  2:{ eexists. split; [reflexivity|]. split; [exact empty_lists|done]. }
  destruct (json_loads libs response_text) as [data|e].
  2:{ eexists. split; [reflexivity|]. split; [exact empty_lists|done]. }
  destruct data as [| | | | | |data];
    try (eexists; split; [reflexivity|]; split; [exact empty_lists|done]).
  eexists. split; [reflexivity|]. split; [apply cleaned_lists|done].
Qed.

(** X20.  Structuring never raises.  What it returns is a dictionary whose
    skills, experience and projects are lists of strings, whatever the
    response held under these keys; a list of strings in the response is
    kept as it is, and so is every other key of the response. *)
Theorem structure_resume_data_normalises (raw_text : string) (w : W) :
  exists data,
    structure_resume_data svc libs env raw_text w = Ok (JObj data)
    /\ lists_of_strings data
    /\ forall response_text response,
         _get_model_response svc env (structure_prompt raw_text) None true w
         = Ok response_text ->
         json_loads libs response_text = Ok (JObj response) ->
         (forall key xs,
            key ∈ ["skills"; "experience"; "projects"] ->
            fields_get response key (JArr []) = JStrs xs ->
            fields_get data key (JArr []) = JStrs xs)
         /\ (forall key default,
               key ∉ ["skills"; "experience"; "projects"] ->
               fields_get data key default = fields_get response key default).
Proof.
  unfold structure_resume_data.
  destruct (_get_model_response svc env (structure_prompt raw_text) None
                                true w) as [response_text|e] eqn:Hgen.
  2:{ eexists. split; [reflexivity|]. split; [exact empty_lists|intros ? ? ? ?; congruence]. }
  destruct (json_loads libs response_text) as [data|e] eqn:Hjson.
  2:{ eexists. split; [reflexivity|]. split; [exact empty_lists|intros ? ? ? ?; congruence]. }
  destruct data as [| | | | | |data];
    try (eexists; split; [reflexivity|]; split; [exact empty_lists|intros ? ? ? ?; congruence]).
  eexists. split; [reflexivity|]. split; [apply cleaned_lists|].
  intros ? response Ha Hb.
  assert (response = data) as -> by congruence.
  cbn [fold_left]. split.
  - intros key xs Hkey Hxs.
    rewrite !elem_of_cons in Hkey.
    destruct Hkey as [->|[->|[->|Hkey]]]; [| | |by apply elem_of_nil in Hkey].
    + rewrite !clean_key_other by done. by apply clean_key_strings.
    + rewrite clean_key_other by done. apply clean_key_strings.
      by rewrite clean_key_other.
    + apply clean_key_strings. by rewrite !clean_key_other.
  - intros key default Hkey.
    rewrite !not_elem_of_cons in Hkey. destruct Hkey as (H1 & H2 & H3 & _).
    by rewrite !clean_key_other.
Qed.

Lemma JStrs_inj (xs ys : list string) : JStrs xs = JStrs ys -> xs = ys.
Proof.
  unfold JStrs. intros H. injection H as H.
  revert ys H; induction xs as [|x xs IH]; intros [|y ys] H; try done.
  cbn in H. injection H as -> H. f_equal. by apply IH.
Qed.

(** X21.  A document whose native text has at least 50 characters after
    stripping always yields a profile: the stripped text, the base name and
    the extension of the file, and the three lists of strings that
    structuring that text returns under skills, experience and projects.
    The three lists are empty when the generation call fails, also when the
    failure is Quota (the keyword fallback is not used on this path), when
    the response does not decode, and when it decodes to something that is
    no object. *)
Theorem parse_resume_direct_path (filepath text : string) (w : W) :
  PyLibsLaws libs ->
  native_text fs (lower (splitext_ext filepath)) filepath = Ok text ->
  (String.length (strip text) <? 50) = false ->
  let generated :=
    _get_model_response svc env (structure_prompt (strip text)) None true w in
  exists data skills experience projects,
    structure_resume_data svc libs env (strip text) w = Ok (JObj data)
    /\ fields_get data "skills" (JArr []) = JStrs skills
    /\ fields_get data "experience" (JArr []) = JStrs experience
    /\ fields_get data "projects" (JArr []) = JStrs projects
    /\ parse_resume svc libs env fs filepath w
       = Ok (mkResumeData (strip text) (basename filepath)
                          (lower (splitext_ext filepath))
                          skills experience projects)
    /\ ((exists e, generated = Raise e)
        \/ (exists response_text,
              generated = Ok response_text
              /\ ((exists e, json_loads libs response_text = Raise e)
                  \/ (exists other,
                        json_loads libs response_text = Ok other
                        /\ forall fields, other <> JObj fields))) ->
        skills = [] /\ experience = [] /\ projects = []).
Proof.
  intros Hlaws Hnative Hlong generated.
  unfold parse_resume. rewrite Hnative, Hlong.
  destruct (structure_resume_data_lists (strip text) w)
    as (data & Hrun & Hlists & _).
  rewrite Hrun. unfold resume_of_dict.
  apply Forall_cons in Hlists as [[s Hs] Hlists].
  apply Forall_cons in Hlists as [[e He] Hlists].
  apply Forall_cons in Hlists as [[p Hp] _].
  exists data, s, e, p. rewrite Hs, He, Hp.
  split; [done|]. split; [done|]. split; [done|]. split; [done|]. split.
  - apply (make_ResumeData_typed libs Hlaws).
  - intros Hfail.
    assert (Hempty : JObj data = empty_structure).
    { unfold structure_resume_data in Hrun. fold generated in Hrun.
      destruct Hfail as [[err Herr]|(response_text & Hgen & Hcase)].
      - rewrite Herr in Hrun. by injection Hrun as <-.
      - rewrite Hgen in Hrun.
        destruct Hcase as [[err Herr]|(other & Hother & Hobj)].
        + rewrite Herr in Hrun. by injection Hrun as <-.
        + rewrite Hother in Hrun.
          destruct other; try (by injection Hrun as <-).
          by edestruct Hobj. }
    injection Hempty as ->.
    split_and!; apply JStrs_inj; symmetry; assumption.
Qed.

(** X22.  A file whose extension is none of [.pdf], [.docx], [.txt] is
    refused with the extension in the message, whatever the service and
    the file system hold. *)
Theorem parse_resume_unsupported (filepath : string) (w : W) :
  let ext := lower (splitext_ext filepath) in
  ext ∉ [".pdf"; ".docx"; ".txt"] ->
  parse_resume svc libs env fs filepath w
  = Raise (plain_error ("Unsupported file format: " +:+ ext)).
Proof.
  cbn zeta. intros Hext. unfold parse_resume, native_text.
  rewrite !not_elem_of_cons in Hext. destruct Hext as (H1 & H2 & H3 & _).
  by rewrite (proj2 (String.eqb_neq _ _) H1), (proj2 (String.eqb_neq _ _) H2),
       (proj2 (String.eqb_neq _ _) H3).
Qed.

End ResumeStructuring.

Lemma parse_resume_direct_path_witness :
  kd_skills (_fallback_keyword_extraction long_resume_line)
  = ["Python"; "React"; "Docker"]
  /\ parse_resume (constant_service (Raise quota_error)) sample_libs
                  three_keys (one_txt "cv.txt" long_resume_line) "cv.txt" 0
     = Ok (mkResumeData long_resume_line "cv.txt" ".txt" [] [] [])
  /\ parse_resume (constant_service (Ok "not json")) sample_libs
                  three_keys (one_txt "cv.txt" long_resume_line) "cv.txt" 0
     = Ok (mkResumeData long_resume_line "cv.txt" ".txt" [] [] [])
  /\ parse_resume (constant_service (Ok skills_as_text_response)) sample_libs
                  three_keys (one_txt "cv.txt" long_resume_line) "cv.txt" 0
     = Ok (mkResumeData long_resume_line "cv.txt" ".txt" ["Python"] [] []).
Proof.
  split; [reflexivity|]. split; [|split].
  - destruct (parse_resume_direct_path
                (constant_service (Raise quota_error)) sample_libs three_keys
                (one_txt "cv.txt" long_resume_line) "cv.txt" long_resume_line
                0 sample_libs_laws eq_refl eq_refl)
      as (data & s & e & p & _ & _ & _ & _ & Hrun & Hfail).
    destruct Hfail as (-> & -> & ->); [|exact Hrun].
    left. by exists quota_error.
  - destruct (parse_resume_direct_path
                (constant_service (Ok "not json")) sample_libs three_keys
                (one_txt "cv.txt" long_resume_line) "cv.txt" long_resume_line
                0 sample_libs_laws eq_refl eq_refl)
      as (data & s & e & p & _ & _ & _ & _ & Hrun & Hfail).
    destruct Hfail as (-> & -> & ->); [|exact Hrun].
    right. exists "not json". split; [done|]. left.
    destruct (json_loads sample_libs "not json") as [d|err] eqn:Hd;
      [vm_compute in Hd; discriminate|].
    by exists err.
  - destruct (parse_resume_direct_path
                (constant_service (Ok skills_as_text_response)) sample_libs
                three_keys (one_txt "cv.txt" long_resume_line) "cv.txt"
                long_resume_line 0 sample_libs_laws eq_refl eq_refl)
      as (data & s & e & p & Hstruct & Hs & He & Hp & Hrun & _).
    vm_compute in Hstruct. injection Hstruct as <-.
    apply (JStrs_inj ["Python"] s) in Hs.
    apply (JStrs_inj [] e) in He.
    apply (JStrs_inj [] p) in Hp.
    by rewrite <- Hs, <- He, <- Hp in Hrun.
Defined.

Lemma parse_resume_unsupported_witness :
  parse_resume (constant_service (Ok "unused")) sample_libs three_keys
               (one_txt "notes.md" long_resume_line) "notes.md" 0
  = Raise (plain_error "Unsupported file format: .md").
Proof.
  apply (parse_resume_unsupported
           (constant_service (Ok "unused")) sample_libs three_keys
           (one_txt "notes.md" long_resume_line) "notes.md" 0).
  change (".md" ∉ [".pdf"; ".docx"; ".txt"]).
  rewrite !not_elem_of_cons. split_and!; try discriminate.
  apply not_elem_of_nil.
Defined.

Lemma generate_questions_always_returns_witness :
  (exists locs h',
     generate_questions (constant_service (Ok one_question_response))
       sample_libs three_keys "Ten years of Python" "Data Engineer" 4
       "mixed" EmptyString false 0 module_heap
     = Some (locs, h')
     /\ (forall l, l < length module_heap -> h' !! l = module_heap !! l))
  /\ generate_questions (constant_service (Ok one_question_response))
       sample_libs three_keys "Ten years of Python" "Data Engineer" 4
       "mixed" EmptyString false 0 module_heap
     = _enforce_interview_structure [15] "Data Engineer" 4
         (module_heap
          ++ [mkQuestion 4 "What is a mutex?" "technical" "easy" "threads"
                         None])
  /\ generate_questions (constant_service (Raise quota_error))
       sample_libs three_keys "Ten years of Python" "Data Engineer" 4
       "mixed" EmptyString false 0 module_heap
     = get_fallback_questions "Ten years of Python" "Data Engineer" 4
                              module_heap
  /\ generate_questions (constant_service (Ok "not json"))
       sample_libs three_keys "Ten years of Python" "Data Engineer" 4
       "mixed" EmptyString false 0 module_heap
     = get_fallback_questions "Ten years of Python" "Data Engineer" 4
                              module_heap.
Proof.
  split; [|split; [|split]].
  - destruct (generate_questions_always_returns
                (constant_service (Ok one_question_response)) sample_libs
                three_keys "Ten years of Python" "Data Engineer" 4
                "mixed" EmptyString false 0 module_heap)
      as (_ & _ & locs & h' & Hrun & Hframe & _); [vm_compute; lia|lia|].
    by exists locs, h'.
  - destruct (generate_questions_always_returns
                (constant_service (Ok one_question_response)) sample_libs
                three_keys "Ten years of Python" "Data Engineer" 4
                "mixed" EmptyString false 0 module_heap)
      as (_ & Hdecoded & _); [vm_compute; lia|lia|].
    exact (Hdecoded one_question_response
             [mkQuestion 4 "What is a mutex?" "technical" "easy" "threads"
                         None] eq_refl eq_refl).
  - destruct (generate_questions_always_returns
                (constant_service (Raise quota_error)) sample_libs
                three_keys "Ten years of Python" "Data Engineer" 4
                "mixed" EmptyString false 0 module_heap)
      as (Hfailed & _); [vm_compute; lia|lia|].
    apply Hfailed. left. exists quota_error. vm_compute. reflexivity.
  - destruct (generate_questions_always_returns
                (constant_service (Ok "not json")) sample_libs
                three_keys "Ten years of Python" "Data Engineer" 4
                "mixed" EmptyString false 0 module_heap)
      as (Hfailed & _); [vm_compute; lia|lia|].
    apply Hfailed. right.
    destruct (decode_questions sample_libs "not json") as [data|e] eqn:Hd;
      [vm_compute in Hd; discriminate|].
    by exists "not json", e.
Defined.

(** ** resume_parser.py: the PDF reader *)

Section PdfText.
Context (fs : FileSystem).

Lemma fold_pages_acc (acc : string) (pages : list (result string)) :
  fold_left (fun text page =>
               match page with
               | Ok page_text => text +:+ (page_text +:+ nl)
               | Raise _ => text
               end) pages acc
  = acc +:+ lines_of (readable pages).
Proof.
  revert acc; induction pages as [|[t|e] pages IH]; intros acc;
    cbn [fold_left readable lines_of].
  - induction acc as [|c acc IHacc]; [done|].
    rewrite str_app_cons. by rewrite <- IHacc.
  - rewrite IH. by rewrite str_app_assoc.
  - apply IH.
Qed.

(** X23.  The text of a PDF is the text of its readable pages, each
    followed by a line feed, in page order: a page that cannot be read is
    skipped and costs nothing else.  The text is empty exactly when no page
    could be read; a readable page without any text still contributes its
    line feed. *)
Theorem extract_text_from_pdf_pages (filepath : string)
  (pages : list (result string)) :
  pdf_pages fs filepath = Ok pages ->
  extract_text_from_pdf fs filepath = lines_of (readable pages)
  /\ (extract_text_from_pdf fs filepath = EmptyString
      <-> readable pages = []).
Proof.
  intros Hpages. unfold extract_text_from_pdf. rewrite Hpages.
  rewrite fold_pages_acc.
  change (EmptyString +:+ lines_of (readable pages))
    with (lines_of (readable pages)).
  split; [done|]. split.
  - destruct (readable pages) as [|t ts]; [done|].
    cbn [lines_of]. rewrite str_app_assoc. intros H.
    apply (f_equal String.length) in H. rewrite !str_length_app in H.
    cbn in H. lia.
  - by intros ->.
Qed.

End PdfText.

Lemma extract_text_from_pdf_pages_witness :
  extract_text_from_pdf damaged_pdf "cv.pdf" = nl
  /\ (extract_text_from_pdf damaged_pdf "cv.pdf" = EmptyString
      <-> readable [Raise (plain_error "broken stream"); Ok EmptyString] = []).
Proof.
  apply (extract_text_from_pdf_pages damaged_pdf "cv.pdf"
           [Raise (plain_error "broken stream"); Ok EmptyString]).
  reflexivity.
Defined.

(** ** question_bank.py: the questions of the fallback *)

Section FallbackContent.
Implicit Types (h : Heap) (pool : list Question).

#[local] Abbreviation follow_up_tag := " (Follow-up / Alternate angle)".

Lemma module_heap_well_formed :
  Forall (fun q => well_formed q = true) module_heap.
Proof. apply (bool_decide_unpack _). vm_compute. exact I. Qed.

Lemma well_formed_set_id idx q : well_formed (set_id idx q) = well_formed q.
Proof. done. Qed.

Lemma well_formed_append_context suffix q :
  well_formed (append_context suffix q) = well_formed q.
Proof. done. Qed.

Lemma well_formed_default_intro role : well_formed (default_intro role) = true.
Proof. done. Qed.

Lemma Forall_renumber (P : Question -> Prop) idx (qs : list Question) :
  (forall i q, P q -> P (set_id i q)) ->
  Forall P qs -> Forall P (renumber idx qs).
Proof.
  intros Hset Hqs. revert idx.
  induction Hqs as [|q qs Hq _ IH]; intros idx; cbn [renumber];
    constructor; [by apply Hset|apply IH].
Qed.

(** The middle pool of any resume, read from the intact bank, is made of
    bank questions. *)
Lemma middle_pool_from_bank resume_text :
  Forall (fun q => q ∈ module_heap)
         (values module_heap (middle_pool_of resume_text)).
Proof.
  destruct (middle_pool_of_bounds resume_text) as [_ Hb].
  unfold values. apply Forall_fmap. eapply Forall_impl; [exact Hb|].
  intros l Hl. cbn. apply list_elem_of_lookup_total_2.
  by rewrite (eq_refl : length module_heap = 15).
Qed.

(** X24.  With the bank as the module defines it, every question of a
    fallback script fits the schema: it has a text, its type is technical,
    behavioral or coding, its difficulty is easy, medium or hard, and it
    carries the [initial_code] key. *)
Theorem get_fallback_questions_well_formed (resume_text role : string)
  (n : Z) h :
  take 15 h = module_heap ->
  exists locs h',
    get_fallback_questions resume_text role n h = Some (locs, h')
    /\ Forall (fun q => well_formed q = true) (values h' locs).
Proof.
  intros Hh. pose proof (intact_bank_length h Hh) as Hlen.
  eexists _, _. split; [by apply get_fallback_questions_spec|].
  rewrite values_fresh_slice. apply Forall_py_take.
  rewrite (intact_bank_values h _ Hh) by apply middle_pool_of_bounds.
  set (pool := values module_heap (middle_pool_of resume_text)).
  assert (Hpool : Forall (fun q => well_formed q = true) pool).
  { pose proof module_heap_well_formed as Hbank.
    rewrite Forall_forall in Hbank.
    eapply Forall_impl; [apply middle_pool_from_bank|]. cbn. apply Hbank. }
  assert (Hne : pool <> []).
  { unfold pool, values. destruct (middle_pool_of_bounds resume_text) as [H _].
    by destruct (middle_pool_of resume_text). }
  unfold fallback_script. apply Forall_renumber; [done|].
  rewrite !Forall_app. split_and!.
  - by constructor.
  - apply Forall_fmap, Forall_forall. intros j _. unfold compose.
    rewrite Forall_forall in Hpool.
    destruct (cyclic_entry_from_pool pool j Hne) as (b & Hb & [Heq|Heq]);
      rewrite Heq, ?well_formed_append_context; by apply Hpool.
  - destruct (1 <? n)%Z; by repeat constructor.
Qed.

Lemma cyclic_prefix pool k :
  k <= length pool ->
  map (cyclic_entry follow_up_tag pool) (seq 0 k) = take k pool.
Proof.
  intros Hk. apply list_eq. intros i.
  change (map ?f ?l) with (f <$> l). rewrite list_lookup_fmap.
  destruct (decide (i < k)) as [Hi|Hi].
  - rewrite lookup_seq_lt, lookup_take_lt by done. cbn.
    unfold cyclic_entry.
    rewrite (proj2 (Nat.leb_gt _ _)) by lia. rewrite Nat.mod_small by lia.
    symmetry. apply list_lookup_lookup_total_lt. lia.
  - rewrite lookup_seq_ge, lookup_take_ge by lia. done.
Qed.

Lemma map_text_renumber idx (qs : list Question) :
  map q_text (renumber idx qs) = map q_text qs.
Proof.
  revert idx; induction qs as [|q qs IH]; intros idx; [done|].
  cbn. by rewrite IH.
Qed.

Lemma map_context_renumber idx (qs : list Question) :
  map q_context (renumber idx qs) = map q_context qs.
Proof.
  revert idx; induction qs as [|q qs IH]; intros idx; [done|].
  cbn. by rewrite IH.
Qed.

(** The eight middle pools the bank can give are fresh. *)
Lemma middle_pool_fresh resume_text :
  fresh_pool (values module_heap (middle_pool_of resume_text)) = true.
Proof.
  unfold middle_pool_of, matched_candidates, QUESTION_BANK.
  cbn [fold_left str_elem existsb String.eqb Ascii.eqb Bool.eqb negb orb
       andb dict_get].
  set (r := lower resume_text).
  destruct (contains "python" r), (contains "javascript" r),
    (contains "react" r); vm_compute; reflexivity.
Qed.

(** X25.  With the bank as the module defines it, a fallback script of up
    to eleven questions never asks the same thing twice, whatever the
    resume and the role: its texts differ from one another and no context
    carries the follow-up tag. *)
Theorem get_fallback_questions_no_repeat (resume_text role : string)
  (n : Z) h :
  take 15 h = module_heap ->
  (1 <= n <= 11)%Z ->
  exists locs h',
    get_fallback_questions resume_text role n h = Some (locs, h')
    /\ NoDup (map q_text (values h' locs))
    /\ Forall (fun q => contains "(Follow-up" (q_context q) = false)
              (values h' locs).
Proof.
  intros Hh Hn. pose proof (intact_bank_length h Hh) as Hlen.
  eexists _, _. split; [by apply get_fallback_questions_spec|].
  rewrite values_fresh_slice.
  rewrite (intact_bank_values h _ Hh) by apply middle_pool_of_bounds.
  pose proof (middle_pool_fresh resume_text) as Hfresh.
  set (pool := values module_heap (middle_pool_of resume_text)) in *.
  unfold fresh_pool in Hfresh.
  apply andb_true_iff in Hfresh as [Hfresh Htags].
  apply andb_true_iff in Hfresh as [Hfresh Hopen].
  apply andb_true_iff in Hfresh as [Hsize Hnd].
  apply Nat.leb_le in Hsize. apply bool_decide_eq_true in Hnd.
  rewrite forallb_forall in Hopen. rewrite forallb_forall in Htags.
  rewrite py_take_all
    by (rewrite length_fallback_script by lia; lia).
  unfold fallback_script. rewrite cyclic_prefix by lia.
  set (closing := if (1 <? n)%Z then [default_closing 9999] else []).
  assert (Hsub : map q_text (take (Z.to_nat (n - 2)) pool ++ closing)
                  `sublist_of` map q_text pool ++ [closing_text]).
  { rewrite map_app. apply sublist_app.
    - apply fmap_sublist, sublist_take.
    - unfold closing. destruct (1 <? n)%Z; [done|apply sublist_nil_l]. }
  split.
  - rewrite map_text_renumber. cbn [app map].
    apply NoDup_cons. split; [|by eapply sublist_NoDup].
    intros Hin. eapply elem_of_sublist in Hin; [|exact Hsub].
    apply list_elem_of_In, Hopen in Hin. cbn [q_text default_intro] in Hin.
    assert (Hs : startswith (intro_text role) "To get us started" = true)
      by reflexivity.
    by rewrite Hs in Hin.
  - apply Forall_forall. intros q Hq.
    apply (list_elem_of_fmap_2 q_context) in Hq.
    change (q_context <$> ?l) with (map q_context l) in Hq.
    rewrite map_context_renumber in Hq.
    apply list_elem_of_fmap in Hq as (q0 & -> & Hq0).
    rewrite !elem_of_app in Hq0. destruct Hq0 as [Hq0|[Hq0|Hq0]].
    + apply list_elem_of_singleton in Hq0 as ->. reflexivity.
    + apply negb_true_iff, Htags, list_elem_of_In.
      eapply elem_of_sublist; [exact Hq0|apply sublist_take].
    + unfold closing in Hq0. destruct (1 <? n)%Z.
      * apply list_elem_of_singleton in Hq0 as ->. reflexivity.
      * by apply elem_of_nil in Hq0.
Qed.

End FallbackContent.

Lemma get_fallback_questions_well_formed_witness :
  exists locs h',
    get_fallback_questions "React and Docker" "Backend Engineer" 40
                           module_heap = Some (locs, h')
    /\ Forall (fun q => well_formed q = true) (values h' locs).
Proof.
  apply (get_fallback_questions_well_formed
           "React and Docker" "Backend Engineer" 40 module_heap).
  reflexivity.
Defined.

Lemma get_fallback_questions_no_repeat_witness :
  exists locs h',
    get_fallback_questions "React and Docker" "Backend Engineer" 11
                           module_heap = Some (locs, h')
    /\ NoDup (map q_text (values h' locs))
    /\ Forall (fun q => contains "(Follow-up" (q_context q) = false)
              (values h' locs).
Proof.
  apply (get_fallback_questions_no_repeat
           "React and Docker" "Backend Engineer" 11 module_heap);
    [reflexivity|lia].
Defined.

(** ** resume_parser.py: a failed scan *)

Section ScanFailure.

Lemma str_app_nil_r s : s +:+ EmptyString = s.
Proof. induction s as [|c s IH]; [done|]. by rewrite str_app_cons, IH. Qed.

Lemma rstrip_app_solid p s : rstrip p = p -> rstrip (p +:+ s) = p +:+ rstrip s.
Proof.
  intros Hp. destruct (is_empty (rstrip s)) eqn:Hs.
  - destruct (rstrip s) eqn:Heq; [|done].
    by rewrite rstrip_app_blank, str_app_nil_r.
  - by apply rstrip_app_kept.
Qed.

Lemma lstrip_rstrip s : lstrip (rstrip s) = rstrip (lstrip s).
Proof.
  induction s as [|c s IH]; [done|]. cbn [rstrip lstrip].
  destruct (is_space c) eqn:Hc; cbn [andb].
  - destruct (is_empty (rstrip s)) eqn:He.
    + destruct (rstrip s); [|done]. by rewrite <- IH.
    + cbn [lstrip]. by rewrite Hc.
  - cbn [lstrip rstrip]. by rewrite Hc.
Qed.

Lemma strip_rstrip s : strip (rstrip s) = strip s.
Proof. unfold strip. by rewrite lstrip_rstrip, rstrip_idem. Qed.

Lemma contains_cons k c s : contains k s = true -> contains k (String c s) = true.
Proof. intros H. cbn [contains]. rewrite H. apply orb_true_r. Qed.

Lemma contains_of_lstrip k s : contains k (lstrip s) = true -> contains k s = true.
Proof.
  induction s as [|c s IH]; [done|]. cbn [lstrip].
  destruct (is_space c); [|done]. intros H. by apply contains_cons, IH.
Qed.

Lemma rstrip_prefix s : exists blanks, s = rstrip s +:+ blanks.
Proof.
  induction s as [|c s (blanks & IH)]; [by exists EmptyString|].
  cbn [rstrip]. destruct (is_space c && is_empty (rstrip s)).
  - by exists (String c s).
  - exists blanks. by rewrite str_app_cons, <- IH.
Qed.

Lemma contains_of_rstrip k s : contains k (rstrip s) = true -> contains k s = true.
Proof.
  intros H. destruct (rstrip_prefix s) as [blanks Hs]. rewrite Hs.
  by apply contains_app_l.
Qed.

Lemma contains_of_strip k s : contains k (strip s) = true -> contains k s = true.
Proof. intros H. by apply contains_of_lstrip, contains_of_rstrip. Qed.

(** Without an occurrence there is nothing to replace. *)
Lemma replace_from_absent old new s :
  contains old s = false -> replace_from old new 0 s = s.
Proof.
  induction s as [|c s IH]; [done|]. cbn [contains replace_from].
  intros H. apply orb_false_elim in H as [Hhere Hlater].
  cbn [startswith] in Hhere |- *. rewrite Hhere. by rewrite IH.
Qed.

(** The characters of an occurrence are consumed without being looked at. *)
Lemma replace_from_skip old new p s :
  replace_from old new (String.length p) (p +:+ s) = replace_from old new 0 s.
Proof.
  induction p as [|c p IH]; [by destruct s|].
  rewrite str_app_cons. cbn [String.length replace_from]. apply IH.
Qed.

(** The text that is left of the error dictionary once the marker is
    removed: the text of the error, stripped. *)
Lemma error_marker_removed msg :
  contains "AI_ERROR:" msg = false ->
  strip (replace (strip ("AI_ERROR: " +:+ msg)) "AI_ERROR:" EmptyString)
  = strip msg.
Proof.
  intros Hmsg.
  assert (Hstrip : strip ("AI_ERROR: " +:+ msg)
                   = "AI_ERROR:" +:+ rstrip (" " +:+ msg)).
  { unfold strip. rewrite lstrip_app_kept by done.
    change (lstrip "AI_ERROR: " +:+ msg) with ("AI_ERROR:" +:+ " " +:+ msg).
    by apply rstrip_app_solid. }
  rewrite Hstrip. unfold replace.
  set (rest := rstrip (" " +:+ msg)).
  assert (Hrest : contains "AI_ERROR:" rest = false).
  { destruct (contains "AI_ERROR:" rest) eqn:H; [|done].
    apply contains_of_rstrip in H.
    change (" " +:+ msg) with (String " " msg) in H. cbn [contains] in H.
    rewrite Hmsg in H. by destruct msg. }
  change ("AI_ERROR:" +:+ rest)
    with (String "A" ("I_ERROR:" +:+ rest)).
  cbn [replace_from].
  change (startswith (String "A" ("I_ERROR:" +:+ rest)) "AI_ERROR:")
    with true.
  cbn iota.
  change (String.length "AI_ERROR:" - 1) with (String.length "I_ERROR:").
  rewrite replace_from_skip, replace_from_absent by done.
  change (EmptyString +:+ rest) with rest. unfold rest.
  rewrite strip_rstrip. reflexivity.
Qed.

Context {W : Type} (svc : GenAI W) (libs : PyLibs) (env : Env)
        (fs : FileSystem).

(** X26.  When the native text is too short and the scan fails with an
    error that is not classified as Quota, [parse_resume] gives up: it
    raises "AI Scan failed: " followed by the stripped text of the error
    (an error text that itself holds the marker "AI_ERROR:" apart). *)
Theorem parse_resume_scan_failure_is_fatal (filepath text : string)
  (e : PyError) (w : W) :
  native_text fs (lower (splitext_ext filepath)) filepath = Ok text ->
  (String.length (strip text) <? 50) = true ->
  multimodal_try svc libs env filepath w = Raise e ->
  contains "429" (py_str e) = false ->
  contains "AI_ERROR:" (py_str e) = false ->
  parse_resume svc libs env fs filepath w
  = Raise (plain_error ("AI Scan failed: " +:+ strip (py_str e))).
Proof.
  intros Hnative Hshort Htry Hquota Hmarker.
  unfold parse_resume. rewrite Hnative, Hshort.
  unfold scanned_branch, parse_scanned_resume_multimodal.
  rewrite Htry, Hquota. cbn [andb]. unfold ai_error_dict.
  cbn [fields_get String.eqb Ascii.eqb Bool.eqb].
  assert (Hstart : startswith (strip ("AI_ERROR: " +:+ py_str e)) "AI_ERROR:"
                   = true).
  { apply startswith_strip; [done|]. by apply (startswith_app "AI_ERROR: "). }
  rewrite Hstart, error_marker_removed by done.
  destruct (contains "429" (strip (py_str e))) eqn:H; [|done].
  apply contains_of_strip in H. congruence.
Qed.

End ScanFailure.

Lemma parse_resume_scan_failure_is_fatal_witness :
  parse_resume (constant_service (Raise internal_error)) sample_libs
               three_keys image_pdf "scan.pdf" 0
  = Raise (plain_error "AI Scan failed: 500 Internal error encountered.").
Proof.
  apply (parse_resume_scan_failure_is_fatal
           (constant_service (Raise internal_error)) sample_libs three_keys
           image_pdf "scan.pdf" EmptyString internal_error 0);
    reflexivity.
Defined.

(** ** resume_parser.py: Quota during the scan *)

Section ScanQuota.
Context {W : Type} (svc : GenAI W) (libs : PyLibs) (env : Env)
        (fs : FileSystem).

(** X27.  Quota exhaustion during the scan does not stop the parsing of a
    resume: a profile comes back, named after the file.  When the PDF
    reader recovers any text, the skills of the profile are title-cased
    entries of the fixed vocabulary, there are at most ten experience lines
    and no project; when it recovers none, the profile is the placeholder.
    (A recovered text that begins with the marker "AI_ERROR:" apart.) *)
Theorem parse_resume_quota_yields_profile (filepath text : string)
  (e : PyError) (w : W) :
  PyLibsLaws libs ->
  native_text fs (lower (splitext_ext filepath)) filepath = Ok text ->
  (String.length (strip text) <? 50) = true ->
  multimodal_try svc libs env filepath w = Raise e ->
  classify_error (py_str e) = Quota ->
  startswith (strip (extract_text_from_pdf fs filepath)) "AI_ERROR:" = false ->
  exists profile,
    parse_resume svc libs env fs filepath w = Ok profile
    /\ rd_filename profile = basename filepath
    /\ rd_file_type profile = lower (splitext_ext filepath)
    /\ if is_empty (extract_text_from_pdf fs filepath)
       then profile = placeholder_profile (basename filepath)
                                          (lower (splitext_ext filepath))
       else rd_skills profile `sublist_of` map title tech_keywords
            /\ length (rd_experience profile) <= 10
            /\ rd_projects profile = [].
Proof.
  intros Hlaws Hnative Hshort Htry Hquota Hmarker.
  rewrite (parse_resume_quota_fallback svc libs env fs filepath text e w)
    by done.
  eexists. split; [reflexivity|].
  destruct (extract_text_from_pdf fs filepath) as [|c recovered] eqn:Hrec.
  - done.
  - cbn [String.length Nat.ltb Nat.leb is_empty].
    cbn [rd_filename rd_file_type rd_skills rd_experience rd_projects].
    split_and!; [done|done| | |done].
    + unfold _fallback_keyword_extraction. cbn [kd_skills].
      apply fmap_sublist, sublist_filter.
    + unfold _fallback_keyword_extraction. cbn [kd_experience].
      rewrite length_take. lia.
Qed.

End ScanQuota.

Lemma parse_resume_quota_yields_profile_witness :
  exists profile,
    parse_resume (constant_service (Raise quota_error)) sample_libs
                 three_keys (one_pdf "cv.pdf" ["Python"]) "cv.pdf" 0
    = Ok profile
    /\ rd_filename profile = "cv.pdf"
    /\ rd_file_type profile = ".pdf"
    /\ rd_skills profile `sublist_of` map title tech_keywords
    /\ length (rd_experience profile) <= 10
    /\ rd_projects profile = [].
Proof.
  apply (parse_resume_quota_yields_profile
           (constant_service (Raise quota_error)) sample_libs three_keys
           (one_pdf "cv.pdf" ["Python"]) "cv.pdf" ("Python" +:+ nl)
           quota_error 0 sample_libs_laws);
    reflexivity.
Defined.

(** ** resume_parser.py: documents that cannot be read *)

Section UnreadableDocument.
Context {W : Type} (svc : GenAI W) (libs : PyLibs) (env : Env)
        (fs : FileSystem).

(** X28.  The three readers fail differently.  A PDF that cannot be opened
    counts as a document without text and goes to the scan; a Word or text
    file that cannot be read makes [parse_resume] raise the error of the
    reader, and no scan is tried. *)
Theorem parse_resume_unreadable_document (filepath : string) (e : PyError)
  (w : W) :
  let ext := lower (splitext_ext filepath) in
  (ext = ".pdf" -> pdf_pages fs filepath = Raise e ->
   parse_resume svc libs env fs filepath w
   = scanned_branch svc libs env fs filepath ".pdf" w)
  /\ (ext = ".docx" -> docx_paragraphs fs filepath = Raise e ->
      parse_resume svc libs env fs filepath w = Raise e)
  /\ (ext = ".txt" -> read_text_file fs filepath = Raise e ->
      parse_resume svc libs env fs filepath w = Raise e).
Proof.
  cbn zeta. unfold parse_resume, native_text. split_and!; intros -> Hread.
  - cbn [String.eqb Ascii.eqb Bool.eqb]. unfold extract_text_from_pdf.
    by rewrite Hread.
  - cbn [String.eqb Ascii.eqb Bool.eqb]. unfold extract_text_from_docx.
    by rewrite Hread.
  - cbn [String.eqb Ascii.eqb Bool.eqb]. by rewrite Hread.
Qed.

End UnreadableDocument.

Lemma parse_resume_unreadable_document_witness :
  parse_resume (constant_service (Ok "unused")) sample_libs three_keys
               image_pdf "cv.docx" 0
  = Raise (plain_error "No such file")
  /\ parse_resume (constant_service (Raise internal_error)) sample_libs
                  three_keys image_pdf "other.pdf" 0
     = Raise (plain_error "AI Scan failed: 500 Internal error encountered.").
Proof.
  destruct (parse_resume_unreadable_document
              (constant_service (Ok "unused")) sample_libs three_keys
              image_pdf "cv.docx" (plain_error "No such file") 0)
    as (_ & Hdocx & _).
  split; [by apply Hdocx|].
  destruct (parse_resume_unreadable_document
              (constant_service (Raise internal_error)) sample_libs
              three_keys image_pdf "other.pdf" (plain_error "No such file") 0)
    as (Hpdf & _ & _).
  rewrite Hpdf by reflexivity. reflexivity.
Defined.
